(** * fanotify backend of fsnotify: a shallow embedding and its properties

    The development follows the Go sources of the fanotify backend:
    the kernel probe ([kernelVersion]), the flag negotiator
    ([newFanotifyWatcher], [flagsValid], [isFanotifyMarkMaskValid],
    [fanotifyInitFlagsKernelSupport], [fanotifyMarkFlagsKernelSupport]),
    the mount resolver ([getMountPointForPath]), the event-stream decoder
    ([fanotifyEventOK], [getFileHandle], [getFileHandleWithName],
    the loop of [readFanotifyEvents], [toOp]), the mark call
    ([fanotifyMark]) and the two shutdown paths ([closeFanotify] of the
    internal watcher and [Close] of the public [FanotifyWatcher]).

    Values of the fixed-width types are integers of [Z] with the wrap-around
    written out where the source can reach it.  Go's [int] is 32 or 64 bits
    wide, by the target the package is built for: the decoder, whose
    arithmetic on the offset and on the bytes left is done in [int], takes
    the width from its host ([intSize]).

    The code is followed one goroutine at a time: the fields of a watcher
    change by the statements of that goroutine only.  What the other
    goroutines do shows in the state a call starts from (a channel they have
    closed is closed) and in [Peers], which says whether a receiver takes a
    value offered on one of the unbuffered channels; a call that waits in a
    channel operation which nobody completes is [Blocked]. *)

From Stdlib Require Import ZArith List Bool String Ascii Lia Permutation.
Import ListNotations.
Local Open Scope Z_scope.

(** ** Constants of golang.org/x/sys/unix used by the backend *)

Definition FAN_ACCESS : Z := 0x1.
Definition FAN_MODIFY : Z := 0x2.
Definition FAN_ATTRIB : Z := 0x4.
Definition FAN_CLOSE_WRITE : Z := 0x8.
Definition FAN_CLOSE_NOWRITE : Z := 0x10.
Definition FAN_OPEN : Z := 0x20.
Definition FAN_MOVED_FROM : Z := 0x40.
Definition FAN_MOVED_TO : Z := 0x80.
Definition FAN_CREATE : Z := 0x100.
Definition FAN_DELETE : Z := 0x200.
Definition FAN_DELETE_SELF : Z := 0x400.
Definition FAN_MOVE_SELF : Z := 0x800.
Definition FAN_OPEN_EXEC : Z := 0x1000.
Definition FAN_OPEN_PERM : Z := 0x10000.
Definition FAN_ACCESS_PERM : Z := 0x20000.
Definition FAN_OPEN_EXEC_PERM : Z := 0x40000.
Definition FAN_EVENT_ON_CHILD : Z := 0x8000000.
Definition FAN_ONDIR : Z := 0x40000000.
Definition FAN_MOVE : Z := 0xc0.

Definition FAN_CLOEXEC : Z := 0x1.
Definition FAN_CLASS_NOTIF : Z := 0x0.
Definition FAN_CLASS_CONTENT : Z := 0x4.
Definition FAN_CLASS_PRE_CONTENT : Z := 0x8.
Definition FAN_ENABLE_AUDIT : Z := 0x40.
Definition FAN_REPORT_FID : Z := 0x200.
Definition FAN_REPORT_DIR_FID : Z := 0x400.
Definition FAN_REPORT_NAME : Z := 0x800.
Definition FAN_REPORT_DFID_NAME : Z := 0xc00.

Definition FAN_MARK_ADD : Z := 0x1.
Definition FAN_MARK_REMOVE : Z := 0x2.
Definition FAN_MARK_MOUNT : Z := 0x10.
Definition FAN_MARK_FLUSH : Z := 0x80.

Definition FAN_EVENT_INFO_TYPE_FID : Z := 1.
Definition FAN_EVENT_INFO_TYPE_DFID_NAME : Z := 2.
Definition FAN_EVENT_INFO_TYPE_DFID : Z := 3.
Definition FANOTIFY_METADATA_VERSION : Z := 3.
Definition FAN_NOFD : Z := -1.
Definition NAME_MAX : Z := 255.

(** [unsafe.Sizeof(unix.FanotifyEventMetadata{})]: u32, u8, u8, u16, u64,
    i32, i32. *)
Definition sizeOfFanotifyEventMetadata : Z := 24.

(** ** Flag negotiator *)

(** The closure [isSet] of [flagsValid] and [isFanotifyMarkMaskValid], which
    is also [fanotifyEventType.Has]: every bit of [k] is set in [n]. *)
Definition isSet (n k : Z) : bool := Z.land n k =? k.

(** The [switch] of [newFanotifyWatcher] that picks the init flags; [flags]
    starts as Go's zero value and the three [if]s of the [maj == 5] case run
    one after the other. *)
Definition negotiateInitFlags (maj min : Z) : Z :=
  let flags := 0 in
  if maj <? 5 then
    Z.lor FAN_CLASS_NOTIF FAN_CLOEXEC
  else if maj =? 5 then
    let flags :=
      if min <? 1 then Z.lor FAN_CLASS_NOTIF FAN_CLOEXEC else flags in
    let flags :=
      if (1 <=? min) && (min <? 9)
      then Z.lor (Z.lor FAN_CLASS_NOTIF FAN_CLOEXEC) FAN_REPORT_FID
      else flags in
    let flags :=
      if 9 <=? min
      then Z.lor (Z.lor (Z.lor FAN_CLASS_NOTIF FAN_CLOEXEC) FAN_REPORT_DIR_FID)
                 FAN_REPORT_NAME
      else flags in
    flags
  else if 5 <? maj then
    Z.lor (Z.lor (Z.lor FAN_CLASS_NOTIF FAN_CLOEXEC) FAN_REPORT_DIR_FID)
          FAN_REPORT_NAME
  else flags.

(** Kernel versions compare lexicographically on (major, minor). *)
Definition version_ltb (v w : Z * Z) : bool :=
  (fst v <? fst w) || ((fst v =? fst w) && (snd v <? snd w)).

Definition version_leb (v w : Z * Z) : bool := negb (version_ltb w v).

(** [flagsValid]: [None] is Go's [nil] error. *)
Inductive flagsError : Set :=
| ErrFidWithContent
| ErrFidWithPreContent
| ErrNameWithoutDirFid.

Definition flagsValid (flags : Z) : option flagsError :=
  if isSet flags (Z.lor FAN_REPORT_FID FAN_CLASS_CONTENT) then
    Some ErrFidWithContent
  else if isSet flags (Z.lor FAN_REPORT_FID FAN_CLASS_PRE_CONTENT) then
    Some ErrFidWithPreContent
  else if isSet flags FAN_REPORT_NAME then
    if negb (isSet flags FAN_REPORT_DIR_FID) then Some ErrNameWithoutDirFid
    else None
  else None.

(** [isFanotifyMarkMaskValid]: [true] stands for the [nil] error, [false]
    for the error "mountpoint cannot be watched for ...". *)
Definition isFanotifyMarkMaskValid (flags mask : Z) : bool :=
  if isSet flags FAN_MARK_MOUNT then
    if isSet mask FAN_CREATE
       || isSet mask FAN_ATTRIB
       || isSet mask FAN_MOVE
       || isSet mask FAN_DELETE_SELF
       || isSet mask FAN_DELETE
    then false
    else true
  else true.

(** *** Kernel support tables

    Both support checks range over a Go map.  The order in which [range]
    visits a map is not specified, and each entry is visited once; the
    order is therefore an argument of the model, and any permutation of the
    table is a possible run. *)

Record kernelVersionT : Set := mkVer { ver_maj : Z; ver_min : Z }.

Definition flagPerKernelVersion : list (Z * kernelVersionT) :=
  [ (FAN_ENABLE_AUDIT, mkVer 4 15);
    (FAN_REPORT_FID, mkVer 5 1);
    (FAN_REPORT_DIR_FID, mkVer 5 9);
    (FAN_REPORT_NAME, mkVer 5 9);
    (FAN_REPORT_DFID_NAME, mkVer 5 9) ].

Definition fanotifyMarkFlags : list (Z * kernelVersionT) :=
  [ (FAN_OPEN_EXEC, mkVer 5 0);
    (FAN_ATTRIB, mkVer 5 1);
    (FAN_CREATE, mkVer 5 1);
    (FAN_DELETE, mkVer 5 1);
    (FAN_DELETE_SELF, mkVer 5 1);
    (FAN_MOVED_FROM, mkVer 5 1);
    (FAN_MOVED_TO, mkVer 5 1) ].

(** The closure [check]: [None] is the error "flag not set", [Some v] the
    verdict for a flag that is set. *)
Definition check (maj min : Z) (n k w x : Z) : option bool :=
  if Z.land n k =? k then
    if w <? maj then Some true
    else if (maj =? w) && (x <=? min) then Some true
    else Some false
  else None.

(** The [for ... range] loop shared by the two checks: the first visited
    entry whose flag is set decides, and [true] is returned when the loop
    runs off the end. *)
Fixpoint kernelSupportLoop (order : list (Z * kernelVersionT))
         (flags maj min : Z) : bool :=
  match order with
  | [] => true
  | (flag, ver) :: rest =>
      match check maj min flags flag (ver_maj ver) (ver_min ver) with
      | None => kernelSupportLoop rest flags maj min
      | Some v => v
      end
  end.

Definition fanotifyInitFlagsKernelSupport
           (order : list (Z * kernelVersionT)) (flags maj min : Z) : bool :=
  kernelSupportLoop order flags maj min.

Definition fanotifyMarkFlagsKernelSupport
           (order : list (Z * kernelVersionT)) (flags maj min : Z) : bool :=
  kernelSupportLoop order flags maj min.

(** What the support table asks for, in the words of the specification:
    every flag of the table that is present in the set has its minimum
    kernel version met by (maj, min). *)
Definition versionSatisfied (maj min : Z) (ver : kernelVersionT) : bool :=
  version_leb (ver_maj ver, ver_min ver) (maj, min).

Definition allPresentFlagsSupported (table : list (Z * kernelVersionT))
           (flags maj min : Z) : bool :=
  forallb (fun e => implb (isSet flags (fst e))
                          (versionSatisfied maj min (snd e))) table.

(** ** Errors, panics and system calls *)

(** The Go errors the backend builds or passes on. *)
Inductive error : Set :=
| Errno (e : Z)                           (* an errno of a system call *)
| ErrOpenFstab (e : Z)                    (* the error of os.Open, as it is *)
| ErrCannotStat (path : string) (e : Z)   (* "cannot stat %s: %w" *)
| ErrReadingFstab                         (* "error reading fstab: %w" *)
| ErrCannotStatPathsWrap (e : Z)          (* "cannot stat paths in fstab: %w" *)
| ErrCannotStatPaths                      (* "cannot stat paths in fstab" *)
| ErrInvalidFlagCombination               (* wraps errInvalidFlagCombination *)
| ErrAtoiRange (s : string).              (* strconv.ErrRange of Atoi *)

(** A Go call returns, panics, or waits for ever in a channel operation that
    no other goroutine completes. *)
Inductive outcome (A : Type) : Type :=
| Returned (a : A)
| Panicked (msg : string)
| Blocked.
Arguments Returned {A} a.
Arguments Panicked {A} msg.
Arguments Blocked {A}.

Definition bindO {A B : Type} (m : outcome A) (f : A -> outcome B)
  : outcome B :=
  match m with
  | Returned a => f a
  | Panicked msg => Panicked msg
  | Blocked => Blocked
  end.

Notation "x <- m ;; k" := (bindO m (fun x => k))
  (at level 61, m at next level, right associativity).

(** The system calls that act on kernel state, in the order issued and
    whether they succeed or not; calls that only read, such as [stat], are
    left out. *)
Inductive syscall : Set :=
| SysOpen (path : string)
| SysWrite (fd : Z) (data : string)
| SysClose (fd : Z)
| SysFanotifyMark (fd flags mask dirfd : Z) (path : string).

(** ** Channels and files *)

(** A Go channel seen from one goroutine: what was sent on it and whether
    it has been closed.  Closing a closed channel panics, and so does
    sending on one.  The channels of the backend are all made without a
    buffer, so a send on an open channel goes through when a receiver takes
    the value ([taken]) and waits for ever otherwise. *)
Record chan (A : Type) : Type := mkChan { ch_sent : list A; ch_closed : bool }.
Arguments mkChan {A} ch_sent ch_closed.
Arguments ch_sent {A} c.
Arguments ch_closed {A} c.

Definition makeChan {A : Type} : chan A := mkChan [] false.

Definition closeChan {A : Type} (c : chan A) : outcome (chan A) :=
  if ch_closed c then Panicked "close of closed channel"
  else Returned (mkChan (ch_sent c) true).

Definition sendChan {A : Type} (taken : bool) (c : chan A) (a : A)
  : outcome (chan A) :=
  if ch_closed c then Panicked "send on closed channel"
  else if taken then Returned (mkChan (ch_sent c ++ [a]) (ch_closed c))
  else Blocked.

(** The statement [select { case c <- a: ...; case <-done: }].  The send
    can proceed when a receiver takes the value, and also when [c] is
    closed (it then panics); the receive can proceed when [done] is closed.
    When both can, Go picks one of them at random ([doneFirst] is the
    pick); when neither can, the goroutine waits.  [Some c'] is the send
    case, [None] the other one. *)
Definition selectSend {A : Type} (taken doneFirst : bool) (done : chan unit)
           (c : chan A) (a : A) : outcome (option (chan A)) :=
  let sendReady := ch_closed c || taken in
  let doneReady := ch_closed done in
  if sendReady && negb (doneReady && doneFirst) then
    c' <- sendChan true c a ;; Returned (Some c')
  else if doneReady then Returned None
  else Blocked.

(** An [os.File] behind its pointer: its descriptor and whether [Close] was called.  [Fd] of
    a closed file is the all-ones value, -1 once converted to [int]; [Close]
    of a closed or nil file returns an error that every caller here drops. *)
Record File : Set := mkFile { f_fd : Z; f_closed : bool }.

Definition fileFd (f : File) : Z := if f_closed f then -1 else f_fd f.

Definition fileClose (f : File) : File * list syscall :=
  if f_closed f then (f, [])
  else (mkFile (f_fd f) true, [SysClose (f_fd f)]).

(** [Close] through a pointer that may be [nil] (the mount point file before
    the first Add). *)
Definition fileCloseNilable (f : option File) : option File * list syscall :=
  match f with
  | None => (None, [])
  | Some f => let '(f', t) := fileClose f in (Some f', t)
  end.

(** ** Events *)

Record Event : Set := mkEvent { Name : string; Op : Z }.

Record FanotifyEvent : Set :=
  mkFanotifyEvent { ev : Event; Fd : Z; Pid : Z }.

(** ** The other goroutines *)

(** The goroutines on the other side of the watcher's channels, as the one
    that runs the code sees them: whether a receiver takes the next value
    offered on Events, on PermissionEvents and on Errors, given the values
    sent there so far, and which case a [select] picks when both of its cases
    can proceed. *)
Class Peers : Type := mkPeers {
  takesEvent : list FanotifyEvent -> bool;
  takesPermissionEvent : list FanotifyEvent -> bool;
  takesError : list error -> bool;
  selectsDone : bool
}.

(** ** The internal watcher and its shutdown *)

Record Watcher : Type := mkWatcher {
  w_fd : Z;
  w_flags : Z;
  kernelMajorVersion : Z;
  kernelMinorVersion : Z;
  done : chan unit;
  stopper_r : File;
  stopper_w : File;
  Events : chan FanotifyEvent;
  PermissionEvents : chan FanotifyEvent;
  Errors : chan error;
  closeOnce : bool;           (* sync.Once: has Do run its function? *)
  isClosed : bool;
  mountPointFile : option File;
  mountDeviceID : Z;
  markMask : Z
}.

(** The function handed to [closeOnce.Do] in [closeFanotify].  [closeErr]
    is what [unix.Close(w.fd)] returns; its error goes to Errors with a
    plain send, outside any [select]. *)
Definition closeFanotifyBody `{Peers} (closeErr : option Z) (w : Watcher)
  : outcome (Watcher * list syscall) :=
  done' <- closeChan (done w) ;;
  let t1 := [SysWrite (fileFd (stopper_w w)) "stop"] in
  let t2 := [SysClose (w_fd w)] in
  errors1 <- match closeErr with
             | Some e => sendChan (takesError (ch_sent (Errors w)))
                           (Errors w) (Errno e)
             | None => Returned (Errors w)
             end ;;
  let '(mp, t3) := fileCloseNilable (mountPointFile w) in
  let '(sr, t4) := fileClose (stopper_r w) in
  let '(sw, t5) := fileClose (stopper_w w) in
  events' <- closeChan (Events w) ;;
  perms' <- closeChan (PermissionEvents w) ;;
  errors' <- closeChan errors1 ;;
  Returned
    (mkWatcher (w_fd w) (w_flags w) (kernelMajorVersion w)
       (kernelMinorVersion w) done' sr sw
       events' perms' errors' true true mp (mountDeviceID w) (markMask w),
     t1 ++ t2 ++ t3 ++ t4 ++ t5).

(** [closeFanotify]: [sync.Once.Do] runs the body on the first call only. *)
Definition closeFanotify `{Peers} (closeErr : option Z) (w : Watcher)
  : outcome (Watcher * list syscall) :=
  if closeOnce w then Returned (w, [])
  else closeFanotifyBody closeErr w.

(** ** The public FanotifyWatcher and its Close *)

Record FanotifyWatcher : Type := mkFanotifyWatcher {
  fw_Events : chan FanotifyEvent;
  fw_PermissionEvents : chan FanotifyEvent;
  fw_fd : Z;
  fw_flags : Z;
  fw_mountpoint : option File;
  fw_kernelMajorVersion : Z;
  fw_kernelMinorVersion : Z;
  fw_entireMount : bool;
  fw_notificationOnly : bool;
  fw_stopper_r : File;
  fw_stopper_w : File
}.

(** [Close] of [FanotifyWatcher]; the receiver is a pointer, [None] is
    [nil]. *)
Definition FanotifyWatcher_Close (w : option FanotifyWatcher)
  : outcome (option FanotifyWatcher * list syscall) :=
  match w with
  | None => Returned (None, [])
  | Some w =>
      let t1 := [SysWrite (fileFd (fw_stopper_w w)) "stop"] in
      let '(mp, t2) := fileCloseNilable (fw_mountpoint w) in
      let '(sr, t3) := fileClose (fw_stopper_r w) in
      let '(sw, t4) := fileClose (fw_stopper_w w) in
      events' <- closeChan (fw_Events w) ;;
      perms' <- closeChan (fw_PermissionEvents w) ;;
      Returned
        (Some (mkFanotifyWatcher events' perms' (fw_fd w) (fw_flags w) mp
                 (fw_kernelMajorVersion w) (fw_kernelMinorVersion w)
                 (fw_entireMount w) (fw_notificationOnly w) sr sw),
         t1 ++ t2 ++ t3 ++ t4 ++ [SysClose (fw_fd w)])
  end.

(** ** Mark API *)

Definition markPanicMessage : string :=
  "some of the mark mask combinations specified are not supported on the current kernel; refer to the documentation".

(** [fanotifyMark] of [Watcher].  [order] is the order in which the support
    check ranges over its table and [markErr] what [unix.FanotifyMark]
    answers if it is called.  The result is the returned error and the
    system calls issued. *)
Definition fanotifyMark (order : list (Z * kernelVersionT))
           (markErr : option Z) (w : Watcher) (path : string)
           (flags mask : Z) : outcome (option error) * list syscall :=
  if negb (fanotifyMarkFlagsKernelSupport order mask
             (kernelMajorVersion w) (kernelMinorVersion w))
  then (Panicked markPanicMessage, [])
  else if negb (isFanotifyMarkMaskValid flags mask)
  then (Returned (Some ErrInvalidFlagCombination), [])
  else
    let t := [SysFanotifyMark (w_fd w) flags mask (-1) path] in
    match markErr with
    | Some e => (Returned (Some (Errno e)), t)
    | None => (Returned None, t)
    end.

(** ** Kernel probe *)

Definition isDigit (c : ascii) : bool :=
  let n := Z.of_nat (nat_of_ascii c) in (48 <=? n) && (n <=? 57).

(** [regexp.MustCompile(`([0-9]+)`).FindAllString(s, -1)]: the maximal runs
    of decimal digits of [s], left to right.  [cur] is the run being read. *)
Fixpoint digitRuns (s : string) (cur : string) : list string :=
  match s with
  | EmptyString => if (cur =? "")%string then [] else [cur]
  | String c rest =>
      if isDigit c then digitRuns rest (cur ++ String c "")%string
      else if (cur =? "")%string then digitRuns rest ""%string
      else cur :: digitRuns rest ""%string
  end.

Definition FindAllString (s : string) : list string := digitRuns s "".

(** The largest [int] of a 64-bit target, for which the kernel probe is
    given. *)
Definition maxInt : Z := 2 ^ 63 - 1.

Fixpoint decimalValue (s : string) (acc : Z) : Z :=
  match s with
  | EmptyString => acc
  | String c rest =>
      decimalValue rest (10 * acc + (Z.of_nat (nat_of_ascii c) - 48))
  end.

(** [strconv.Atoi] on a run of digits, the only strings [kernelVersion]
    hands to it: the value, or the largest [int] together with a range
    error when the value does not fit. *)
Definition Atoi (s : string) : Z * option error :=
  let v := decimalValue s 0 in
  if v <=? maxInt then (v, None) else (maxInt, Some (ErrAtoiRange s)).

(** Indexing a slice; Go panics when the index is out of range. *)
Definition index {A : Type} (l : list A) (i : Z) : outcome A :=
  if i <? 0 then Panicked "index out of range"
  else match nth_error l (Z.to_nat i) with
       | Some a => Returned a
       | None => Panicked "index out of range"
       end.

(** [kernelVersion].  [uname] is what [unix.Uname] gives: an errno, or the
    release string.  The results are named in the source, so a bare
    [return] hands back whatever they hold at that point. *)
Definition kernelVersion (uname : Z + string)
  : outcome (Z * Z * Z * option error) :=
  match uname with
  | inl e => Returned (0, 0, 0, Some (Errno e))
  | inr release =>
      let version := FindAllString release in
      v0 <- index version 0 ;;
      let '(maj, err) := Atoi v0 in
      match err with
      | Some e => Returned (maj, 0, 0, Some e)
      | None =>
          v1 <- index version 1 ;;
          let '(min, err) := Atoi v1 in
          match err with
          | Some e => Returned (maj, min, 0, Some e)
          | None =>
              v2 <- index version 2 ;;
              let '(patch, err) := Atoi v2 in
              match err with
              | Some e => Returned (maj, min, patch, Some e)
              | None => Returned (maj, min, patch, None)
              end
          end
      end
  end.

(** ** Mount resolver *)

(** [strings.TrimLeft(s, " \t")]. *)
Fixpoint TrimLeft (s : string) : string :=
  match s with
  | String c rest =>
      if (c =? " ")%char || (c =? "009")%char then TrimLeft rest else s
  | EmptyString => EmptyString
  end.

(** [strings.HasPrefix(line, "#")]. *)
Definition HasPrefixHash (line : string) : bool :=
  match line with
  | String c _ => (c =? "#")%char
  | EmptyString => false
  end.

(** What reading the mount table through [bufio.Scanner] yields: the lines
    [Scan] delivered and whether [scanner.Err()] is non-nil afterwards. *)
Record fstabScan : Set := mkScan { scan_lines : list string; scan_err : bool }.

Section MountResolver.

(** [strings.Fields] and [unix.Stat] (an errno, or the [Dev] of the path)
    belong to the host; nothing is assumed about them. *)
Variable Fields : string -> list string.
Variable Stat : string -> Z + Z.

(** One round of the [for scanner.Scan()] loop.  [fsErr] is the variable of
    that name, [dev] is [pathStat.Dev].  [inl mp] is the [return] from
    inside the loop with mount point [mp]; [inr fsErr'] goes on to the next
    line. *)
Definition scanLine (text : string) (dev : Z) (fsErr : option Z)
  : outcome (string + option Z) :=
  let line := TrimLeft text in
  if HasPrefixHash line then Returned (inr fsErr)
  else if (line =? "")%string then Returned (inr fsErr)
  else
    let fields := Fields line in
    f2 <- index fields 2 ;;
    if (f2 =? "swap")%string then Returned (inr fsErr)
    else
      f1 <- index fields 1 ;;
      match Stat f1 with
      | inl e => Returned (inr (Some e))
      | inr fsDev =>
          if dev =? fsDev then Returned (inl f1) else Returned (inr fsErr)
      end.

Fixpoint scanLoop (lines : list string) (dev : Z) (fsErr : option Z)
  : outcome (string + option Z) :=
  match lines with
  | [] => Returned (inr fsErr)
  | text :: rest =>
      r <- scanLine text dev fsErr ;;
      match r with
      | inl mp => Returned (inl mp)
      | inr fsErr' => scanLoop rest dev fsErr'
      end
  end.

(** [getMountPointForPath].  [fstab] is what opening and scanning
    /etc/fstab gives: the errno of [os.Open], or the scan. *)
Definition getMountPointForPath (fstab : Z + fstabScan) (path : string)
  : outcome (string * Z * option error) :=
  match fstab with
  | inl e => Returned (""%string, 0, Some (ErrOpenFstab e))
  | inr sc =>
      match Stat path with
      | inl e => Returned (""%string, 0, Some (ErrCannotStat path e))
      | inr dev =>
          r <- scanLoop (scan_lines sc) dev None ;;
          match r with
          | inl mp => Returned (mp, dev, None)
          | inr fsErr =>
              if scan_err sc then Returned (""%string, 0, Some ErrReadingFstab)
              else match fsErr with
                   | Some e =>
                       Returned (""%string, 0, Some (ErrCannotStatPathsWrap e))
                   | None => Returned (""%string, 0, Some ErrCannotStatPaths)
                   end
          end
      end
  end.

(** *** The resolver in the words of the specification *)

(** A line is skipped when, leading blanks and tabs aside, it is empty or
    begins with [#]. *)
Definition skippedLine (text : string) : bool :=
  let line := TrimLeft text in HasPrefixHash line || (line =? "")%string.

(** The third field of a record is its file system type. *)
Definition isSwap (text : string) : bool :=
  match nth_error (Fields (TrimLeft text)) 2 with
  | Some t => (t =? "swap")%string
  | None => false
  end.

Definition mountPointOf (text : string) : string :=
  nth 1 (Fields (TrimLeft text)) ""%string.

(** The records that remain after the skips. *)
Definition remainingRecords (lines : list string) : list string :=
  filter (fun t => negb (skippedLine t) && negb (isSwap t)) lines.

Definition devMatches (dev : Z) (text : string) : bool :=
  match Stat (mountPointOf text) with
  | inr d => dev =? d
  | inl _ => false
  end.

(** The first remaining record whose mount point has the device id [dev]. *)
Definition firstMatch (lines : list string) (dev : Z) : option string :=
  find (devMatches dev) (remainingRecords lines).

(** The stat errors met on the remaining records, in scan order. *)
Definition statErrors (lines : list string) : list Z :=
  flat_map (fun t => match Stat (mountPointOf t) with
                     | inl e => [e]
                     | inr _ => []
                     end) (remainingRecords lines).

(** A line the resolver can take apart: skipped, or with three fields. *)
Definition wellFormedLine (text : string) : bool :=
  skippedLine text || (3 <=? Z.of_nat (List.length (Fields (TrimLeft text)))).

End MountResolver.

(** The last of the stat errors met, the one [fsErr] holds when the scan is
    over. *)
Definition lastError (errs : list Z) : option Z :=
  fold_left (fun _ e => Some e) errs None.

(** ** Event-stream decoder *)

(** *** The width of int *)

(** Go's [int] has 32 or 64 bits; the build constraint of the backend
    (linux) admits targets of both kinds. *)
Inductive intWidth : Set := Int32 | Int64.

Definition intBits (sz : intWidth) : Z :=
  match sz with
  | Int32 => 32
  | Int64 => 64
  end.

(** The [int] that has the bits of [z]: the result of an addition or a
    subtraction in [int], and of the conversion [int(x)]. *)
Definition wrapInt (sz : intWidth) (z : Z) : Z :=
  let r := z mod 2 ^ intBits sz in
  if r <? 2 ^ (intBits sz - 1) then r else r - 2 ^ intBits sz.

(** *** Bytes of the read buffer *)

Definition byteZ (b : Byte.byte) : Z := Z.of_N (Byte.to_N b).

(** Little-endian value of a run of bytes ([binary.LittleEndian], and the
    host order of the structs laid over the buffer). *)
Fixpoint leU (bs : list Byte.byte) : Z :=
  match bs with
  | [] => 0
  | b :: rest => byteZ b + 256 * leU rest
  end.

Definition wrap32 (z : Z) : Z := z mod 2 ^ 32.

(** Reading a little-endian value as a two's complement [int32]. *)
Definition signed32 (z : Z) : Z := if z <? 2 ^ 31 then z else z - 2 ^ 32.

(** The slice expression [buf[lo:hi]], bounds-checked by Go. *)
Definition slice (buf : list Byte.byte) (lo hi : Z)
  : outcome (list Byte.byte) :=
  if (0 <=? lo) && (lo <=? hi) && (hi <=? Z.of_nat (List.length buf))
  then Returned (firstn (Z.to_nat (hi - lo)) (skipn (Z.to_nat lo) buf))
  else Panicked "slice bounds out of range".

(** A read through a struct pointer laid over the buffer with
    [unsafe.Pointer]: [len] bytes at offset [off].  Go does not check such a
    read, so near the end of the array it runs into whatever lies behind it
    in memory; [past] gives those bytes by their offset. *)
Definition peek (buf : list Byte.byte) (past : Z -> Byte.byte) (off : Z)
           (len : nat) : list Byte.byte :=
  map (fun k => let j := off + Z.of_nat k in
                if j <? 0 then past j
                else match nth_error buf (Z.to_nat j) with
                     | Some b => b
                     | None => past j
                     end)
      (seq 0 len).

(** [unix.FanotifyEventMetadata]. *)
Record FanotifyEventMetadata : Set := mkMetadata {
  Event_len : Z;
  Vers : Z;
  Reserved : Z;
  Metadata_len : Z;
  Mask : Z;
  md_Fd : Z;
  md_Pid : Z
}.

(** The metadata struct seen through the pointer [&buf[i]]. *)
Definition readMetadata (buf : list Byte.byte) (past : Z -> Byte.byte)
           (i : Z) : FanotifyEventMetadata :=
  let bs := peek buf past i (Z.to_nat sizeOfFanotifyEventMetadata) in
  mkMetadata
    (leU (firstn 4 bs))
    (leU (firstn 1 (skipn 4 bs)))
    (leU (firstn 1 (skipn 5 bs)))
    (leU (firstn 2 (skipn 6 bs)))
    (leU (firstn 8 (skipn 8 bs)))
    (signed32 (leU (firstn 4 (skipn 16 bs))))
    (signed32 (leU (firstn 4 (skipn 20 bs)))).

(** [fanotifyEventOK].  The second test compares [Event_len] as the
    [uint32] it is; the third one converts it to [int] first. *)
Definition fanotifyEventOK (sz : intWidth) (meta : FanotifyEventMetadata)
           (n : Z) : bool :=
  (sizeOfFanotifyEventMetadata <=? n)
  && (sizeOfFanotifyEventMetadata <=? Event_len meta)
  && (wrapInt sz (Event_len meta) <=? n).

(** *** File handles *)

Record FileHandle : Set :=
  mkFileHandle { handle_type : Z; handle_bytes : list Byte.byte }.

Definition sizeOfFanotifyEventInfoHeader : Z := 4.
Definition sizeOfKernelFSIDType : Z := 8.
Definition sizeOfUint32 : Z := 4.

(** The part shared by [getFileHandle] and [getFileHandleWithName]: the
    handle, and the offset [j] after [j += fhSize].  [j] is a [uint32]. *)
Definition readFileHandle (metadataLen : Z) (buf : list Byte.byte) (i : Z)
  : outcome (FileHandle * Z) :=
  let j := wrap32 (wrap32 i + metadataLen + sizeOfFanotifyEventInfoHeader
                   + sizeOfKernelFSIDType) in
  b <- slice buf j (wrap32 (j + sizeOfUint32)) ;;
  let fhSize := leU b in
  let j := wrap32 (j + sizeOfUint32) in
  b <- slice buf j (wrap32 (j + sizeOfUint32)) ;;
  let fhType := signed32 (leU b) in
  let j := wrap32 (j + sizeOfUint32) in
  h <- slice buf j (wrap32 (j + fhSize)) ;;
  Returned (mkFileHandle fhType h, wrap32 (j + fhSize)).

Definition getFileHandle (metadataLen : Z) (buf : list Byte.byte) (i : Z)
  : outcome FileHandle :=
  r <- readFileHandle metadataLen buf i ;;
  Returned (fst r).

(** The loop [for i := j; i < j+unix.NAME_MAX; i++] that collects the name
    up to the first NUL byte.  It runs at most [NAME_MAX] times, which is
    the fuel. *)
Fixpoint nameLoop (fuel : nat) (buf : list Byte.byte) (i limit : Z)
  : outcome (list Byte.byte) :=
  match fuel with
  | O => Returned []
  | S fuel' =>
      if i <? limit then
        b <- index buf i ;;
        if byteZ b =? 0 then Returned []
        else
          rest <- nameLoop fuel' buf (wrap32 (i + 1)) limit ;;
          Returned (b :: rest)
      else Returned []
  end.

Definition getFileHandleWithName (metadataLen : Z) (buf : list Byte.byte)
           (i : Z) : outcome (FileHandle * list Byte.byte) :=
  r <- readFileHandle metadataLen buf i ;;
  let '(handle, j) := r in
  nameBytes <- nameLoop (Z.to_nat NAME_MAX) buf j (wrap32 (j + NAME_MAX)) ;;
  Returned (handle, nameBytes).

(** *** Operations *)

(** The [Op] constants of the package (Create, Write, ... of fsnotify.go and
    the ones the fanotify backend adds).  Their declaration is not part of
    the backend; the decoder is written over any choice of them. *)
Class OpConsts : Set := mkOpConsts {
  Create : Z;
  Remove : Z;
  Write : Z;
  Rename : Z;
  Chmod : Z;
  Read : Z;
  Close : Z;
  Open : Z;
  Execute : Z;
  PermissionToOpen : Z;
  PermissionToExecute : Z;
  PermissionToRead : Z
}.

(** [fanotifyEventType.Has]. *)
Definition Has (e et : Z) : bool := Z.land e et =? et.

(** [fanotifyEventType.toOp]. *)
Definition toOp `{OpConsts} (e : Z) : Z :=
  let op := 0 in
  let op := if Has e FAN_CREATE || Has e FAN_MOVED_TO
            then Z.lor op Create else op in
  let op := if Has e FAN_DELETE || Has e FAN_DELETE_SELF
            then Z.lor op Remove else op in
  let op := if Has e FAN_MODIFY || Has e FAN_CLOSE_WRITE
            then Z.lor op Write else op in
  let op := if Has e FAN_MOVE_SELF || Has e FAN_MOVED_FROM
            then Z.lor op Rename else op in
  let op := if Has e FAN_ATTRIB then Z.lor op Chmod else op in
  let op := if Has e FAN_ACCESS then Z.lor op Read else op in
  let op := if Has e FAN_CLOSE_NOWRITE then Z.lor op Close else op in
  let op := if Has e FAN_OPEN then Z.lor op Open else op in
  let op := if Has e FAN_OPEN_EXEC then Z.lor op Execute else op in
  let op := if Has e FAN_OPEN_PERM then Z.lor op PermissionToOpen else op in
  let op := if Has e FAN_OPEN_EXEC_PERM
            then Z.lor op PermissionToExecute else op in
  let op := if Has e FAN_ACCESS_PERM then Z.lor op PermissionToRead else op in
  op.

(** An [Op] contains at least one of the Permission variants. *)
Definition hasPermissionOp `{OpConsts} (op : Z) : bool :=
  Has op PermissionToOpen || Has op PermissionToExecute
  || Has op PermissionToRead.

(** The test of [readFanotifyEvents] that routes a record: the mask has
    one of the PERM bits. *)
Definition hasPermBit (mask : Z) : bool :=
  (Z.land mask FAN_ACCESS_PERM =? FAN_ACCESS_PERM)
  || (Z.land mask FAN_OPEN_PERM =? FAN_OPEN_PERM)
  || (Z.land mask FAN_OPEN_EXEC_PERM =? FAN_OPEN_EXEC_PERM).

(** The mask with the ON_DIR marker taken out, as both branches do it. *)
Definition clearOnDir (mask : Z) : Z :=
  if Z.land mask FAN_ONDIR =? FAN_ONDIR then Z.lxor mask FAN_ONDIR else mask.

(** *** Sending on the watcher's channels *)

Definition setEvents (w : Watcher) (c : chan FanotifyEvent) : Watcher :=
  mkWatcher (w_fd w) (w_flags w) (kernelMajorVersion w) (kernelMinorVersion w)
    (done w) (stopper_r w) (stopper_w w) c (PermissionEvents w) (Errors w)
    (closeOnce w) (isClosed w) (mountPointFile w) (mountDeviceID w)
    (markMask w).

Definition setPermissionEvents (w : Watcher) (c : chan FanotifyEvent)
  : Watcher :=
  mkWatcher (w_fd w) (w_flags w) (kernelMajorVersion w) (kernelMinorVersion w)
    (done w) (stopper_r w) (stopper_w w) (Events w) c (Errors w)
    (closeOnce w) (isClosed w) (mountPointFile w) (mountDeviceID w)
    (markMask w).

Definition setErrors (w : Watcher) (c : chan error) : Watcher :=
  mkWatcher (w_fd w) (w_flags w) (kernelMajorVersion w) (kernelMinorVersion w)
    (done w) (stopper_r w) (stopper_w w) (Events w) (PermissionEvents w) c
    (closeOnce w) (isClosed w) (mountPointFile w) (mountDeviceID w)
    (markMask w).

(** The three senders give up when the watcher is closed; otherwise they
    [select] between the send and [done]. *)
Definition sendNotificationEvent `{Peers} (w : Watcher)
           (event : FanotifyEvent) : outcome (bool * Watcher) :=
  if isClosed w then Returned (false, w)
  else
    r <- selectSend (takesEvent (ch_sent (Events w))) selectsDone
           (done w) (Events w) event ;;
    match r with
    | Some c => Returned (true, setEvents w c)
    | None => Returned (false, w)
    end.

Definition sendPermissionEvent `{Peers} (w : Watcher)
           (event : FanotifyEvent) : outcome (bool * Watcher) :=
  if isClosed w then Returned (false, w)
  else
    r <- selectSend (takesPermissionEvent (ch_sent (PermissionEvents w)))
           selectsDone (done w) (PermissionEvents w) event ;;
    match r with
    | Some c => Returned (true, setPermissionEvents w c)
    | None => Returned (false, w)
    end.

Definition sendError `{Peers} (w : Watcher) (err : error)
  : outcome (bool * Watcher) :=
  if isClosed w then Returned (false, w)
  else
    r <- selectSend (takesError (ch_sent (Errors w))) selectsDone
           (done w) (Errors w) err ;;
    match r with
    | Some c => Returned (true, setErrors w c)
    | None => Returned (false, w)
    end.

(** *** The decode loop of readFanotifyEvents *)

(** What the decoder asks of the host: the link target of
    /proc/self/fd/[fd] or an errno, [open_by_handle_at] on the mount point
    descriptor (an errno, or the new descriptor), [path.Join], the memory
    that lies behind the read buffer, and the width of [int] on the
    target. *)
Class DecoderHost : Type := mkDecoderHost {
  Readlink : Z -> Z + string;
  OpenByHandleAt : Z -> FileHandle -> Z + Z;
  pathJoin : string -> string -> string;
  memoryPast : Z -> Byte.byte;
  intSize : intWidth
}.

(** The variables of [readFanotifyEvents] that live across iterations of
    the inner loop: the offset [i], the bytes left [n], [fileName] (declared
    once at the top of the function) and the watcher. *)
Record DecState : Type := mkDecState {
  ds_i : Z;
  ds_n : Z;
  ds_fileName : string;
  ds_w : Watcher
}.

(** One pass through the loop body ends by going back to the guard, or by
    returning from [readFanotifyEvents] with an error or [nil]. *)
Inductive bodyResult : Type :=
| Next (s : DecState)
| Return (err : option error) (w : Watcher).

(** The three statements that close every path back to the guard:
    [i += int(metadata.Event_len)], [n -= int(metadata.Event_len)] and the
    re-cast [metadata = &buf[i]], an index expression that Go
    bounds-checks. *)
Definition advance (sz : intWidth) (buf : list Byte.byte) (i n : Z)
           (metadata : FanotifyEventMetadata) (fileName : string)
           (w : Watcher) : outcome bodyResult :=
  let i := wrapInt sz (i + wrapInt sz (Event_len metadata)) in
  let n := wrapInt sz (n - wrapInt sz (Event_len metadata)) in
  _ <- index buf i ;;
  Returned (Next (mkDecState i n fileName w)).

(** [w.mountPointFile.Fd()]; [Fd] of a nil file is -1. *)
Definition mountPointFd (w : Watcher) : Z :=
  match mountPointFile w with
  | Some f => fileFd f
  | None => -1
  end.

(** The branch for records that carry a descriptor (kernels up to 5.0). *)
Definition classicBranch `{OpConsts} `{DecoderHost} `{Peers}
           (buf : list Byte.byte) (s : DecState)
           (metadata : FanotifyEventMetadata) : outcome bodyResult :=
  let i := ds_i s in
  let n := ds_n s in
  let w := ds_w s in
  match Readlink (md_Fd metadata) with
  | inl e =>
      r <- sendError w (Errno e) ;;
      let '(ok, w) := r in
      if negb ok then Returned (Return (Some (Errno e)) w)
      else advance intSize buf i n metadata (ds_fileName s) w
  | inr name =>
      let mask := clearOnDir (Mask metadata) in
      let event := mkFanotifyEvent (mkEvent name (toOp mask))
                     (md_Fd metadata) (md_Pid metadata) in
      r <- (if hasPermBit mask then sendPermissionEvent w event
            else sendNotificationEvent w event) ;;
      let '(ok, w) := r in
      if negb ok then Returned (Return None w)
      else advance intSize buf i n metadata (ds_fileName s) w
  end.

(** The [switch] on [fid.Header.InfoType]: [Some withName] for the three
    known record types, [None] for the [default] case. *)
Definition infoTypeSwitch (InfoType : Z) : option bool :=
  if InfoType =? FAN_EVENT_INFO_TYPE_FID then Some false
  else if InfoType =? FAN_EVENT_INFO_TYPE_DFID then Some false
  else if InfoType =? FAN_EVENT_INFO_TYPE_DFID_NAME then Some true
  else None.

(** The statement [if withName { ... } else { ... }]: the file handle, and
    [fileName] and [i] as the statement leaves them.  With a name, [fileName]
    is the name read ([nameBytes.String()], or the empty string it was
    declared with) and [i] moves by its length. *)
Definition handleAndName (sz : intWidth) (withName : bool) (metadataLen : Z)
           (buf : list Byte.byte) (i : Z) (fileName : string)
  : outcome (FileHandle * string * Z) :=
  if withName then
    r <- getFileHandleWithName metadataLen buf i ;;
    let '(fileHandle, nameBytes) := r in
    let fileName := if (List.length nameBytes =? 0)%nat then ""%string
                    else string_of_list_byte nameBytes in
    Returned (fileHandle, fileName,
              wrapInt sz (i + Z.of_nat (String.length fileName)))
  else
    fileHandle <- getFileHandle metadataLen buf i ;;
    Returned (fileHandle, fileName, i).

(** The branch for records that carry a file handle (kernels from 5.1).
    In the named case [i] is moved past the name before the common advance;
    [fileName] keeps its value from one record to the next when the record
    has no name. *)
Definition fidBranch `{OpConsts} `{DecoderHost} `{Peers}
           (buf : list Byte.byte) (s : DecState)
           (metadata : FanotifyEventMetadata) : outcome bodyResult :=
  let i := ds_i s in
  let n := ds_n s in
  let w := ds_w s in
  let fileName := ds_fileName s in
  fid <- index buf (wrapInt intSize (i + Metadata_len metadata)) ;;
  match infoTypeSwitch (byteZ fid) with
  | None => advance intSize buf i n metadata fileName w
  | Some withName =>
    hn <- handleAndName intSize withName (Metadata_len metadata) buf i
            fileName ;;
    let '(fileHandle, fileName, i) := hn in
    match OpenByHandleAt (mountPointFd w) fileHandle with
    | inl errno =>
        r <- sendError w (Errno errno) ;;
        let '(ok, w) := r in
        if negb ok then Returned (Return (Some (Errno errno)) w)
        else advance intSize buf i n metadata fileName w
    | inr fd =>
        match Readlink fd with
        | inl _ => Panicked "slice bounds out of range [:-1]"
        | inr pathName =>
            let mask := clearOnDir (Mask metadata) in
            let event := mkFanotifyEvent
                           (mkEvent (pathJoin pathName fileName) (toOp mask))
                           fd (md_Pid metadata) in
            r <- sendNotificationEvent w event ;;
            let '(ok, w) := r in
            if negb ok then Returned (Return None w)
            else advance intSize buf i n metadata fileName w
        end
    end
  end.

(** The loop body. *)
Definition loopBody `{OpConsts} `{DecoderHost} `{Peers}
           (buf : list Byte.byte) (s : DecState)
           (metadata : FanotifyEventMetadata) : outcome bodyResult :=
  if negb (Vers metadata =? FANOTIFY_METADATA_VERSION) then
    Panicked "metadata structure from the kernel does not match the structure definition at compile time"
  else if negb (md_Fd metadata =? FAN_NOFD) then classicBranch buf s metadata
  else fidBranch buf s metadata.

(** The loop guard [fanotifyEventOK(metadata, n)].  [Some] is the record
    the body will handle. *)
Definition loopGuard `{DecoderHost} (buf : list Byte.byte) (s : DecState)
  : option FanotifyEventMetadata :=
  let metadata := readMetadata buf memoryPast (ds_i s) in
  if fanotifyEventOK intSize metadata (ds_n s) then Some metadata else None.

(** How the loop over one buffer ends. *)
Inductive loopResult : Type :=
| LoopDone (s : DecState)                        (* the guard failed *)
| LoopReturn (err : option error) (w : Watcher)  (* a return in the body *)
| OutOfFuel.

(** The inner [for fanotifyEventOK(metadata, n)] loop, iterated at most
    [fuel] times. *)
Fixpoint decodeLoop `{OpConsts} `{DecoderHost} `{Peers} (fuel : nat)
         (buf : list Byte.byte) (s : DecState) : outcome loopResult :=
  match fuel with
  | O => Returned OutOfFuel
  | S fuel' =>
      match loopGuard buf s with
      | None => Returned (LoopDone s)
      | Some metadata =>
          r <- loopBody buf s metadata ;;
          match r with
          | Next s' => decodeLoop fuel' buf s'
          | Return err w => Returned (LoopReturn err w)
          end
      end
  end.

(** The state in which [readFanotifyEvents] enters the inner loop after a
    read of [n] bytes: [i := 0] and the first cast [&buf[0]]. *)
Definition enterLoop (buf : list Byte.byte) (n : Z) (fileName : string)
           (w : Watcher) : outcome DecState :=
  _ <- index buf 0 ;;
  Returned (mkDecState 0 n fileName w).

Definition ranOutOfFuel (r : outcome loopResult) : bool :=
  match r with
  | Returned OutOfFuel => true
  | _ => false
  end.

(** The watcher a pass through the loop body leaves behind. *)
Definition resultWatcher (r : bodyResult) : Watcher :=
  match r with
  | Next s => ds_w s
  | Return _ w => w
  end.

(** *** The Op constants as a bit set

    Whatever values the package gives them, the twelve constants are taken
    to be non-zero and to share no bit. *)
Definition opList `{OpConsts} : list Z :=
  [ Create; Remove; Write; Rename; Chmod; Read; Close; Open; Execute;
    PermissionToOpen; PermissionToExecute; PermissionToRead ].

Fixpoint orderedPairs (l : list Z) : list (Z * Z) :=
  match l with
  | [] => []
  | a :: rest => map (pair a) rest ++ orderedPairs rest
  end.

Definition opsDisjoint `{OpConsts} : bool :=
  forallb (fun a => negb (a =? 0)) opList
  && forallb (fun p => Z.land (fst p) (snd p) =? 0) (orderedPairs opList).

(** *** Delivery of an event

    [e] is delivered on a stream between two states of the watcher when it
    has been appended to what was sent there and the other event stream is
    as it was. *)
Definition deliveredOnEvents (e : FanotifyEvent) (before after : Watcher)
  : Prop :=
  ch_sent (Events after) = ch_sent (Events before) ++ [e]
  /\ PermissionEvents after = PermissionEvents before.

Definition deliveredOnPermissionEvents (e : FanotifyEvent)
           (before after : Watcher) : Prop :=
  ch_sent (PermissionEvents after) = ch_sent (PermissionEvents before) ++ [e]
  /\ Events after = Events before.

(** Where the event [e] decoded from a record with metadata [md] has gone,
    the mask taken with ON_DIR cleared: a record in FID mode to Events, its
    Op with a Permission variant exactly when the mask has a PERM bit; a
    record with a descriptor and a PERM bit to PermissionEvents, with a
    Permission variant in its Op; a record with a descriptor and no PERM bit
    to Events, with no Permission variant in its Op. *)
Definition routed `{OpConsts} (md : FanotifyEventMetadata)
           (e : FanotifyEvent) (before after : Watcher) : Prop :=
  let mask := clearOnDir (Mask md) in
  if md_Fd md =? FAN_NOFD then
    deliveredOnEvents e before after
    /\ hasPermissionOp (Op (ev e)) = hasPermBit mask
  else if hasPermBit mask then
    deliveredOnPermissionEvents e before after
    /\ hasPermissionOp (Op (ev e)) = true
  else
    deliveredOnEvents e before after
    /\ hasPermissionOp (Op (ev e)) = false.

(** A receiver stands ready on the stream a record goes to, and the stream
    is open. *)
Definition streamTaken `{Peers} (md : FanotifyEventMetadata) (w : Watcher)
  : bool :=
  if negb (md_Fd md =? FAN_NOFD) && hasPermBit (clearOnDir (Mask md))
  then negb (ch_closed (PermissionEvents w))
       && takesPermissionEvent (ch_sent (PermissionEvents w))
  else negb (ch_closed (Events w)) && takesEvent (ch_sent (Events w)).

(** The offset is inside the buffer, so that [&buf[i]] does not panic. *)
Definition insideBuffer (buf : list Byte.byte) (i : Z) : bool :=
  (0 <=? i) && (i <? Z.of_nat (List.length buf)).

(** ** Concrete watchers, hosts and inputs

    The values at which the properties below are evaluated. *)

(** A watcher as [newFanotifyWatcher] builds it on a kernel (maj, min):
    notification descriptor 3, the stopper pipe on 4 and 5, fresh channels,
    no mount point bound yet. *)
Definition freshWatcher (maj min : Z) : Watcher :=
  mkWatcher 3 (negotiateInitFlags maj min) maj min makeChan
    (mkFile 4 false) (mkFile 5 false) makeChan makeChan makeChan
    false false None 0 0.

(** A public watcher with its mount point open on descriptor 6. *)
Definition freshFanotifyWatcher : FanotifyWatcher :=
  mkFanotifyWatcher makeChan makeChan 3
    (Z.lor FAN_CLASS_NOTIF FAN_CLOEXEC) (Some (mkFile 6 false)) 5 15
    false true (mkFile 4 false) (mkFile 5 false).

(** [strings.Fields] on ASCII text: the maximal runs of characters other
    than tab, line feed, vertical tab, form feed, carriage return and
    space. *)
Definition isSpace (c : ascii) : bool :=
  let n := Z.of_nat (nat_of_ascii c) in
  ((9 <=? n) && (n <=? 13)) || (n =? 32).

Fixpoint fieldRuns (s : string) (cur : string) : list string :=
  match s with
  | EmptyString => if (cur =? "")%string then [] else [cur]
  | String c rest =>
      if negb (isSpace c) then fieldRuns rest (cur ++ String c "")%string
      else if (cur =? "")%string then fieldRuns rest ""%string
      else cur :: fieldRuns rest ""%string
  end.

Definition asciiFields (s : string) : list string := fieldRuns s "".

(** A host on which / and /home are on device 1 and nothing else exists
    (errno 2, ENOENT). *)
Definition statRootOnly (path : string) : Z + Z :=
  if (path =? "/")%string || (path =? "/home")%string then inr 1 else inl 2.

(** A mount table whose first line has two fields only. *)
Definition fstabShortLine : fstabScan :=
  mkScan [ "a b"; "/dev/sda1 / ext4 defaults 0 1" ]%string false.

(** A host on which /a cannot be searched (errno 13, EACCES), /b does not
    exist (errno 2, ENOENT) and /p is on device 7. *)
Definition statTwoErrors (path : string) : Z + Z :=
  if (path =? "/a")%string then inl 13
  else if (path =? "/p")%string then inr 7
  else inl 2.

Definition fstabTwoErrors : fstabScan :=
  mkScan [ "/dev/sda1 /a ext4 defaults 0 1";
           "/dev/sdb1 /b ext4 defaults 0 2" ]%string false.

(** An ordinary mount table: a comment, an empty line, swap, two mounts. *)
Definition fstabOrdinary : fstabScan :=
  mkScan [ "# /etc/fstab";
           "";
           "/dev/sda2 none swap sw 0 0";
           "/dev/sdb1 /b ext4 defaults 0 2";
           "/dev/sda1 / ext4 defaults 0 1" ]%string false.

(** One bit per Op constant, in the order [toOp] sets them. *)
Definition iotaOps : OpConsts :=
  mkOpConsts 0x1 0x2 0x4 0x8 0x10 0x20 0x40 0x80 0x100 0x200 0x400 0x800.

(** A decoder host: descriptor 7 is /mnt/data/bar, every other descriptor
    is the directory /mnt/data; every handle opens as descriptor 9; joining
    puts a slash between a directory and a non-empty name; the memory
    behind the buffer is zeroed; [int] has 64 bits. *)
Definition dataHost : DecoderHost :=
  mkDecoderHost
    (fun fd => if fd =? 7 then inr "/mnt/data/bar"%string
               else inr "/mnt/data"%string)
    (fun _ _ => inr 9)
    (fun dir name => if (name =? "")%string then dir
                     else (dir ++ "/" ++ name)%string)
    (fun _ => Byte.x00)
    Int64.

(** The same host on a target whose [int] has 32 bits. *)
Definition dataHost32 : DecoderHost :=
  mkDecoderHost (@Readlink dataHost) (@OpenByHandleAt dataHost)
    (@pathJoin dataHost) (@memoryPast dataHost) Int32.

(** Consumers that take every value offered on the three streams. *)
Definition readyPeers : Peers :=
  mkPeers (fun _ => true) (fun _ => true) (fun _ => true) true.

(** No goroutine receives on any of the streams. *)
Definition noPeers : Peers :=
  mkPeers (fun _ => false) (fun _ => false) (fun _ => false) true.

(** Little-endian bytes of a value. *)
Definition byteOfZ (z : Z) : Byte.byte :=
  match Byte.of_N (Z.to_N (z mod 256)) with
  | Some b => b
  | None => Byte.x00
  end.

Fixpoint putLE (width : nat) (v : Z) : list Byte.byte :=
  match width with
  | O => []
  | S width' => byteOfZ v :: putLE width' (v / 256)
  end.

Definition metadataBytes (m : FanotifyEventMetadata) : list Byte.byte :=
  putLE 4 (Event_len m) ++ putLE 1 (Vers m) ++ putLE 1 (Reserved m)
  ++ putLE 2 (Metadata_len m) ++ putLE 8 (Mask m)
  ++ putLE 4 (wrap32 (md_Fd m)) ++ putLE 4 (wrap32 (md_Pid m)).

(** An info record with an eight-byte handle of type 1 and room for a name
    of up to three bytes: header (type, pad, len 32), fsid, handle, name,
    NUL padding. *)
Definition fidInfoBytes (infoType : Z) (name : list Byte.byte)
  : list Byte.byte :=
  putLE 1 infoType ++ putLE 1 0 ++ putLE 2 32
  ++ putLE 4 0x11 ++ putLE 4 0x22
  ++ putLE 4 8 ++ putLE 4 1 ++ putLE 8 0x0807060504030201
  ++ firstn 4 (name ++ repeat Byte.x00 4).

(** A record in FID mode, 56 bytes long. *)
Definition fidRecord (infoType mask : Z) (name : list Byte.byte)
  : list Byte.byte :=
  metadataBytes (mkMetadata 56 FANOTIFY_METADATA_VERSION 0 24 mask FAN_NOFD
                            100)
  ++ fidInfoBytes infoType name.

(** A classic record, 24 bytes long, for descriptor 7. *)
Definition classicRecord (mask : Z) : list Byte.byte :=
  metadataBytes (mkMetadata 24 FANOTIFY_METADATA_VERSION 0 24 mask 7 100).

(** A read of 112 bytes into a buffer of 128, as a group with
    REPORT_DIR_FID and REPORT_NAME gets it when two files are created one
    after the other: two named records (DFID_NAME), for "a" and for "b". *)
Definition bufTwoNamed : list Byte.byte :=
  fidRecord FAN_EVENT_INFO_TYPE_DFID_NAME FAN_CREATE [byteOfZ 97]
  ++ fidRecord FAN_EVENT_INFO_TYPE_DFID_NAME FAN_CREATE [byteOfZ 98]
  ++ repeat Byte.x00 16.

(** The same read with records of type FID, which have no name. *)
Definition bufTwoUnnamed : list Byte.byte :=
  fidRecord FAN_EVENT_INFO_TYPE_FID FAN_CREATE []
  ++ fidRecord FAN_EVENT_INFO_TYPE_FID FAN_CREATE []
  ++ repeat Byte.x00 16.

(** A read of 56 bytes: one record in FID mode whose mask has OPEN_PERM. *)
Definition bufFidWithPerm : list Byte.byte :=
  fidRecord FAN_EVENT_INFO_TYPE_FID FAN_OPEN_PERM [] ++ repeat Byte.x00 16.

(** A read of 48 bytes: a classic record with OPEN_PERM, then one with
    OPEN. *)
Definition bufClassicPermThenOpen : list Byte.byte :=
  classicRecord FAN_OPEN_PERM ++ classicRecord FAN_OPEN
  ++ repeat Byte.x00 16.

(** A read of 48 bytes: a classic record of 24 bytes, then a classic record
    whose [Event_len] is 0xFFFFFFE8, which is -24 once converted to an
    [int] of 32 bits. *)
Definition mdForward : FanotifyEventMetadata :=
  mkMetadata 24 FANOTIFY_METADATA_VERSION 0 24 FAN_OPEN 7 100.

Definition mdBackward : FanotifyEventMetadata :=
  mkMetadata 0xFFFFFFE8 FANOTIFY_METADATA_VERSION 0 24 FAN_OPEN 7 100.

Definition bufBackwards : list Byte.byte :=
  metadataBytes mdForward ++ metadataBytes mdBackward ++ repeat Byte.x00 16.

(** The watcher of the examples: kernel 5.15, mount point open on 6. *)
Definition boundWatcher : Watcher :=
  mkWatcher 3 (negotiateInitFlags 5 15) 5 15 makeChan
    (mkFile 4 false) (mkFile 5 false) makeChan makeChan makeChan
    false false (Some (mkFile 6 false)) 1 0.

(** ** Further parts of the backend *)

(** *** Mask check *)

(** The loop of [checkMask]: every valid type that is wholly in [flags] is
    taken out of it. *)
Fixpoint checkMaskLoop (validEventTypes : list Z) (flags : Z) : Z :=
  match validEventTypes with
  | [] => flags
  | v :: rest =>
      checkMaskLoop rest
        (if Z.land flags v =? v then Z.lxor flags v else flags)
  end.

(** [checkMask]: [None] is the [nil] error, [Some] is
    [errInvalidFlagCombination]. *)
Definition checkMask (mask : Z) (validEventTypes : list Z) : option error :=
  if negb (checkMaskLoop validEventTypes mask =? 0)
  then Some ErrInvalidFlagCombination
  else None.

(** The union of the valid types. *)
Definition unionOf (l : list Z) : Z := fold_right Z.lor 0 l.

(** [fanotifyEventType.Or]. *)
Definition fanotifyEventType_Or (e et : Z) : Z := Z.lor e et.

(** *** Construction *)

(** What the host answers to the calls of [newFanotifyWatcher]: [uname],
    the visiting order of the support table, [fanotify_init] (an errno or
    the descriptor), [os.Pipe] (an errno or the two ends) and the two
    [fcntl] calls on the read end. *)
Record ctorHost : Type := mkCtorHost {
  host_uname : Z + string;
  host_order : list (Z * kernelVersionT);
  host_init : Z + Z;
  host_pipe : Z + (File * File);
  host_getfl : Z + Z;
  host_setfl : Z + Z
}.

(** The errors of the constructor as the source builds them. *)
Inductive ctorError : Set :=
| CtorKernelVersion (e : error)        (* the error of kernelVersion *)
| CtorInvalidFlags (e : flagsError)    (* "%w: %v" on errInvalidFlagCombination *)
| CtorInit (e : Z)                     (* the errno of fanotify_init *)
| CtorPipe (e : Z)                     (* "cannot create stopper pipe: %v" *)
| CtorGetFl (e : Z)                    (* "stopper error: cannot read fd flags: %v" *)
| CtorSetFl (e : Z).                   (* "stopper error: cannot set fd to non-blocking: %v" *)

Definition initPanicMessage : string :=
  "some of the flags specified are not supported on the current kernel; refer to the documentation".

(** [newFanotifyWatcher]: the watcher, or the error. *)
Definition newFanotifyWatcher (h : ctorHost) : outcome (Watcher + ctorError) :=
  kv <- kernelVersion (host_uname h) ;;
  let '(maj, min, _, err) := kv in
  match err with
  | Some e => Returned (inr (CtorKernelVersion e))
  | None =>
      let flags := negotiateInitFlags maj min in
      match flagsValid flags with
      | Some e => Returned (inr (CtorInvalidFlags e))
      | None =>
          if negb (fanotifyInitFlagsKernelSupport (host_order h) flags maj min)
          then Panicked initPanicMessage
          else
            match host_init h with
            | inl e => Returned (inr (CtorInit e))
            | inr fd =>
                match host_pipe h with
                | inl e => Returned (inr (CtorPipe e))
                | inr (r, w) =>
                    match host_getfl h with
                    | inl e => Returned (inr (CtorGetFl e))
                    | inr _ =>
                        match host_setfl h with
                        | inl e => Returned (inr (CtorSetFl e))
                        | inr _ =>
                            Returned
                              (inl (mkWatcher fd flags maj min makeChan r w
                                      makeChan makeChan makeChan false false
                                      None 0 0))
                        end
                    end
                end
            end
      end
  end.

(** *** Adding and removing paths *)

(** The errors of the mark API: the package errors [ErrClosed] and
    [ErrMountPoint], or an error built on the way. *)
Inductive apiError : Set :=
| ErrClosed
| ErrMountPoint
| ApiErr (e : error).

(** What the host answers to the calls of [fanotifyAddPath]: the mount
    table (the errno of its [os.Open], or its scan) with the descriptor it
    opens on, and [strings.Fields] for the resolver, [unix.Stat], [os.Open]
    of the mount point (an errno or the file), the visiting order of the
    support table and the answer of [fanotify_mark]. *)
Class MarkHost : Type := mkMarkHost {
  mh_Fields : string -> list string;
  mh_Stat : string -> Z + Z;
  mh_fstab : Z + fstabScan;
  mh_fstabFd : Z;
  mh_Open : string -> Z + File;
  mh_order : list (Z * kernelVersionT);
  mh_markErr : option Z
}.

(** The watcher together with its field [findMountPoint], the [sync.Once]
    that guards the binding of the mount. *)
Record MountedWatcher : Type := mkMounted {
  mw_w : Watcher;
  findMountPoint : bool
}.

Definition setMount (w : Watcher) (f : File) (devID : Z) : Watcher :=
  mkWatcher (w_fd w) (w_flags w) (kernelMajorVersion w) (kernelMinorVersion w)
    (done w) (stopper_r w) (stopper_w w) (Events w) (PermissionEvents w)
    (Errors w) (closeOnce w) (isClosed w) (Some f) devID (markMask w).

Definition setMarkMask (w : Watcher) (m : Z) : Watcher :=
  mkWatcher (w_fd w) (w_flags w) (kernelMajorVersion w) (kernelMinorVersion w)
    (done w) (stopper_r w) (stopper_w w) (Events w) (PermissionEvents w)
    (Errors w) (closeOnce w) (isClosed w) (mountPointFile w)
    (mountDeviceID w) m.

(** [checkPathUnderMountPoint]. *)
Definition checkPathUnderMountPoint `{MarkHost} (w : Watcher) (path : string)
  : bool * option error :=
  match mh_Stat path with
  | inl e => (false, Some (ErrCannotStat path e))
  | inr dev => (dev =? mountDeviceID w, None)
  end.

(** The system calls of [getMountPointForPath]: the open of /etc/fstab
    and, when the table did open, the deferred close, which runs however
    the function is left. *)
Definition resolverCalls `{MarkHost} : list syscall :=
  match mh_fstab with
  | inl _ => [SysOpen "/etc/fstab"]
  | inr _ => [SysOpen "/etc/fstab"; SysClose mh_fstabFd]
  end.

(** The function handed to [findMountPoint.Do] in [fanotifyAddPath]: on any
    error it returns with the watcher as it was.  The result comes with the
    system calls issued. *)
Definition bindMountPoint `{MarkHost} (w : Watcher) (path : string)
  : outcome Watcher * list syscall :=
  match getMountPointForPath mh_Fields mh_Stat mh_fstab path with
  | Panicked msg => (Panicked msg, resolverCalls)
  | Blocked => (Blocked, resolverCalls)
  | Returned (mountPointPath, devID, err) =>
      match err with
      | Some _ => (Returned w, resolverCalls)
      | None =>
          let t := resolverCalls ++ [SysOpen mountPointPath] in
          match mh_Open mountPointPath with
          | inl _ => (Returned w, t)
          | inr f => (Returned (setMount w f devID), t)
          end
      end
  end.

(** [fanotifyAddPath].  [eventTypes] is the union of the event type
    constants the source names (fileAccessed, ..., declared outside the
    backend).  The result is the returned error with the watcher after the
    call, and the system calls issued. *)
Definition fanotifyAddPath `{MarkHost} (eventTypes : Z) (mw : MountedWatcher)
           (path : string)
  : outcome (option apiError * MountedWatcher) * list syscall :=
  let w := mw_w mw in
  if isClosed w then (Returned (Some ErrClosed, mw), [])
  else
    let '(bound, t0) := if findMountPoint mw then (Returned w, [])
                        else bindMountPoint w path in
    match bound with
    | Panicked msg => (Panicked msg, t0)
    | Blocked => (Blocked, t0)
    | Returned w =>
        let mw := mkMounted w true in
        match checkPathUnderMountPoint w path with
        | (_, Some err) => (Returned (Some (ApiErr err), mw), t0)
        | (inMount, None) =>
            if negb inMount then (Returned (Some ErrMountPoint, mw), t0)
            else
              match fanotifyMark mh_order mh_markErr w path FAN_MARK_ADD
                      (Z.lor eventTypes FAN_EVENT_ON_CHILD) with
              | (Panicked msg, t) => (Panicked msg, t0 ++ t)
              | (Blocked, t) => (Blocked, t0 ++ t)
              | (Returned None, t) => (Returned (None, mw), t0 ++ t)
              | (Returned (Some e), t) =>
                  (Returned (Some (ApiErr e), mw), t0 ++ t)
              end
        end
    end.

(** [fanotifyRemove]. *)
Definition fanotifyRemove `{MarkHost} (eventTypes : Z) (w : Watcher)
           (path : string) : outcome (option error) * list syscall :=
  fanotifyMark mh_order mh_markErr w path FAN_MARK_REMOVE
    (Z.lor eventTypes FAN_EVENT_ON_CHILD).

(** [clearWatch].  [flushErr] is the answer of [fanotify_mark]. *)
Definition clearWatch (flushErr : option Z) (w : Watcher)
  : option error * Watcher * list syscall :=
  let t := [SysFanotifyMark (w_fd w) FAN_MARK_FLUSH 0 (-1) ""] in
  match flushErr with
  | Some e => (Some (Errno e), w, t)
  | None => (None, setMarkMask w 0, t)
  end.

(** *** Permission responses of the public watcher *)

Definition FAN_ALLOW : Z := 0x1.
Definition FAN_DENY : Z := 0x2.

(** [binary.Write(buf, binary.LittleEndian, &response)] for a
    [unix.FanotifyResponse] with [Fd = int32(fd)]: four bytes of the
    descriptor, four of the response. *)
Definition responseBytes (fd response : Z) : list Byte.byte :=
  putLE 4 (wrap32 fd) ++ putLE 4 response.

(** [Allow] and [Deny]: one write on the notification descriptor. *)
Definition Allow (w : FanotifyWatcher) (e : FanotifyEvent) : list syscall :=
  [SysWrite (fw_fd w) (string_of_list_byte (responseBytes (Fd e) FAN_ALLOW))].

Definition Deny (w : FanotifyWatcher) (e : FanotifyEvent) : list syscall :=
  [SysWrite (fw_fd w) (string_of_list_byte (responseBytes (Fd e) FAN_DENY))].

(** *** Records of the mount table *)

(** The record a line must be for the scan of the resolver to return from
    it with mount point [mp]: not skipped, with [mp] as its second field, a
    third field other than swap, and the stat of [mp] giving [dev]. *)
Definition matchingRecord (Fields : string -> list string)
           (Stat : string -> Z + Z) (dev : Z) (text mp : string) : Prop :=
  skippedLine text = false
  /\ nth_error (Fields (TrimLeft text)) 1 = Some mp
  /\ (exists fsType, nth_error (Fields (TrimLeft text)) 2 = Some fsType
                     /\ fsType <> "swap"%string)
  /\ Stat mp = inr dev.

(** *** What a run of the decoder may change *)

(** The watcher [after] is [before] with values sent on its three streams:
    every other field is the same, no channel has been closed, and what was
    sent before is still there, in front. *)
Definition onlySent (before after : Watcher) : Prop :=
  exists es ps errs,
    after =
    mkWatcher (w_fd before) (w_flags before) (kernelMajorVersion before)
      (kernelMinorVersion before) (done before) (stopper_r before)
      (stopper_w before)
      (mkChan (ch_sent (Events before) ++ es) (ch_closed (Events before)))
      (mkChan (ch_sent (PermissionEvents before) ++ ps)
              (ch_closed (PermissionEvents before)))
      (mkChan (ch_sent (Errors before) ++ errs) (ch_closed (Errors before)))
      (closeOnce before) (isClosed before) (mountPointFile before)
      (mountDeviceID before) (markMask before).

(** The number of values sent on the three streams. *)
Definition sentCount (w : Watcher) : Z :=
  Z.of_nat (List.length (ch_sent (Events w)))
  + Z.of_nat (List.length (ch_sent (PermissionEvents w)))
  + Z.of_nat (List.length (ch_sent (Errors w))).

(** The watcher at the end of a run of the loop, when there is one. *)
Definition loopWatcher (r : loopResult) : option Watcher :=
  match r with
  | LoopDone s => Some (ds_w s)
  | LoopReturn _ w => Some w
  | OutOfFuel => None
  end.

(** *** Values for the further properties *)

(** The watcher after the loop has run over [bufTwoUnnamed]. *)
Definition afterTwoUnnamed : Watcher :=
  Eval vm_compute in
    match @decodeLoop iotaOps dataHost readyPeers 3 bufTwoUnnamed
            (mkDecState 0 112 "" boundWatcher) with
    | Returned (LoopDone s) => ds_w s
    | _ => boundWatcher
    end.

(** The watcher of the examples after its shutdown. *)
Definition closedWatcher : Watcher :=
  Eval vm_compute in
    match @closeFanotify readyPeers None boundWatcher with
    | Returned (w, _) => w
    | _ => boundWatcher
    end.

(** A host for the mark API: the ordinary mount table, which opens on
    descriptor 8, / and /home on device 1, every mount point opening on
    descriptor 6, the support table visited as written, fanotify_mark
    succeeding. *)
Definition homeHost : MarkHost :=
  mkMarkHost asciiFields statRootOnly (inr fstabOrdinary) 8
    (fun _ => inr (mkFile 6 false)) fanotifyMarkFlags None.

(** The same with /p on device 7. *)
Definition otherDeviceHost : MarkHost :=
  mkMarkHost asciiFields statTwoErrors (inr fstabOrdinary) 8
    (fun _ => inr (mkFile 6 false)) fanotifyMarkFlags None.

(** * Properties *)

(** ** Flag negotiator *)

Ltac cases_Z :=
  repeat match goal with
         | |- context [?a <? ?b] => destruct (Z.ltb_spec a b)
         | |- context [?a <=? ?b] => destruct (Z.leb_spec a b)
         | |- context [?a =? ?b] => destruct (Z.eqb_spec a b)
         end.

(** C4. The init flags picked for a kernel version (maj, min) are
    NOTIF|CLOEXEC below 5.1, NOTIF|CLOEXEC|REPORT_FID from 5.1 to 5.8, and
    NOTIF|CLOEXEC|REPORT_DIR_FID|REPORT_NAME from 5.9 on, every major above 5
    included. *)
Theorem negotiateInitFlags_by_version : forall maj min : Z,
  negotiateInitFlags maj min =
  if version_ltb (maj, min) (5, 1) then
    Z.lor FAN_CLASS_NOTIF FAN_CLOEXEC
  else if version_leb (maj, min) (5, 8) then
    Z.lor (Z.lor FAN_CLASS_NOTIF FAN_CLOEXEC) FAN_REPORT_FID
  else
    Z.lor (Z.lor (Z.lor FAN_CLASS_NOTIF FAN_CLOEXEC) FAN_REPORT_DIR_FID)
          FAN_REPORT_NAME.
Proof.
  intros maj min.
  unfold negotiateInitFlags, version_leb, version_ltb; cbn [fst snd].
  cases_Z; cbn; try reflexivity; lia.
Qed.

(** Two rows of the table on their own. *)
Lemma negotiateInitFlags_major4 : forall min,
  negotiateInitFlags 4 min = Z.lor FAN_CLASS_NOTIF FAN_CLOEXEC.
Proof. intros; reflexivity. Qed.

Lemma negotiateInitFlags_major_above_5 : forall maj min,
  5 < maj ->
  negotiateInitFlags maj min =
  Z.lor (Z.lor (Z.lor FAN_CLASS_NOTIF FAN_CLOEXEC) FAN_REPORT_DIR_FID)
        FAN_REPORT_NAME.
Proof.
  intros maj min Hm. unfold negotiateInitFlags.
  cases_Z; cbn; try reflexivity; lia.
Qed.

(** *** Kernel support checks *)

(** The verdict of [check] on a flag that is set is whether its minimum
    version is met. *)
Lemma check_set : forall maj min n k w x,
  Z.land n k = k ->
  check maj min n k w x = Some (versionSatisfied maj min (mkVer w x)).
Proof.
  intros maj min n k w x Hk. unfold check, versionSatisfied, version_leb,
    version_ltb; cbn [fst snd ver_maj ver_min].
  rewrite Hk, Z.eqb_refl.
  cases_Z; cbn; try reflexivity; lia.
Qed.

Lemma check_unset : forall maj min n k w x,
  Z.land n k <> k -> check maj min n k w x = None.
Proof.
  intros maj min n k w x Hk. unfold check.
  destruct (Z.eqb_spec (Z.land n k) k); [contradiction | reflexivity].
Qed.

(** The loop answers for the first visited flag that is set, and for that
    one only. *)
Lemma kernelSupportLoop_first : forall order flags maj min,
  kernelSupportLoop order flags maj min =
  match find (fun e => isSet flags (fst e)) order with
  | Some e => versionSatisfied maj min (snd e)
  | None => true
  end.
Proof.
  induction order as [| [flag ver] rest IH]; intros flags maj min; cbn.
  - reflexivity.
  - unfold isSet at 1. cbn [fst].
    destruct (Z.eqb_spec (Z.land flags flag) flag) as [Hs | Hs].
    + rewrite (check_set _ _ _ _ _ _ Hs). destruct ver; reflexivity.
    + rewrite (check_unset _ _ _ _ _ _ Hs). apply IH.
Qed.

(** One half of the equivalence holds for every visiting order: a flag set
    whose present flags are all supported is accepted. *)
Lemma kernelSupportLoop_accepts_supported : forall table order flags maj min,
  Permutation order table ->
  allPresentFlagsSupported table flags maj min = true ->
  kernelSupportLoop order flags maj min = true.
Proof.
  intros table order flags maj min Hp Hall.
  rewrite kernelSupportLoop_first.
  destruct (find _ order) as [e |] eqn:Hf; [| reflexivity].
  apply find_some in Hf. destruct Hf as [Hin Hset].
  unfold allPresentFlagsSupported in Hall.
  rewrite forallb_forall in Hall.
  specialize (Hall e (Permutation_in _ Hp Hin)).
  rewrite Hset in Hall. exact Hall.
Qed.

(** A set with none of the listed flags is accepted on any kernel. *)
Lemma kernelSupportLoop_no_listed_flag : forall order flags maj min,
  (forall e, In e order -> isSet flags (fst e) = false) ->
  kernelSupportLoop order flags maj min = true.
Proof.
  intros order flags maj min Hnone. rewrite kernelSupportLoop_first.
  destruct (find _ order) as [e |] eqn:Hf; [| reflexivity].
  apply find_some in Hf. destruct Hf as [Hin Hset].
  rewrite (Hnone e Hin) in Hset. discriminate.
Qed.

(** C5. The mark-flag check on kernel 5.0 with OPEN_EXEC (from 5.0) and
    ATTRIB (from 5.1) both set, visiting the table in the order it is
    written: the check accepts, although ATTRIB is not supported. *)
Theorem fanotifyMarkFlagsKernelSupport_accepts_unsupported :
  fanotifyMarkFlagsKernelSupport fanotifyMarkFlags
    (Z.lor FAN_OPEN_EXEC FAN_ATTRIB) 5 0 = true
  /\ isSet (Z.lor FAN_OPEN_EXEC FAN_ATTRIB) FAN_ATTRIB = true
  /\ versionSatisfied 5 0 (mkVer 5 1) = false
  /\ allPresentFlagsSupported fanotifyMarkFlags
       (Z.lor FAN_OPEN_EXEC FAN_ATTRIB) 5 0 = false.
Proof. repeat split; vm_compute; reflexivity. Qed.

(** The same input is turned down when the map happens to be visited with
    ATTRIB ahead of OPEN_EXEC: the verdict depends on the visiting order. *)
Lemma fanotifyMarkFlagsKernelSupport_order_dependent :
  Permutation
    ((FAN_ATTRIB, mkVer 5 1) :: (FAN_OPEN_EXEC, mkVer 5 0)
       :: skipn 2 fanotifyMarkFlags) fanotifyMarkFlags
  /\ fanotifyMarkFlagsKernelSupport
       ((FAN_ATTRIB, mkVer 5 1) :: (FAN_OPEN_EXEC, mkVer 5 0)
          :: skipn 2 fanotifyMarkFlags)
       (Z.lor FAN_OPEN_EXEC FAN_ATTRIB) 5 0 = false.
Proof.
  split; [| vm_compute; reflexivity].
  cbn [skipn fanotifyMarkFlags]. apply perm_swap.
Qed.

(** The init-flag check has the same early return: ENABLE_AUDIT (from 4.15)
    and REPORT_FID (from 5.1) on kernel 4.20. *)
Lemma fanotifyInitFlagsKernelSupport_accepts_unsupported :
  fanotifyInitFlagsKernelSupport flagPerKernelVersion
    (Z.lor FAN_ENABLE_AUDIT FAN_REPORT_FID) 4 20 = true
  /\ allPresentFlagsSupported flagPerKernelVersion
       (Z.lor FAN_ENABLE_AUDIT FAN_REPORT_FID) 4 20 = false.
Proof. split; vm_compute; reflexivity. Qed.

(** ** Mark API *)

(** Whatever the verdicts, a mount-scope mark with one of the five event
    types never reaches the system call. *)
Lemma isFanotifyMarkMaskValid_mount : forall flags mask,
  isSet flags FAN_MARK_MOUNT = true ->
  isSet mask FAN_CREATE || isSet mask FAN_ATTRIB || isSet mask FAN_MOVE
  || isSet mask FAN_DELETE_SELF || isSet mask FAN_DELETE = true ->
  isFanotifyMarkMaskValid flags mask = false.
Proof.
  intros flags mask Hm Hany. unfold isFanotifyMarkMaskValid.
  rewrite Hm, Hany. reflexivity.
Qed.

(** C8, as the code has it. For a mark request whose flags include
    MARK_MOUNT and whose mask contains CREATE, ATTRIB, MOVE, DELETE_SELF or
    DELETE, no system call is issued; the request fails with the invalid
    flag combination error when the kernel-support check that runs first
    lets the mask through, and panics when it does not. *)
Theorem fanotifyMark_mount_mask_rejected :
  forall order markErr w path flags mask,
  isSet flags FAN_MARK_MOUNT = true ->
  isSet mask FAN_CREATE || isSet mask FAN_ATTRIB || isSet mask FAN_MOVE
  || isSet mask FAN_DELETE_SELF || isSet mask FAN_DELETE = true ->
  fanotifyMark order markErr w path flags mask =
  (if fanotifyMarkFlagsKernelSupport order mask
        (kernelMajorVersion w) (kernelMinorVersion w)
   then Returned (Some ErrInvalidFlagCombination)
   else Panicked markPanicMessage,
   []).
Proof.
  intros order markErr w path flags mask Hm Hany. unfold fanotifyMark.
  destruct (fanotifyMarkFlagsKernelSupport _ _ _ _); cbn [negb].
  - rewrite (isFanotifyMarkMaskValid_mount _ _ Hm Hany). reflexivity.
  - reflexivity.
Qed.

Lemma fanotifyMark_mount_mask_rejected_witness :
  fanotifyMark fanotifyMarkFlags None (freshWatcher 5 15) "/mnt"
    (Z.lor FAN_MARK_ADD FAN_MARK_MOUNT) FAN_CREATE
  = (Returned (Some ErrInvalidFlagCombination), []).
Proof.
  exact (fanotifyMark_mount_mask_rejected fanotifyMarkFlags None
           (freshWatcher 5 15) "/mnt" (Z.lor FAN_MARK_ADD FAN_MARK_MOUNT)
           FAN_CREATE eq_refl eq_refl).
Defined.

(** C8, as stated, fails on a 4.19 kernel: the same request panics in the
    kernel-support check and never gets to the mask validation. *)
Lemma fanotifyMark_mount_mask_panics_on_4_19 :
  isSet (Z.lor FAN_MARK_ADD FAN_MARK_MOUNT) FAN_MARK_MOUNT = true
  /\ isSet FAN_CREATE FAN_CREATE = true
  /\ fanotifyMark fanotifyMarkFlags None (freshWatcher 4 19) "/mnt"
       (Z.lor FAN_MARK_ADD FAN_MARK_MOUNT) FAN_CREATE
     = (Panicked markPanicMessage, []).
Proof. repeat split. Qed.

(** The visiting order plays no part in it: CREATE is the one flag of the
    table that the mask has, so its verdict is the answer. *)
Lemma fanotifyMarkFlagsKernelSupport_create_4_19 : forall order,
  Permutation order fanotifyMarkFlags ->
  fanotifyMarkFlagsKernelSupport order FAN_CREATE 4 19 = false.
Proof.
  intros order Hp. unfold fanotifyMarkFlagsKernelSupport.
  rewrite kernelSupportLoop_first.
  destruct (find (fun e => isSet FAN_CREATE (fst e)) order) as [e |] eqn:Hf.
  - apply find_some in Hf. destruct Hf as [Hin Hset].
    apply (Permutation_in _ Hp) in Hin. cbn in Hin.
    repeat (destruct Hin as [<- | Hin];
            [first [discriminate Hset | reflexivity] |]).
    contradiction.
  - apply (find_none _ _ Hf (FAN_CREATE, mkVer 5 1)) .
    apply (Permutation_in _ (Permutation_sym Hp)). cbn. tauto.
Qed.

(** From 5.1 on every flag of the mark table is supported, so the check
    passes in whatever order the table is visited. *)
Lemma fanotifyMarkFlagsKernelSupport_from_5_1 : forall order mask maj min,
  Permutation order fanotifyMarkFlags ->
  version_leb (5, 1) (maj, min) = true ->
  fanotifyMarkFlagsKernelSupport order mask maj min = true.
Proof.
  intros order mask maj min Hp Hv.
  unfold fanotifyMarkFlagsKernelSupport.
  apply (kernelSupportLoop_accepts_supported fanotifyMarkFlags); [exact Hp |].
  unfold allPresentFlagsSupported. rewrite forallb_forall.
  intros e Hin.
  assert (Hs : versionSatisfied maj min (snd e) = true).
  { unfold version_leb, version_ltb in Hv; cbn [fst snd] in Hv.
    cbn in Hin.
    repeat (destruct Hin as [<- | Hin]; [
      unfold versionSatisfied, version_leb, version_ltb;
      cbn [snd fst ver_maj ver_min];
      revert Hv; cases_Z; cbn; intros; try reflexivity; try discriminate; lia
    |]).
    contradiction. }
  rewrite Hs. destruct (isSet mask (fst e)); reflexivity.
Qed.

(** ** Shutdown *)

(** [closeFanotify] leaves the once-flag set. *)
Lemma closeFanotify_sets_closeOnce {P : Peers} : forall closeErr w w' t,
  closeFanotify closeErr w = Returned (w', t) -> closeOnce w' = true.
Proof.
  intros closeErr w w' t. unfold closeFanotify.
  destruct (closeOnce w) eqn:Hc.
  - intros H; inversion H; subst; exact Hc.
  - unfold closeFanotifyBody.
    destruct (closeChan (done w)); cbn [bindO]; [| discriminate | discriminate].
    destruct (match closeErr with
              | Some e => sendChan _ (Errors w) (Errno e)
              | None => Returned (Errors w)
              end); cbn [bindO]; [| discriminate | discriminate].
    destruct (fileCloseNilable (mountPointFile w)).
    destruct (fileClose (stopper_r w)).
    destruct (fileClose (stopper_w w)).
    destruct (closeChan (Events w)); cbn [bindO]; [| discriminate | discriminate].
    destruct (closeChan (PermissionEvents w)); cbn [bindO]; [| discriminate | discriminate].
    destruct (closeChan _); cbn [bindO]; [| discriminate | discriminate].
    intros H; inversion H; reflexivity.
Qed.

(** The internal shutdown is idempotent: once it has run, a further call
    returns the watcher as it is and issues no system call, whatever
    [unix.Close] would answer. *)
Lemma closeFanotify_idempotent {P : Peers} : forall closeErr closeErr' w w' t,
  closeFanotify closeErr w = Returned (w', t) ->
  closeFanotify closeErr' w' = Returned (w', []).
Proof.
  intros closeErr closeErr' w w' t H.
  apply closeFanotify_sets_closeOnce in H.
  unfold closeFanotify. rewrite H. reflexivity.
Qed.

(** After a [Close] of the public watcher that returned, its Events channel
    is closed. *)
Lemma FanotifyWatcher_Close_closes_Events : forall w w' t,
  FanotifyWatcher_Close (Some w) = Returned (w', t) ->
  exists v, w' = Some v /\ ch_closed (fw_Events v) = true.
Proof.
  intros w w' t. unfold FanotifyWatcher_Close.
  destruct (fileCloseNilable (fw_mountpoint w)).
  destruct (fileClose (fw_stopper_r w)).
  destruct (fileClose (fw_stopper_w w)).
  unfold closeChan at 1.
  destruct (ch_closed (fw_Events w)); cbn [bindO]; [discriminate |].
  destruct (closeChan (fw_PermissionEvents w)); cbn [bindO]; [| discriminate | discriminate].
  intros H; inversion H; subst. eexists; split; reflexivity.
Qed.

(** C2. [Close] of the public watcher is not idempotent: after a call that
    returned, the next call panics on [close(w.Events)]. *)
Theorem FanotifyWatcher_Close_twice_panics : forall w w' t,
  FanotifyWatcher_Close (Some w) = Returned (w', t) ->
  FanotifyWatcher_Close w' = Panicked "close of closed channel".
Proof.
  intros w w' t H.
  apply FanotifyWatcher_Close_closes_Events in H.
  destruct H as [v [-> Hc]]. unfold FanotifyWatcher_Close.
  destruct (fileCloseNilable (fw_mountpoint v)).
  destruct (fileClose (fw_stopper_r v)).
  destruct (fileClose (fw_stopper_w v)).
  unfold closeChan at 1. rewrite Hc. reflexivity.
Qed.

Lemma FanotifyWatcher_Close_twice_panics_witness :
  (exists w' t, FanotifyWatcher_Close (Some freshFanotifyWatcher)
                = Returned (w', t))
  /\ (r <- FanotifyWatcher_Close (Some freshFanotifyWatcher) ;;
      FanotifyWatcher_Close (fst r))
     = Panicked "close of closed channel".
Proof.
  split.
  - eexists; eexists; reflexivity.
  - exact (FanotifyWatcher_Close_twice_panics freshFanotifyWatcher _ _
             eq_refl).
Defined.

(** ** Kernel probe *)

Lemma index_0 : forall (A : Type) (a : A) l, index (a :: l) 0 = Returned a.
Proof. reflexivity. Qed.

Lemma index_1 : forall (A : Type) (a b : A) l,
  index (a :: b :: l) 1 = Returned b.
Proof. reflexivity. Qed.

Lemma index_2 : forall (A : Type) (a b c : A) l,
  index (a :: b :: c :: l) 2 = Returned c.
Proof. reflexivity. Qed.

Lemma Atoi_fits : forall s,
  decimalValue s 0 <= maxInt -> Atoi s = (decimalValue s 0, None).
Proof.
  intros s Hs. unfold Atoi.
  destruct (Z.leb_spec (decimalValue s 0) maxInt); [reflexivity | lia].
Qed.

(** On a release string with three groups of digits that fit an [int], the
    probe returns them as numbers. *)
Lemma kernelVersion_three_groups : forall release a b c rest,
  FindAllString release = a :: b :: c :: rest ->
  decimalValue a 0 <= maxInt ->
  decimalValue b 0 <= maxInt ->
  decimalValue c 0 <= maxInt ->
  kernelVersion (inr release) =
  Returned (decimalValue a 0, decimalValue b 0, decimalValue c 0, None).
Proof.
  intros release a b c rest Hruns Ha Hb Hc.
  unfold kernelVersion. rewrite Hruns.
  rewrite index_0, index_1, index_2. cbn [bindO].
  rewrite (Atoi_fits a Ha), (Atoi_fits b Hb), (Atoi_fits c Hc).
  reflexivity.
Qed.

Example kernelVersion_5_15_0 :
  kernelVersion (inr "5.15.0-92-generic"%string) = Returned (5, 15, 0, None).
Proof. vm_compute. reflexivity. Qed.

(** With fewer than three groups, all of which fit an [int], the probe does
    not return at all: it panics on the index of the missing group. *)
Lemma kernelVersion_fewer_groups_panics : forall release,
  (List.length (FindAllString release) < 3)%nat ->
  Forall (fun s => decimalValue s 0 <= maxInt) (FindAllString release) ->
  kernelVersion (inr release) = Panicked "index out of range".
Proof.
  intros release Hlen Hfit. unfold kernelVersion.
  destruct (FindAllString release) as [| a [| b [| c rest]]];
    cbn in Hlen; try lia.
  - reflexivity.
  - inversion Hfit; subst.
    rewrite index_0. cbn [bindO]. rewrite Atoi_fits by assumption.
    reflexivity.
  - inversion Hfit as [| ? ? Ha Hrest]; subst.
    inversion Hrest as [| ? ? Hb _]; subst.
    rewrite index_0, index_1. cbn [bindO].
    rewrite (Atoi_fits a Ha), (Atoi_fits b Hb). reflexivity.
Qed.

(** C9. On the release string "5.15", which has two groups of digits, the
    probe panics instead of returning an error. *)
Theorem kernelVersion_two_groups_panics :
  FindAllString "5.15" = ["5"; "15"]%string
  /\ kernelVersion (inr "5.15"%string) = Panicked "index out of range".
Proof. split; vm_compute; reflexivity. Qed.

Example kernelVersion_no_group_panics :
  kernelVersion (inr "generic"%string) = Panicked "index out of range".
Proof. vm_compute. reflexivity. Qed.

(** ** Mount resolver *)

Section MountResolverProperties.

Variable Fields : string -> list string.
Variable Stat : string -> Z + Z.

(** What one round of the scan does with a line it can take apart. *)
Lemma scanLine_wellFormed : forall text dev fsErr,
  wellFormedLine Fields text = true ->
  scanLine Fields Stat text dev fsErr =
  Returned
    (if skippedLine text || isSwap Fields text then inr fsErr
     else match Stat (mountPointOf Fields text) with
          | inl e => inr (Some e)
          | inr d => if dev =? d then inl (mountPointOf Fields text)
                     else inr fsErr
          end).
Proof.
  intros text dev fsErr Hwf.
  unfold scanLine, wellFormedLine, skippedLine, isSwap, mountPointOf in *.
  destruct (HasPrefixHash (TrimLeft text)); [reflexivity |].
  destruct ((TrimLeft text =? "")%string); [reflexivity |].
  cbn [orb] in *.
  destruct (Fields (TrimLeft text)) as [| a [| b [| c rest]]];
    cbn [List.length Z.of_nat] in Hwf; try (cbn in Hwf; discriminate).
  rewrite index_2, index_1. cbn [bindO nth_error nth].
  destruct ((c =? "swap")%string); [reflexivity |].
  destruct (Stat b) as [e | d]; [reflexivity |].
  destruct (dev =? d); reflexivity.
Qed.

(** The scan as a whole: the first match if there is one, and otherwise the
    last stat error met (or the [fsErr] it started with). *)
Lemma scanLoop_wellFormed : forall lines dev fsErr,
  Forall (fun t => wellFormedLine Fields t = true) lines ->
  scanLoop Fields Stat lines dev fsErr =
  Returned
    match firstMatch Fields Stat lines dev with
    | Some r => inl (mountPointOf Fields r)
    | None =>
        inr (fold_left (fun _ e => Some e) (statErrors Fields Stat lines)
                       fsErr)
    end.
Proof.
  induction lines as [| text rest IH]; intros dev fsErr Hwf.
  - reflexivity.
  - inversion Hwf as [| ? ? Ht Hrest]; subst.
    cbn [scanLoop]. rewrite (scanLine_wellFormed _ _ _ Ht).
    cbn [bindO].
    unfold firstMatch, statErrors, remainingRecords in *.
    cbn [filter].
    destruct (skippedLine text || isSwap Fields text) eqn:Hskip.
    + assert (Hk : negb (skippedLine text) && negb (isSwap Fields text)
                   = false).
      { destruct (skippedLine text), (isSwap Fields text);
          cbn in *; congruence. }
      rewrite Hk. apply IH; assumption.
    + assert (Hk : negb (skippedLine text) && negb (isSwap Fields text)
                   = true).
      { destruct (skippedLine text), (isSwap Fields text);
          cbn in *; congruence. }
      rewrite Hk. cbn [find flat_map]. unfold devMatches at 1.
      destruct (Stat (mountPointOf Fields text)) as [e | d].
      * rewrite IH by assumption. cbn [app fold_left]. reflexivity.
      * destruct (dev =? d); [reflexivity |].
        rewrite IH by assumption. reflexivity.
Qed.

(** On a table the resolver can take apart: when stat(P) succeeds and every
    line that is not skipped has at least three fields, the resolver
    returns the mount point of the first remaining record (not skipped, not
    swap) whose mount point has the device id of P, together with that
    device id. *)
Lemma getMountPointForPath_first_match : forall sc path dev r,
  Stat path = inr dev ->
  Forall (fun t => wellFormedLine Fields t = true) (scan_lines sc) ->
  firstMatch Fields Stat (scan_lines sc) dev = Some r ->
  getMountPointForPath Fields Stat (inr sc) path =
  Returned (mountPointOf Fields r, dev, None).
Proof.
  intros sc path dev r Hstat Hwf Hfirst. unfold getMountPointForPath.
  rewrite Hstat, (scanLoop_wellFormed _ _ _ Hwf), Hfirst. reflexivity.
Qed.

(** C7, as the code has it. When no record matches, the resolver fails:
    with the read error if the scanner reported one, otherwise with the
    last stat error met during the scan, wrapped, and with the plain
    "cannot stat paths in fstab" when no stat failed. *)
Theorem getMountPointForPath_no_match : forall sc path dev,
  Stat path = inr dev ->
  Forall (fun t => wellFormedLine Fields t = true) (scan_lines sc) ->
  firstMatch Fields Stat (scan_lines sc) dev = None ->
  getMountPointForPath Fields Stat (inr sc) path =
  Returned (""%string, 0,
            Some (if scan_err sc then ErrReadingFstab
                  else match lastError
                               (statErrors Fields Stat (scan_lines sc)) with
                       | Some e => ErrCannotStatPathsWrap e
                       | None => ErrCannotStatPaths
                       end)).
Proof.
  intros sc path dev Hstat Hwf Hnone. unfold getMountPointForPath.
  rewrite Hstat, (scanLoop_wellFormed _ _ _ Hwf), Hnone. cbn [bindO].
  unfold lastError.
  destruct (scan_err sc); [reflexivity |].
  destruct (fold_left _ _ None); reflexivity.
Qed.

End MountResolverProperties.

Example getMountPointForPath_first_match_ordinary :
  getMountPointForPath asciiFields statRootOnly (inr fstabOrdinary) "/home"
  = Returned ("/"%string, 1, None).
Proof.
  apply (getMountPointForPath_first_match asciiFields statRootOnly
           fstabOrdinary "/home" 1 "/dev/sda1 / ext4 defaults 0 1").
  - reflexivity.
  - repeat constructor.
  - reflexivity.
Qed.

(** C6. A mount table whose first line has two fields only, followed by
    the record for /, with /home on the device of /: the record for / is
    the first remaining record on that device, and the resolver does not
    return it; the scan panics on [fields[2]] of the short line. *)
Theorem getMountPointForPath_short_line_panics :
  firstMatch asciiFields statRootOnly (scan_lines fstabShortLine) 1
  = Some "/dev/sda1 / ext4 defaults 0 1"%string
  /\ getMountPointForPath asciiFields statRootOnly (inr fstabShortLine)
       "/home"
     = Panicked "index out of range".
Proof. split; vm_compute; reflexivity. Qed.

Lemma getMountPointForPath_no_match_witness :
  getMountPointForPath asciiFields statTwoErrors (inr fstabTwoErrors) "/p"
  = Returned (""%string, 0, Some (ErrCannotStatPathsWrap 2)).
Proof.
  apply (getMountPointForPath_no_match asciiFields statTwoErrors
           fstabTwoErrors "/p" 7).
  - reflexivity.
  - repeat constructor.
  - reflexivity.
Defined.

(** C7, as stated, fails when two stats fail with different errors: the
    first stat error of the scan is EACCES (13) on /a, and the error
    returned wraps ENOENT (2), the one met last, on /b. *)
Lemma getMountPointForPath_wraps_last_stat_error :
  hd_error (statErrors asciiFields statTwoErrors (scan_lines fstabTwoErrors))
  = Some 13
  /\ getMountPointForPath asciiFields statTwoErrors (inr fstabTwoErrors) "/p"
     = Returned (""%string, 0, Some (ErrCannotStatPathsWrap 2)).
Proof. split; vm_compute; reflexivity. Qed.

(** A stat error on one record does not end the scan: the record for /
    is found after the failing stat of /b. *)
Example getMountPointForPath_scans_past_stat_error :
  statErrors asciiFields statRootOnly (scan_lines fstabOrdinary) = [2]
  /\ getMountPointForPath asciiFields statRootOnly (inr fstabOrdinary)
       "/home"
     = Returned ("/"%string, 1, None).
Proof. split; vm_compute; reflexivity. Qed.

(** ** Event-stream decoder *)

(** *** Arithmetic in int *)

Ltac int_cases sz :=
  destruct sz; cbn [intBits] in *;
  change (2 ^ (32 - 1)) with 2147483648 in *;
  change (2 ^ 32) with 4294967296 in *;
  change (2 ^ (64 - 1)) with 9223372036854775808 in *;
  change (2 ^ 64) with 18446744073709551616 in *.

(** [wrapInt] only adds a multiple of the modulus. *)
Lemma wrapInt_eqm : forall sz z,
  exists k, wrapInt sz z = z + k * 2 ^ intBits sz.
Proof.
  intros sz z. unfold wrapInt. cbv zeta. int_cases sz.
  - pose proof (Z.div_mod z 4294967296 ltac:(lia)) as Hdm.
    destruct (z mod 4294967296 <? 2147483648).
    + exists (- (z / 4294967296)). lia.
    + exists (- (z / 4294967296) - 1). lia.
  - pose proof (Z.div_mod z 18446744073709551616 ltac:(lia)) as Hdm.
    destruct (z mod 18446744073709551616 <? 9223372036854775808).
    + exists (- (z / 18446744073709551616)). lia.
    + exists (- (z / 18446744073709551616) - 1). lia.
Qed.

Lemma wrapInt_shift : forall sz z k,
  wrapInt sz (z + k * 2 ^ intBits sz) = wrapInt sz z.
Proof.
  intros sz z k. unfold wrapInt. cbv zeta.
  rewrite Z_mod_plus_full. reflexivity.
Qed.

Lemma wrapInt_range : forall sz z,
  - 2 ^ (intBits sz - 1) <= wrapInt sz z < 2 ^ (intBits sz - 1).
Proof.
  intros sz z. unfold wrapInt. cbv zeta. int_cases sz.
  - pose proof (Z.mod_pos_bound z 4294967296 ltac:(lia)) as Hb.
    destruct (Z.ltb_spec (z mod 4294967296) 2147483648); lia.
  - pose proof (Z.mod_pos_bound z 18446744073709551616 ltac:(lia)) as Hb.
    destruct (Z.ltb_spec (z mod 18446744073709551616) 9223372036854775808);
      lia.
Qed.

(** A value that fits an [int] is left as it is. *)
Lemma wrapInt_small : forall sz z,
  - 2 ^ (intBits sz - 1) <= z < 2 ^ (intBits sz - 1) -> wrapInt sz z = z.
Proof.
  intros sz z Hz. destruct (wrapInt_eqm sz z) as [k Hk].
  pose proof (wrapInt_range sz z) as Hr. rewrite Hk in *.
  int_cases sz; lia.
Qed.

(** Sums may be wrapped at any point. *)
Lemma wrapInt_add_l : forall sz a b,
  wrapInt sz (wrapInt sz a + b) = wrapInt sz (a + b).
Proof.
  intros sz a b. destruct (wrapInt_eqm sz a) as [k Hk]. rewrite Hk.
  replace (a + k * 2 ^ intBits sz + b) with (a + b + k * 2 ^ intBits sz)
    by ring.
  apply wrapInt_shift.
Qed.

Lemma wrapInt_add_r : forall sz a b,
  wrapInt sz (a + wrapInt sz b) = wrapInt sz (a + b).
Proof.
  intros sz a b. rewrite (Z.add_comm a), wrapInt_add_l, (Z.add_comm b).
  reflexivity.
Qed.

(** *** The statements of the loop body *)

Lemma index_inside : forall buf i,
  insideBuffer buf i = true -> exists b, index buf i = Returned b.
Proof.
  intros buf i H. unfold insideBuffer in H. apply andb_prop in H.
  destruct H as [H0 H1]. apply Z.leb_le in H0. apply Z.ltb_lt in H1.
  unfold index. destruct (Z.ltb_spec i 0); [lia |].
  destruct (nth_error buf (Z.to_nat i)) as [b |] eqn:Hn; [eauto |].
  apply nth_error_None in Hn. lia.
Qed.

Lemma advance_next : forall sz buf i n md fn w r,
  advance sz buf i n md fn w = Returned r ->
  r = Next (mkDecState (wrapInt sz (i + wrapInt sz (Event_len md)))
                       (wrapInt sz (n - wrapInt sz (Event_len md))) fn w).
Proof.
  intros sz buf i n md fn w r. unfold advance.
  destruct (index buf (wrapInt sz (i + wrapInt sz (Event_len md))));
    cbn [bindO]; intros H; inversion H; reflexivity.
Qed.

Lemma advance_inside : forall sz buf i n md fn w,
  insideBuffer buf (wrapInt sz (i + wrapInt sz (Event_len md))) = true ->
  advance sz buf i n md fn w
  = Returned (Next (mkDecState (wrapInt sz (i + wrapInt sz (Event_len md)))
                      (wrapInt sz (n - wrapInt sz (Event_len md))) fn w)).
Proof.
  intros sz buf i n md fn w H. unfold advance.
  destruct (index_inside _ _ H) as [b Hb]. rewrite Hb. reflexivity.
Qed.

(** *** The senders *)

(** On a watcher that is not closed and whose [done] is open, the [select]
    of a sender has one case that can proceed, the send: it goes through
    when a receiver takes the value, waits when none does, and panics on a
    closed stream. *)
Lemma selectSend_open : forall (A : Type) taken doneFirst done (c : chan A) a,
  ch_closed done = false ->
  selectSend taken doneFirst done c a
  = if ch_closed c then Panicked "send on closed channel"
    else if taken then Returned (Some (mkChan (ch_sent c ++ [a]) false))
    else Blocked.
Proof.
  intros A taken doneFirst done c a Hd. unfold selectSend, sendChan.
  cbv zeta. rewrite Hd. cbn [andb negb].
  destruct (ch_closed c) eqn:Hc; cbn [orb andb bindO]; [reflexivity |].
  destruct taken; cbn [andb bindO]; reflexivity.
Qed.

(** When the [select] returns, it took the [done] case, or the value was
    appended to the open stream. *)
Lemma selectSend_returned : forall (A : Type) taken doneFirst done
                                   (c : chan A) a r,
  selectSend taken doneFirst done c a = Returned r ->
  (r = None /\ ch_closed done = true)
  \/ (r = Some (mkChan (ch_sent c ++ [a]) false) /\ ch_closed c = false).
Proof.
  intros A taken doneFirst done c a r. unfold selectSend, sendChan.
  cbv zeta.
  destruct ((ch_closed c || taken) && negb (ch_closed done && doneFirst)).
  - destruct (ch_closed c) eqn:Hc; cbn [bindO]; [discriminate |].
    intros H; inversion H; subst. right. split; reflexivity.
  - destruct (ch_closed done) eqn:Hd; [| discriminate].
    intros H; inversion H; subst. left. split; reflexivity.
Qed.

Section Senders.
Context {P : Peers}.

Lemma sendNotificationEvent_open : forall w e,
  isClosed w = false -> ch_closed (done w) = false ->
  sendNotificationEvent w e
  = if ch_closed (Events w) then Panicked "send on closed channel"
    else if takesEvent (ch_sent (Events w))
    then Returned (true,
                   setEvents w (mkChan (ch_sent (Events w) ++ [e]) false))
    else Blocked.
Proof.
  intros w e Hc Hd. unfold sendNotificationEvent.
  rewrite Hc, (selectSend_open _ _ _ _ _ _ Hd).
  destruct (ch_closed (Events w)); [reflexivity |].
  destruct (takesEvent (ch_sent (Events w))); reflexivity.
Qed.

Lemma sendPermissionEvent_open : forall w e,
  isClosed w = false -> ch_closed (done w) = false ->
  sendPermissionEvent w e
  = if ch_closed (PermissionEvents w) then Panicked "send on closed channel"
    else if takesPermissionEvent (ch_sent (PermissionEvents w))
    then Returned (true,
                   setPermissionEvents w
                     (mkChan (ch_sent (PermissionEvents w) ++ [e]) false))
    else Blocked.
Proof.
  intros w e Hc Hd. unfold sendPermissionEvent.
  rewrite Hc, (selectSend_open _ _ _ _ _ _ Hd).
  destruct (ch_closed (PermissionEvents w)); [reflexivity |].
  destruct (takesPermissionEvent (ch_sent (PermissionEvents w)));
    reflexivity.
Qed.

(** What a sender that returned has done: nothing, with [false]; or the
    send on its open stream, with [true]. *)
Lemma sendNotificationEvent_returned : forall w e ok w',
  sendNotificationEvent w e = Returned (ok, w') ->
  (ok = false /\ w' = w)
  \/ (ok = true /\ ch_closed (Events w) = false
      /\ w' = setEvents w (mkChan (ch_sent (Events w) ++ [e]) false)).
Proof.
  intros w e ok w' H. unfold sendNotificationEvent in H.
  destruct (isClosed w).
  { inversion H; subst. left. split; reflexivity. }
  destruct (selectSend _ _ _ _ _) as [r | |] eqn:Hs; cbn [bindO] in H;
    [| discriminate | discriminate].
  apply selectSend_returned in Hs.
  destruct Hs as [[-> _] | [-> Hc]]; inversion H; subst;
    [left | right]; repeat split; assumption.
Qed.

Lemma sendPermissionEvent_returned : forall w e ok w',
  sendPermissionEvent w e = Returned (ok, w') ->
  (ok = false /\ w' = w)
  \/ (ok = true /\ ch_closed (PermissionEvents w) = false
      /\ w' = setPermissionEvents w
                (mkChan (ch_sent (PermissionEvents w) ++ [e]) false)).
Proof.
  intros w e ok w' H. unfold sendPermissionEvent in H.
  destruct (isClosed w).
  { inversion H; subst. left. split; reflexivity. }
  destruct (selectSend _ _ _ _ _) as [r | |] eqn:Hs; cbn [bindO] in H;
    [| discriminate | discriminate].
  apply selectSend_returned in Hs.
  destruct Hs as [[-> _] | [-> Hc]]; inversion H; subst;
    [left | right]; repeat split; assumption.
Qed.

Lemma sendError_returned : forall w e ok w',
  sendError w e = Returned (ok, w') ->
  (ok = false /\ w' = w)
  \/ (ok = true /\ ch_closed (Errors w) = false
      /\ w' = setErrors w (mkChan (ch_sent (Errors w) ++ [e]) false)).
Proof.
  intros w e ok w' H. unfold sendError in H.
  destruct (isClosed w).
  { inversion H; subst. left. split; reflexivity. }
  destruct (selectSend _ _ _ _ _) as [r | |] eqn:Hs; cbn [bindO] in H;
    [| discriminate | discriminate].
  apply selectSend_returned in Hs.
  destruct Hs as [[-> _] | [-> Hc]]; inversion H; subst;
    [left | right]; repeat split; assumption.
Qed.

End Senders.

(** Taking a hypothesis about a run of the body apart, one call at a
    time. *)
Ltac crack H :=
  repeat (cbn [bindO negb] in H;
    match type of H with
    | bindO ?m _ = _ => let E := fresh "E" in destruct m eqn:E
    | match ?x with _ => _ end = _ =>
        let E := fresh "E" in destruct x eqn:E
    | Panicked _ = _ => discriminate H
    | Blocked = _ => discriminate H
    end).


(** *** The Op bit set *)

Lemma Has_lor_same : forall x p, Has (Z.lor x p) p = true.
Proof.
  intros x p. unfold Has. apply Z.eqb_eq. apply Z.bits_inj'. intros k _.
  rewrite Z.land_spec, Z.lor_spec.
  destruct (Z.testbit x k), (Z.testbit p k); reflexivity.
Qed.

Lemma Has_lor_other : forall x k p,
  Z.land k p = 0 -> Has (Z.lor x k) p = Has x p.
Proof.
  intros x k p Hkp. unfold Has.
  rewrite Z.land_lor_distr_l, Hkp, Z.lor_0_r. reflexivity.
Qed.

Lemma Has_zero : forall p, p <> 0 -> Has 0 p = false.
Proof.
  intros p Hp. unfold Has. rewrite Z.land_0_l. apply Z.eqb_neq. congruence.
Qed.

Lemma Has_step_same : forall (c : bool) op p,
  Has (if c then Z.lor op p else op) p = c || Has op p.
Proof. intros [] op p; [apply Has_lor_same | reflexivity]. Qed.

Lemma Has_step_other : forall (c : bool) op k p,
  Z.land k p = 0 -> Has (if c then Z.lor op k else op) p = Has op p.
Proof. intros [] op k p Hkp; [apply Has_lor_other; exact Hkp | reflexivity]. Qed.

Section OpProps.
Context `{O : OpConsts}.
Hypothesis Hdisjoint : opsDisjoint = true.

Lemma opsDisjoint_pair : forall a b,
  In (a, b) (orderedPairs opList) -> Z.land a b = 0.
Proof.
  intros a b Hin. unfold opsDisjoint in Hdisjoint.
  apply andb_prop in Hdisjoint. destruct Hdisjoint as [_ Hp].
  rewrite forallb_forall in Hp. specialize (Hp (a, b) Hin).
  apply Z.eqb_eq in Hp. exact Hp.
Qed.

Lemma opsDisjoint_pair_sym : forall a b,
  In (a, b) (orderedPairs opList) -> Z.land b a = 0.
Proof. intros a b Hin. rewrite Z.land_comm. apply opsDisjoint_pair, Hin. Qed.

Lemma opsDisjoint_nonzero : forall a, In a opList -> a <> 0.
Proof.
  intros a Hin. unfold opsDisjoint in Hdisjoint.
  apply andb_prop in Hdisjoint. destruct Hdisjoint as [Hn _].
  rewrite forallb_forall in Hn. specialize (Hn a Hin).
  apply negb_true_iff, Z.eqb_neq in Hn. exact Hn.
Qed.

Ltac in_list := cbn; solve [repeat first [left; reflexivity | right]].

Ltac other_op :=
  first [ apply opsDisjoint_pair; in_list
        | apply opsDisjoint_pair_sym; in_list ].

(** A Permission constant is in the Op of a mask exactly when the mask has
    the matching PERM bit. *)
Lemma toOp_PermissionToOpen : forall e,
  Has (toOp e) PermissionToOpen = Has e FAN_OPEN_PERM.
Proof.
  intros e. unfold toOp. cbv zeta.
  rewrite !Has_step_other by other_op.
  rewrite Has_step_same.
  rewrite !Has_step_other by other_op.
  rewrite Has_zero by (apply opsDisjoint_nonzero; in_list).
  apply orb_false_r.
Qed.

Lemma toOp_PermissionToExecute : forall e,
  Has (toOp e) PermissionToExecute = Has e FAN_OPEN_EXEC_PERM.
Proof.
  intros e. unfold toOp. cbv zeta.
  rewrite !Has_step_other by other_op.
  rewrite Has_step_same.
  rewrite !Has_step_other by other_op.
  rewrite Has_zero by (apply opsDisjoint_nonzero; in_list).
  apply orb_false_r.
Qed.

Lemma toOp_PermissionToRead : forall e,
  Has (toOp e) PermissionToRead = Has e FAN_ACCESS_PERM.
Proof.
  intros e. unfold toOp. cbv zeta.
  rewrite Has_step_same.
  rewrite !Has_step_other by other_op.
  rewrite Has_zero by (apply opsDisjoint_nonzero; in_list).
  apply orb_false_r.
Qed.

Lemma hasPermissionOp_toOp : forall mask,
  hasPermissionOp (toOp mask) = hasPermBit mask.
Proof.
  intros mask. unfold hasPermissionOp.
  rewrite toOp_PermissionToOpen, toOp_PermissionToExecute,
    toOp_PermissionToRead.
  unfold hasPermBit, Has.
  destruct (Z.land mask FAN_ACCESS_PERM =? FAN_ACCESS_PERM),
    (Z.land mask FAN_OPEN_PERM =? FAN_OPEN_PERM),
    (Z.land mask FAN_OPEN_EXEC_PERM =? FAN_OPEN_EXEC_PERM); reflexivity.
Qed.

End OpProps.

Lemma handleAndName_offset :
  forall sz withName metadataLen buf i fileName h fn j,
  handleAndName sz withName metadataLen buf i fileName = Returned (h, fn, j) ->
  (withName = false /\ j = i)
  \/ (withName = true /\ j = wrapInt sz (i + Z.of_nat (String.length fn))).
Proof.
  intros sz withName metadataLen buf i fileName h fn j H.
  unfold handleAndName in H. destruct withName.
  - right. destruct (getFileHandleWithName metadataLen buf i) as [[fh nb] | |];
      cbn [bindO] in H; [| discriminate | discriminate].
    inversion H; subst. split; reflexivity.
  - left. destruct (getFileHandle metadataLen buf i); cbn [bindO] in H;
      [| discriminate | discriminate].
    inversion H; subst. split; reflexivity.
Qed.

Section BodyProps.
Context `{O : OpConsts} `{D : DecoderHost} {P : Peers}.

Ltac use_advance :=
  repeat match goal with
         | E : advance _ _ _ _ _ _ _ = Returned _ |- _ =>
             apply advance_next in E; subst
         end.

(** Every way back to the guard takes [Event_len], as an [int], off the
    bytes left. *)
Lemma loopBody_bytes_left : forall buf s md s',
  loopBody buf s md = Returned (Next s') ->
  ds_n s' = wrapInt intSize (ds_n s - wrapInt intSize (Event_len md)).
Proof.
  intros buf s md s' H. unfold loopBody, classicBranch, fidBranch in H.
  crack H; use_advance; inversion H; subst; reflexivity.
Qed.

(** The offset moves by [Event_len], and in a named record by the length
    of the name on top of it. *)
Lemma loopBody_offset : forall buf s md s',
  loopBody buf s md = Returned (Next s') ->
  ds_i s' = wrapInt intSize (ds_i s + wrapInt intSize (Event_len md))
  \/ (md_Fd md = FAN_NOFD
      /\ ds_i s'
         = wrapInt intSize
             (wrapInt intSize
                (ds_i s + Z.of_nat (String.length (ds_fileName s')))
              + wrapInt intSize (Event_len md))).
Proof.
  intros buf s md s' H. unfold loopBody, classicBranch, fidBranch in H.
  destruct (Vers md =? FANOTIFY_METADATA_VERSION); cbn [negb] in H;
    [| discriminate].
  destruct (Z.eqb_spec (md_Fd md) FAN_NOFD) as [Hfd | Hfd]; cbn [negb] in H.
  - crack H; use_advance; inversion H; subst; cbn [ds_i ds_fileName];
      try (left; reflexivity);
      match goal with
      | E : handleAndName _ _ _ _ _ _ = Returned _ |- _ =>
          apply handleAndName_offset in E;
          destruct E as [[_ ->] | [_ ->]];
          [left; reflexivity | right; split; [exact Hfd | reflexivity]]
      end.
  - crack H; use_advance; inversion H; subst; left; reflexivity.
Qed.

(** A record that carries a descriptor is stepped over exactly: the offset
    and the bytes left still add up, in [int], to what they did. *)
Lemma loopBody_classic_no_drift : forall buf s md s',
  md_Fd md <> FAN_NOFD ->
  loopBody buf s md = Returned (Next s') ->
  wrapInt intSize (ds_i s' + ds_n s') = wrapInt intSize (ds_i s + ds_n s).
Proof.
  intros buf s md s' Hfd H.
  pose proof (loopBody_bytes_left _ _ _ _ H) as Hn.
  destruct (loopBody_offset _ _ _ _ H) as [Hi | [Hnofd _]];
    [| contradiction].
  rewrite Hi, Hn, wrapInt_add_l, wrapInt_add_r.
  f_equal. ring.
Qed.

(** In FID mode the two drift apart by the length of the name read. *)
Lemma loopBody_drift : forall buf s md s',
  loopBody buf s md = Returned (Next s') ->
  wrapInt intSize (ds_i s' + ds_n s') = wrapInt intSize (ds_i s + ds_n s)
  \/ wrapInt intSize (ds_i s' + ds_n s')
     = wrapInt intSize
         (ds_i s + ds_n s + Z.of_nat (String.length (ds_fileName s'))).
Proof.
  intros buf s md s' H.
  pose proof (loopBody_bytes_left _ _ _ _ H) as Hn.
  destruct (loopBody_offset _ _ _ _ H) as [Hi | [_ Hi]]; [left | right];
    rewrite Hi, Hn, wrapInt_add_l, wrapInt_add_r.
  - f_equal. ring.
  - rewrite <- Z.add_assoc, wrapInt_add_l. f_equal. ring.
Qed.

(** The body on a record that carries a descriptor whose link can be read:
    the event is built, sent by its mask, and the loop moves on. *)
Lemma loopBody_classic : forall buf s md name,
  Vers md = FANOTIFY_METADATA_VERSION ->
  md_Fd md <> FAN_NOFD ->
  Readlink (md_Fd md) = inr name ->
  loopBody buf s md
  = (r <- (let e := mkFanotifyEvent
                      (mkEvent name (toOp (clearOnDir (Mask md))))
                      (md_Fd md) (md_Pid md) in
           if hasPermBit (clearOnDir (Mask md))
           then sendPermissionEvent (ds_w s) e
           else sendNotificationEvent (ds_w s) e) ;;
     if negb (fst r) then Returned (Return None (snd r))
     else advance intSize buf (ds_i s) (ds_n s) md (ds_fileName s) (snd r)).
Proof.
  intros buf s md name Hv Hfd Hl. unfold loopBody.
  rewrite Hv, Z.eqb_refl. cbn [negb].
  destruct (Z.eqb_spec (md_Fd md) FAN_NOFD) as [Heq | _]; [contradiction |].
  cbn [negb]. unfold classicBranch. rewrite Hl. cbv zeta.
  destruct (if hasPermBit (clearOnDir (Mask md))
            then sendPermissionEvent (ds_w s) _
            else sendNotificationEvent (ds_w s) _) as [[ok w'] | |];
    reflexivity.
Qed.

(** The body on a record in FID mode that is decoded to the end. *)
Lemma loopBody_fid : forall buf s md fid withName h fn j fd pathName,
  Vers md = FANOTIFY_METADATA_VERSION ->
  md_Fd md = FAN_NOFD ->
  index buf (wrapInt intSize (ds_i s + Metadata_len md)) = Returned fid ->
  infoTypeSwitch (byteZ fid) = Some withName ->
  handleAndName intSize withName (Metadata_len md) buf (ds_i s)
    (ds_fileName s) = Returned (h, fn, j) ->
  OpenByHandleAt (mountPointFd (ds_w s)) h = inr fd ->
  Readlink fd = inr pathName ->
  loopBody buf s md
  = (r <- sendNotificationEvent (ds_w s)
            (mkFanotifyEvent
               (mkEvent (pathJoin pathName fn) (toOp (clearOnDir (Mask md))))
               fd (md_Pid md)) ;;
     if negb (fst r) then Returned (Return None (snd r))
     else advance intSize buf j (ds_n s) md fn (snd r)).
Proof.
  intros buf s md fid withName h fn j fd pathName Hv Hfd Hi Hsw Hh Ho Hl.
  unfold loopBody. rewrite Hv, Z.eqb_refl, Hfd. cbn [negb Z.eqb].
  unfold fidBranch. cbv zeta. rewrite Hi. cbn [bindO]. rewrite Hsw, Hh.
  cbn [bindO]. rewrite Ho, Hl.
  destruct (sendNotificationEvent (ds_w s) _) as [[ok w'] | |]; reflexivity.
Qed.

Hypothesis Hdisjoint : opsDisjoint = true.

Lemma routed_classic_perm : forall md name w,
  md_Fd md <> FAN_NOFD ->
  hasPermBit (clearOnDir (Mask md)) = true ->
  routed md
    (mkFanotifyEvent (mkEvent name (toOp (clearOnDir (Mask md))))
                     (md_Fd md) (md_Pid md))
    w
    (setPermissionEvents w
       (mkChan (ch_sent (PermissionEvents w)
                ++ [mkFanotifyEvent
                      (mkEvent name (toOp (clearOnDir (Mask md))))
                      (md_Fd md) (md_Pid md)]) false)).
Proof.
  intros md name w Hfd Hp. unfold routed. cbv zeta.
  destruct (Z.eqb_spec (md_Fd md) FAN_NOFD) as [Heq | _]; [contradiction |].
  rewrite Hp. split.
  - split; reflexivity.
  - cbn [Op ev]. rewrite (hasPermissionOp_toOp Hdisjoint). exact Hp.
Qed.

Lemma routed_classic_notification : forall md name w,
  md_Fd md <> FAN_NOFD ->
  hasPermBit (clearOnDir (Mask md)) = false ->
  routed md
    (mkFanotifyEvent (mkEvent name (toOp (clearOnDir (Mask md))))
                     (md_Fd md) (md_Pid md))
    w
    (setEvents w
       (mkChan (ch_sent (Events w)
                ++ [mkFanotifyEvent
                      (mkEvent name (toOp (clearOnDir (Mask md))))
                      (md_Fd md) (md_Pid md)]) false)).
Proof.
  intros md name w Hfd Hp. unfold routed. cbv zeta.
  destruct (Z.eqb_spec (md_Fd md) FAN_NOFD) as [Heq | _]; [contradiction |].
  rewrite Hp. split.
  - split; reflexivity.
  - cbn [Op ev]. rewrite (hasPermissionOp_toOp Hdisjoint). exact Hp.
Qed.

Lemma routed_fid : forall md name fd w,
  md_Fd md = FAN_NOFD ->
  routed md
    (mkFanotifyEvent (mkEvent name (toOp (clearOnDir (Mask md))))
                     fd (md_Pid md))
    w
    (setEvents w
       (mkChan (ch_sent (Events w)
                ++ [mkFanotifyEvent
                      (mkEvent name (toOp (clearOnDir (Mask md))))
                      fd (md_Pid md)]) false)).
Proof.
  intros md name fd w Hfd. unfold routed. cbv zeta.
  rewrite Hfd. cbn [Z.eqb]. split.
  - split; reflexivity.
  - cbn [Op ev]. apply (hasPermissionOp_toOp Hdisjoint).
Qed.


(** *** The loop guard *)

(** The guard lets a record through only if its length is at least the
    metadata size and, once converted to [int], at most the bytes left. *)
Lemma loopGuard_bounds : forall buf s md,
  loopGuard buf s = Some md ->
  md = readMetadata buf memoryPast (ds_i s)
  /\ sizeOfFanotifyEventMetadata <= ds_n s
  /\ sizeOfFanotifyEventMetadata <= Event_len md
  /\ wrapInt intSize (Event_len md) <= ds_n s.
Proof.
  intros buf s md H. unfold loopGuard in H.
  destruct (fanotifyEventOK intSize (readMetadata buf memoryPast (ds_i s))
              (ds_n s)) eqn:Hok; [| discriminate].
  inversion H; subst. unfold fanotifyEventOK in Hok.
  apply andb_prop in Hok. destruct Hok as [Hok H3].
  apply andb_prop in Hok. destruct Hok as [H1 H2].
  apply Z.leb_le in H1, H2, H3. repeat split; assumption.
Qed.

End BodyProps.



(** C1. A read of 112 bytes holding two named records of 56 bytes each:
    the guard lets the first record through with [Event_len] 56; handling
    it leaves the offset at 57, one more than the 56 bytes taken off [n];
    the metadata of the second record is then read one byte late, the guard
    fails, and the loop ends with 56 of the 112 bytes left and the second
    event never delivered. *)
Theorem readFanotifyEvents_named_record_drifts :
  exists md s1 s2,
    @loopGuard dataHost bufTwoNamed (mkDecState 0 112 "" boundWatcher)
    = Some md
    /\ Event_len md = 56
    /\ @loopBody iotaOps dataHost readyPeers bufTwoNamed
         (mkDecState 0 112 "" boundWatcher) md = Returned (Next s1)
    /\ ds_i s1 = 57 /\ ds_n s1 = 56
    /\ @decodeLoop iotaOps dataHost readyPeers 3 bufTwoNamed
         (mkDecState 0 112 "" boundWatcher) = Returned (LoopDone s2)
    /\ ds_i s2 = 57 /\ ds_n s2 = 56
    /\ map (fun e => Name (ev e)) (ch_sent (Events (ds_w s2)))
       = ["/mnt/data/a"%string].
Proof.
  eexists; eexists; eexists.
  split; [vm_compute; reflexivity |].
  split; [reflexivity |].
  split; [vm_compute; reflexivity |].
  split; [reflexivity |]. split; [reflexivity |].
  split; [vm_compute; reflexivity |].
  repeat split.
Qed.

(** The same read with unnamed records is decoded to the end: both events
    are delivered and all 112 bytes are used. *)
Example readFanotifyEvents_unnamed_records_exact :
  exists s2,
    @decodeLoop iotaOps dataHost readyPeers 3 bufTwoUnnamed
      (mkDecState 0 112 "" boundWatcher) = Returned (LoopDone s2)
    /\ ds_i s2 = 112 /\ ds_n s2 = 0
    /\ map (fun e => Name (ev e)) (ch_sent (Events (ds_w s2)))
       = ["/mnt/data"; "/mnt/data"]%string.
Proof.
  eexists. split; [vm_compute; reflexivity |]. repeat split.
Qed.

(** So is a read of two classic records. *)
Example readFanotifyEvents_classic_records_exact :
  exists s2,
    @decodeLoop iotaOps dataHost readyPeers 3 bufClassicPermThenOpen
      (mkDecState 0 48 "" boundWatcher) = Returned (LoopDone s2)
    /\ ds_i s2 = 48 /\ ds_n s2 = 0.
Proof.
  eexists. split; [vm_compute; reflexivity |]. repeat split.
Qed.

(** *** The loop on a target whose int has 32 bits *)

Lemma loopGuard_forward : forall w,
  @loopGuard dataHost32 bufBackwards (mkDecState 0 48 "" w) = Some mdForward.
Proof. intros w. vm_compute. reflexivity. Qed.

Lemma loopGuard_backward : forall w,
  @loopGuard dataHost32 bufBackwards (mkDecState 24 24 "" w)
  = Some mdBackward.
Proof. intros w. vm_compute. reflexivity. Qed.

(** On an open watcher whose consumer takes every event, the first record
    of [bufBackwards] is delivered and leaves 24 bytes at offset 24. *)
Lemma loopBody_forward : forall w,
  isClosed w = false -> ch_closed (done w) = false ->
  ch_closed (Events w) = false ->
  @loopBody iotaOps dataHost32 readyPeers bufBackwards
    (mkDecState 0 48 "" w) mdForward
  = Returned
      (Next (mkDecState 24 24 ""
               (setEvents w
                  (mkChan (ch_sent (Events w)
                           ++ [mkFanotifyEvent
                                 (mkEvent "/mnt/data/bar" (@Open iotaOps))
                                 7 100]) false)))).
Proof.
  intros w Hc Hd He.
  rewrite (@loopBody_classic iotaOps dataHost32 readyPeers bufBackwards
             (mkDecState 0 48 "" w) mdForward "/mnt/data/bar"
             eq_refl ltac:(discriminate) eq_refl).
  change (hasPermBit (clearOnDir (Mask mdForward))) with false.
  cbv zeta. cbn [ds_w ds_i ds_n ds_fileName].
  rewrite (sendNotificationEvent_open w _ Hc Hd), He.
  cbn [takesEvent readyPeers bindO fst snd negb].
  rewrite advance_inside by reflexivity.
  reflexivity.
Qed.

(** The second record has [Event_len] 0xFFFFFFE8, which is -24 as an
    [int]: it is delivered too, the offset goes back to 0 and the bytes
    left go up to 48. *)
Lemma loopBody_backward : forall w,
  isClosed w = false -> ch_closed (done w) = false ->
  ch_closed (Events w) = false ->
  @loopBody iotaOps dataHost32 readyPeers bufBackwards
    (mkDecState 24 24 "" w) mdBackward
  = Returned
      (Next (mkDecState 0 48 ""
               (setEvents w
                  (mkChan (ch_sent (Events w)
                           ++ [mkFanotifyEvent
                                 (mkEvent "/mnt/data/bar" (@Open iotaOps))
                                 7 100]) false)))).
Proof.
  intros w Hc Hd He.
  rewrite (@loopBody_classic iotaOps dataHost32 readyPeers bufBackwards
             (mkDecState 24 24 "" w) mdBackward "/mnt/data/bar"
             eq_refl ltac:(discriminate) eq_refl).
  change (hasPermBit (clearOnDir (Mask mdBackward))) with false.
  cbv zeta. cbn [ds_w ds_i ds_n ds_fileName].
  rewrite (sendNotificationEvent_open w _ Hc Hd), He.
  cbn [takesEvent readyPeers bindO fst snd negb].
  rewrite advance_inside by reflexivity.
  reflexivity.
Qed.

Lemma decodeLoop_backwards_never_ends : forall fuel w,
  isClosed w = false -> ch_closed (done w) = false ->
  ch_closed (Events w) = false ->
  ranOutOfFuel (@decodeLoop iotaOps dataHost32 readyPeers fuel bufBackwards
                  (mkDecState 0 48 "" w)) = true
  /\ ranOutOfFuel (@decodeLoop iotaOps dataHost32 readyPeers fuel bufBackwards
                     (mkDecState 24 24 "" w)) = true.
Proof.
  induction fuel as [| fuel IH]; intros w Hc Hd He; [split; reflexivity |].
  split; cbn [decodeLoop].
  - rewrite loopGuard_forward, (loopBody_forward w Hc Hd He). cbn [bindO].
    refine (proj2 (IH _ _ _ _)); first [assumption | reflexivity].
  - rewrite loopGuard_backward, (loopBody_backward w Hc Hd He). cbn [bindO].
    refine (proj1 (IH _ _ _ _)); first [assumption | reflexivity].
Qed.

(** C10 fails where [int] has 32 bits.  In a read of 48 bytes whose second
    record has [Event_len] 0xFFFFFFE8, the guard lets that record through
    with 24 bytes left, because the length is compared after its conversion
    to [int], as -24; handling it moves the offset back from 24 to 0 and
    takes the bytes left up from 24 to 48; and the loop, started on the
    buffer with a consumer that takes every event, is still running after
    any number of iterations. *)
Theorem decodeLoop_cycles_with_32_bit_int :
  @loopGuard dataHost32 bufBackwards (mkDecState 24 24 "" boundWatcher)
  = Some mdBackward
  /\ Event_len mdBackward = 4294967272
  /\ (exists w',
        @loopBody iotaOps dataHost32 readyPeers bufBackwards
          (mkDecState 24 24 "" boundWatcher) mdBackward
        = Returned (Next (mkDecState 0 48 "" w')))
  /\ forall fuel,
       ranOutOfFuel (@decodeLoop iotaOps dataHost32 readyPeers fuel
                       bufBackwards (mkDecState 0 48 "" boundWatcher))
       = true.
Proof.
  split; [apply loopGuard_backward |].
  split; [reflexivity |].
  split.
  - eexists. apply loopBody_backward; reflexivity.
  - intros fuel.
    apply (decodeLoop_backwards_never_ends fuel boundWatcher); reflexivity.
Qed.

(** With an [int] of 64 bits the guard turns the second record down and
    the loop over the same read ends after the first. *)
Example decodeLoop_backwards_ends_with_64_bit_int :
  exists s,
    @decodeLoop iotaOps dataHost readyPeers 2 bufBackwards
      (mkDecState 0 48 "" boundWatcher) = Returned (LoopDone s)
    /\ ds_i s = 24 /\ ds_n s = 24.
Proof.
  eexists. split; [vm_compute; reflexivity |]. split; reflexivity.
Qed.

(** * Further properties *)

(** ** Construction *)

(** The flags picked for a kernel version are a valid combination. *)
Lemma flagsValid_negotiated : forall maj min,
  flagsValid (negotiateInitFlags maj min) = None.
Proof.
  intros maj min. unfold negotiateInitFlags.
  cases_Z; cbn; try reflexivity; lia.
Qed.

(** Every flag of the init table present in the picked flags is supported
    by the version they were picked for. *)
Lemma negotiated_flags_supported : forall maj min,
  allPresentFlagsSupported flagPerKernelVersion
    (negotiateInitFlags maj min) maj min = true.
Proof.
  intros maj min. unfold negotiateInitFlags.
  cases_Z; cbn [allPresentFlagsSupported flagPerKernelVersion forallb];
    unfold versionSatisfied, version_leb, version_ltb;
    cbn [fst snd ver_maj ver_min isSet];
    cases_Z; cbn; try reflexivity; try lia.
Qed.

(** X1. Once the kernel version is known, the constructor neither panics
    in the support check nor fails on the flag validation, in whatever
    order the support table is visited: it fails only where the host does
    (fanotify_init, the pipe, the two fcntl calls), and otherwise returns a
    watcher with the flags picked for the version, the version recorded,
    fresh open channels, not closed and with no mount bound. *)
Theorem newFanotifyWatcher_by_host : forall h maj min patch,
  kernelVersion (host_uname h) = Returned (maj, min, patch, None) ->
  Permutation (host_order h) flagPerKernelVersion ->
  newFanotifyWatcher h =
  Returned
    match host_init h with
    | inl e => inr (CtorInit e)
    | inr fd =>
        match host_pipe h with
        | inl e => inr (CtorPipe e)
        | inr (r, w) =>
            match host_getfl h with
            | inl e => inr (CtorGetFl e)
            | inr _ =>
                match host_setfl h with
                | inl e => inr (CtorSetFl e)
                | inr _ =>
                    inl (mkWatcher fd (negotiateInitFlags maj min) maj min
                           makeChan r w makeChan makeChan makeChan
                           false false None 0 0)
                end
            end
        end
    end.
Proof.
  intros h maj min patch Hkv Hperm. unfold newFanotifyWatcher.
  rewrite Hkv. cbn [bindO]. rewrite flagsValid_negotiated.
  unfold fanotifyInitFlagsKernelSupport.
  rewrite (kernelSupportLoop_accepts_supported flagPerKernelVersion
             (host_order h) _ maj min Hperm
             (negotiated_flags_supported maj min)).
  cbn [negb].
  destruct (host_init h); [reflexivity |].
  destruct (host_pipe h) as [e | [r w]]; [reflexivity |].
  destruct (host_getfl h); [reflexivity |].
  destruct (host_setfl h); reflexivity.
Qed.

Lemma newFanotifyWatcher_by_host_witness :
  newFanotifyWatcher
    (mkCtorHost (inr "5.15.0-92-generic"%string) flagPerKernelVersion
       (inr 3) (inr (mkFile 4 false, mkFile 5 false)) (inr 0) (inr 0))
  = Returned (inl (freshWatcher 5 15)).
Proof.
  exact (newFanotifyWatcher_by_host
           (mkCtorHost (inr "5.15.0-92-generic"%string) flagPerKernelVersion
              (inr 3) (inr (mkFile 4 false, mkFile 5 false)) (inr 0) (inr 0))
           5 15 0 eq_refl (Permutation_refl _)).
Defined.

(** ** Mask check *)

(** What is left of [flags] after the loop is part of [flags], and the rest
    of [flags] lies in the union of the valid types. *)
Lemma checkMaskLoop_bits : forall valid flags k,
  Z.testbit flags k =
  Z.testbit (checkMaskLoop valid flags) k
  || (Z.testbit flags k && Z.testbit (unionOf valid) k).
Proof.
  induction valid as [| v rest IH]; intros flags k; cbn [checkMaskLoop unionOf
    fold_right].
  - destruct (Z.testbit flags k); reflexivity.
  - fold (unionOf rest). rewrite Z.lor_spec.
    destruct (Z.eqb_spec (Z.land flags v) v) as [Hv | Hv].
    + specialize (IH (Z.lxor flags v) k). rewrite Z.lxor_spec in IH.
      assert (Hb : Z.testbit v k = true -> Z.testbit flags k = true).
      { intro Hvk. rewrite <- Hv in Hvk. rewrite Z.land_spec in Hvk.
        apply andb_prop in Hvk. tauto. }
      destruct (Z.testbit flags k), (Z.testbit v k),
        (Z.testbit (unionOf rest) k),
        (Z.testbit (checkMaskLoop rest (Z.lxor flags v)) k);
        cbn in *; try reflexivity; try discriminate;
        try (specialize (Hb eq_refl); discriminate).
    + specialize (IH flags k).
      destruct (Z.testbit flags k), (Z.testbit v k),
        (Z.testbit (unionOf rest) k),
        (Z.testbit (checkMaskLoop rest flags) k);
        cbn in *; try reflexivity; try discriminate.
Qed.

(** X2. A mask that [checkMask] accepts has no bit outside the valid event
    types: it lies within their union. *)
Theorem checkMask_accepts_only_valid_bits : forall mask valid,
  checkMask mask valid = None ->
  Z.land mask (unionOf valid) = mask.
Proof.
  intros mask valid H. unfold checkMask in H.
  destruct (Z.eqb_spec (checkMaskLoop valid mask) 0) as [Hz | Hz];
    [| discriminate].
  apply Z.bits_inj'. intros k _. rewrite Z.land_spec.
  pose proof (checkMaskLoop_bits valid mask k) as Hb.
  rewrite Hz, Z.bits_0 in Hb. cbn [orb] in Hb.
  rewrite <- Hb. reflexivity.
Qed.

Lemma checkMask_accepts_only_valid_bits_witness :
  Z.land (Z.lor FAN_CREATE FAN_DELETE)
         (unionOf [FAN_CREATE; FAN_MODIFY; FAN_DELETE])
  = Z.lor FAN_CREATE FAN_DELETE.
Proof.
  exact (checkMask_accepts_only_valid_bits (Z.lor FAN_CREATE FAN_DELETE)
           [FAN_CREATE; FAN_MODIFY; FAN_DELETE] eq_refl).
Defined.

(** Valid types that share no bit are taken out independently of one
    another: what is left is [flags] without the types it wholly holds. *)
Lemma checkMaskLoop_disjoint : forall valid flags k,
  ForallOrdPairs (fun a b => Z.land a b = 0) valid ->
  Z.testbit (checkMaskLoop valid flags) k =
  Z.testbit flags k
  && negb (Z.testbit (unionOf (filter (fun v => isSet flags v) valid)) k).
Proof.
  induction valid as [| v rest IH]; intros flags k Hd; cbn [checkMaskLoop
    filter unionOf fold_right].
  - rewrite Z.bits_0. destruct (Z.testbit flags k); reflexivity.
  - inversion Hd as [| ? ? Hv Hrest]; subst.
    change (Z.land flags v =? v) with (isSet flags v).
    destruct (isSet flags v) eqn:Hset.
    + unfold isSet in Hset. apply Z.eqb_eq in Hset.
      rewrite (IH (Z.lxor flags v) k Hrest).
      cbn [unionOf fold_right].
      fold (unionOf (filter (fun v0 => isSet flags v0) rest)).
      assert (Hf : filter (fun v0 => isSet (Z.lxor flags v) v0) rest
                   = filter (fun v0 => isSet flags v0) rest).
      { apply filter_ext_in. intros u Hu. unfold isSet.
        rewrite Forall_forall in Hv. specialize (Hv u Hu).
        f_equal. apply Z.bits_inj'. intros j _.
        rewrite !Z.land_spec, Z.lxor_spec.
        assert (Hvu : Z.testbit v j && Z.testbit u j = false).
        { rewrite <- Z.land_spec, Hv. apply Z.bits_0. }
        destruct (Z.testbit flags j), (Z.testbit v j), (Z.testbit u j);
          cbn in *; try reflexivity; discriminate. }
      rewrite Hf. rewrite Z.lxor_spec, Z.lor_spec.
      assert (Hb : Z.testbit v k = true -> Z.testbit flags k = true).
      { intro Hvk. rewrite <- Hset in Hvk. rewrite Z.land_spec in Hvk.
        apply andb_prop in Hvk. tauto. }
      destruct (Z.testbit flags k), (Z.testbit v k),
        (Z.testbit (unionOf (filter (fun v0 => isSet flags v0) rest)) k);
        cbn in *; try reflexivity;
        try (specialize (Hb eq_refl); discriminate).
    + rewrite (IH flags k Hrest). reflexivity.
Qed.

(** X3. When the valid event types share no bit, [checkMask] accepts a mask
    exactly when the mask is the union of the valid types it wholly holds:
    a mask made of whole valid types passes, a mask with any other bit, or
    with part of a type only, is turned down. *)
Theorem checkMask_disjoint_types : forall mask valid,
  ForallOrdPairs (fun a b => Z.land a b = 0) valid ->
  checkMask mask valid = None
  <-> mask = unionOf (filter (fun v => isSet mask v) valid).
Proof.
  intros mask valid Hd. unfold checkMask.
  assert (Hsub : forall k,
             Z.testbit (unionOf (filter (fun v => isSet mask v) valid)) k
             = true -> Z.testbit mask k = true).
  { clear Hd. induction valid as [| v rest IH]; intros k; cbn [filter unionOf
      fold_right].
    - rewrite Z.bits_0. discriminate.
    - destruct (isSet mask v) eqn:Hset; [| apply IH].
      cbn [unionOf fold_right]. rewrite Z.lor_spec. intro H.
      apply orb_prop in H. destruct H as [H | H]; [| apply IH; exact H].
      unfold isSet in Hset. apply Z.eqb_eq in Hset.
      rewrite <- Hset, Z.land_spec in H. apply andb_prop in H. tauto. }
  split.
  - intro H.
    destruct (Z.eqb_spec (checkMaskLoop valid mask) 0) as [Hz | Hz];
      [| discriminate].
    apply Z.bits_inj'. intros k _.
    pose proof (checkMaskLoop_disjoint valid mask k Hd) as Hb.
    rewrite Hz, Z.bits_0 in Hb. specialize (Hsub k).
    destruct (Z.testbit mask k),
      (Z.testbit (unionOf (filter (fun v => isSet mask v) valid)) k);
      cbn in *; try reflexivity; try discriminate.
    specialize (Hsub eq_refl). discriminate.
  - intro H.
    assert (Hz : checkMaskLoop valid mask = 0).
    { apply Z.bits_inj'. intros k _.
      rewrite (checkMaskLoop_disjoint valid mask k Hd), Z.bits_0.
      rewrite <- H. destruct (Z.testbit mask k); reflexivity. }
    rewrite Hz. reflexivity.
Qed.

Lemma checkMask_disjoint_types_witness :
  (checkMask (Z.lor FAN_CREATE FAN_DELETE)
     [FAN_CREATE; FAN_MODIFY; FAN_DELETE] = None
   <-> Z.lor FAN_CREATE FAN_DELETE
       = unionOf (filter (fun v => isSet (Z.lor FAN_CREATE FAN_DELETE) v)
                         [FAN_CREATE; FAN_MODIFY; FAN_DELETE])).
Proof.
  apply (checkMask_disjoint_types (Z.lor FAN_CREATE FAN_DELETE)
           [FAN_CREATE; FAN_MODIFY; FAN_DELETE]).
  repeat constructor.
Defined.

(** ** Operations *)

Section OpTable.
Context `{O : OpConsts}.
Hypothesis Hdisjoint : opsDisjoint = true.

Ltac in_opList := cbn; solve [repeat first [left; reflexivity | right]].

Ltac apart :=
  first [ apply (opsDisjoint_pair Hdisjoint); in_opList
        | apply (opsDisjoint_pair_sym Hdisjoint); in_opList ].

Ltac read_op :=
  intros; unfold toOp; cbv zeta;
  rewrite ?Has_step_other by apart;
  rewrite Has_step_same;
  rewrite ?Has_step_other by apart;
  rewrite Has_zero by (apply (opsDisjoint_nonzero Hdisjoint); in_opList);
  apply orb_false_r.

(** X4. The Op of a mask holds a variant exactly when the mask has one of
    the fanotify bits the variant stands for: Create for CREATE or
    MOVED_TO, Remove for DELETE or DELETE_SELF, Write for MODIFY or
    CLOSE_WRITE, Rename for MOVE_SELF or MOVED_FROM, Chmod for ATTRIB, Read
    for ACCESS, Close for CLOSE_NOWRITE, Open for OPEN, Execute for
    OPEN_EXEC. *)
Theorem toOp_table : forall e,
  Has (toOp e) Create = (Has e FAN_CREATE || Has e FAN_MOVED_TO)
  /\ Has (toOp e) Remove = (Has e FAN_DELETE || Has e FAN_DELETE_SELF)
  /\ Has (toOp e) Write = (Has e FAN_MODIFY || Has e FAN_CLOSE_WRITE)
  /\ Has (toOp e) Rename = (Has e FAN_MOVE_SELF || Has e FAN_MOVED_FROM)
  /\ Has (toOp e) Chmod = Has e FAN_ATTRIB
  /\ Has (toOp e) Read = Has e FAN_ACCESS
  /\ Has (toOp e) Close = Has e FAN_CLOSE_NOWRITE
  /\ Has (toOp e) Open = Has e FAN_OPEN
  /\ Has (toOp e) Execute = Has e FAN_OPEN_EXEC.
Proof.
  intros e. repeat split; read_op.
Qed.

End OpTable.

Lemma toOp_table_witness :
  @Has (@toOp iotaOps (Z.lor FAN_MOVED_TO FAN_ATTRIB)) (@Create iotaOps)
  = true
  /\ @Has (@toOp iotaOps (Z.lor FAN_MOVED_TO FAN_ATTRIB)) (@Remove iotaOps)
     = false.
Proof.
  split.
  - exact (proj1 (@toOp_table iotaOps eq_refl
                    (Z.lor FAN_MOVED_TO FAN_ATTRIB))).
  - exact (proj1 (proj2 (@toOp_table iotaOps eq_refl
                           (Z.lor FAN_MOVED_TO FAN_ATTRIB)))).
Defined.

(** Taking a set of bits [d] out of a mask leaves every test for a type
    that shares no bit with [d] as it was. *)
Lemma Has_lxor_apart : forall mask d k,
  Z.land mask d = d -> Z.land d k = 0 ->
  Has (Z.lxor mask d) k = Has mask k.
Proof.
  intros mask d k _ Hk. unfold Has. f_equal. apply Z.bits_inj'. intros j _.
  rewrite (Z.land_spec (Z.lxor mask d) k j), (Z.land_spec mask k j),
    (Z.lxor_spec mask d j).
  pose proof (Z.land_spec d k j) as Hb. rewrite Hk, Z.bits_0 in Hb.
  destruct (Z.testbit mask j), (Z.testbit d j), (Z.testbit k j);
    cbn [andb xorb] in *; try reflexivity; discriminate.
Qed.

(** Clearing ON_DIR leaves every test for a type without that bit as it
    was. *)
Lemma Has_clearOnDir : forall mask k,
  Z.land FAN_ONDIR k = 0 -> Has (clearOnDir mask) k = Has mask k.
Proof.
  intros mask k Hk. unfold clearOnDir.
  destruct (Z.eqb_spec (Z.land mask FAN_ONDIR) FAN_ONDIR) as [Hd | Hd];
    [| reflexivity].
  apply Has_lxor_apart; assumption.
Qed.

(** X5. The ON_DIR marker plays no part in the operation reported: the Op
    of a mask is the Op of the mask with ON_DIR cleared, whatever the Op
    constants are. *)
Theorem toOp_clearOnDir : forall (O : OpConsts) mask,
  toOp (clearOnDir mask) = toOp mask.
Proof.
  intros O mask. unfold toOp.
  rewrite (Has_clearOnDir mask FAN_CREATE eq_refl),
    (Has_clearOnDir mask FAN_MOVED_TO eq_refl),
    (Has_clearOnDir mask FAN_DELETE eq_refl),
    (Has_clearOnDir mask FAN_DELETE_SELF eq_refl),
    (Has_clearOnDir mask FAN_MODIFY eq_refl),
    (Has_clearOnDir mask FAN_CLOSE_WRITE eq_refl),
    (Has_clearOnDir mask FAN_MOVE_SELF eq_refl),
    (Has_clearOnDir mask FAN_MOVED_FROM eq_refl),
    (Has_clearOnDir mask FAN_ATTRIB eq_refl),
    (Has_clearOnDir mask FAN_ACCESS eq_refl),
    (Has_clearOnDir mask FAN_CLOSE_NOWRITE eq_refl),
    (Has_clearOnDir mask FAN_OPEN eq_refl),
    (Has_clearOnDir mask FAN_OPEN_EXEC eq_refl),
    (Has_clearOnDir mask FAN_OPEN_PERM eq_refl),
    (Has_clearOnDir mask FAN_OPEN_EXEC_PERM eq_refl),
    (Has_clearOnDir mask FAN_ACCESS_PERM eq_refl).
  reflexivity.
Qed.

(** X6. [Or] and [Has] on event types: a type that was added is there,
    what was there before still is, and a type that shares no bit with the
    added one is there only if it was before. *)
Theorem Or_Has : forall e et x,
  Has (fanotifyEventType_Or e et) et = true
  /\ (Has e x = true -> Has (fanotifyEventType_Or e et) x = true)
  /\ (Z.land et x = 0 -> Has (fanotifyEventType_Or e et) x = Has e x).
Proof.
  intros e et x. unfold fanotifyEventType_Or. split; [apply Has_lor_same |].
  split; [| apply Has_lor_other].
  unfold Has. intro H. apply Z.eqb_eq in H. apply Z.eqb_eq.
  rewrite Z.land_lor_distr_l, H. apply Z.bits_inj'. intros k _.
  rewrite Z.lor_spec, Z.land_spec.
  destruct (Z.testbit x k), (Z.testbit et k); reflexivity.
Qed.

(** ** File handles and names *)

Lemma nameLoop_bounds : forall fuel buf i limit name,
  nameLoop fuel buf i limit = Returned name ->
  (List.length name <= fuel)%nat
  /\ Forall (fun b => byteZ b <> 0) name.
Proof.
  induction fuel as [| fuel IH]; intros buf i limit name H; cbn [nameLoop] in H.
  - inversion H; subst. split; [cbn; lia | constructor].
  - destruct (i <? limit).
    + destruct (index buf i) as [b | |]; cbn [bindO] in H; [| discriminate | discriminate].
      destruct (Z.eqb_spec (byteZ b) 0) as [Hz | Hz].
      * inversion H; subst. split; [cbn; lia | constructor].
      * destruct (nameLoop fuel buf (wrap32 (i + 1)) limit) as [rest | |] eqn:Hr;
          cbn [bindO] in H; [| discriminate | discriminate].
        inversion H; subst. apply IH in Hr. destruct Hr as [Hlen Hnz].
        split; [cbn; lia | constructor; assumption].
    + inversion H; subst. split; [cbn; lia | constructor].
Qed.

(** X7. The name that [getFileHandleWithName] returns is at most NAME_MAX
    bytes long and holds no NUL byte, whatever the buffer holds. *)
Theorem getFileHandleWithName_name_bounds :
  forall metadataLen buf i handle name,
  getFileHandleWithName metadataLen buf i = Returned (handle, name) ->
  Z.of_nat (List.length name) <= NAME_MAX
  /\ Forall (fun b => byteZ b <> 0) name.
Proof.
  intros metadataLen buf i handle name H. unfold getFileHandleWithName in H.
  destruct (readFileHandle metadataLen buf i) as [[h j] | |]; cbn [bindO] in H;
    [| discriminate | discriminate].
  destruct (nameLoop (Z.to_nat NAME_MAX) buf j (wrap32 (j + NAME_MAX)))
    as [nb | |] eqn:Hn; cbn [bindO] in H; [| discriminate | discriminate].
  inversion H; subst. apply nameLoop_bounds in Hn. destruct Hn as [Hlen Hnz].
  split; [| exact Hnz]. unfold NAME_MAX in *. lia.
Qed.

Lemma getFileHandleWithName_name_bounds_witness :
  Z.of_nat (List.length [byteOfZ 97]) <= NAME_MAX
  /\ Forall (fun b => byteZ b <> 0) [byteOfZ 97].
Proof.
  exact (getFileHandleWithName_name_bounds 24 bufTwoNamed 0
           (mkFileHandle 1 (putLE 8 0x0807060504030201)) [byteOfZ 97]
           eq_refl).
Defined.

Lemma slice_inside : forall buf lo hi bs,
  slice buf lo hi = Returned bs ->
  0 <= lo <= hi /\ hi <= Z.of_nat (List.length buf)
  /\ bs = firstn (Z.to_nat (hi - lo)) (skipn (Z.to_nat lo) buf)
  /\ Z.of_nat (List.length bs) = hi - lo.
Proof.
  intros buf lo hi bs H. unfold slice in H.
  destruct (Z.leb_spec 0 lo); cbn [andb] in H; [| discriminate].
  destruct (Z.leb_spec lo hi); cbn [andb] in H; [| discriminate].
  destruct (Z.leb_spec hi (Z.of_nat (List.length buf))); [| discriminate].
  inversion H; subst. repeat split; try lia.
  rewrite length_firstn, length_skipn. lia.
Qed.

Lemma wrap32_range : forall z, 0 <= wrap32 z < 4294967296.
Proof.
  intros z. unfold wrap32. change (2 ^ 32) with 4294967296.
  apply Z.mod_pos_bound. lia.
Qed.

(** An end offset that did not fall below its start did not wrap. *)
Lemma wrap32_no_wrap : forall j d,
  0 <= j < 4294967296 -> 0 <= d < 4294967296 -> j <= wrap32 (j + d) ->
  wrap32 (j + d) = j + d.
Proof.
  intros j d Hj Hd Hle. unfold wrap32 in *.
  change (2 ^ 32) with 4294967296 in *.
  destruct (Z_lt_ge_dec (j + d) 4294967296) as [Hs | Hb].
  - apply Z.mod_small. lia.
  - exfalso.
    assert (Hm : (j + d) mod 4294967296 = j + d - 4294967296).
    { symmetry. apply (Z.mod_unique _ _ 1); lia. }
    lia.
Qed.

Lemma leU_range : forall bs,
  0 <= leU bs < 256 ^ Z.of_nat (List.length bs).
Proof.
  induction bs as [| b rest IH]; cbn [leU List.length].
  - cbn. lia.
  - rewrite Nat2Z.inj_succ, Z.pow_succ_r by lia.
    assert (Hb : 0 <= byteZ b < 256).
    { unfold byteZ. pose proof (Byte.to_N_bounded b) as Hbb. lia. }
    lia.
Qed.

(** X8. The handle that [getFileHandle] returns is as long as the
    handle_bytes field of the record says, and its bytes are the bytes of
    the buffer that follow the two handle fields; nothing outside the
    buffer is read: a record whose fields point past the end makes the call
    panic. *)
Theorem getFileHandle_inside_buffer : forall metadataLen buf i handle,
  getFileHandle metadataLen buf i = Returned handle ->
  let j := wrap32 (wrap32 i + metadataLen + sizeOfFanotifyEventInfoHeader
                   + sizeOfKernelFSIDType) in
  let fhSize := leU (firstn 4 (skipn (Z.to_nat j) buf)) in
  Z.of_nat (List.length (handle_bytes handle)) = fhSize
  /\ j + 8 + fhSize <= Z.of_nat (List.length buf)
  /\ handle_bytes handle
     = firstn (Z.to_nat fhSize) (skipn (Z.to_nat (j + 8)) buf).
Proof.
  intros metadataLen buf i handle H. cbv zeta.
  unfold getFileHandle, readFileHandle in H.
  pose proof (wrap32_range (wrap32 i + metadataLen
                            + sizeOfFanotifyEventInfoHeader
                            + sizeOfKernelFSIDType)) as Hj.
  remember (wrap32 (wrap32 i + metadataLen + sizeOfFanotifyEventInfoHeader
                    + sizeOfKernelFSIDType)) as j eqn:Ej.
  clear Ej.
  unfold sizeOfUint32 in H.
  destruct (slice buf j (wrap32 (j + 4))) as [b1 | |] eqn:H1; cbn [bindO] in H;
    [| discriminate | discriminate].
  apply slice_inside in H1. destruct H1 as [Hlo1 [Hhi1 [Hb1 Hl1]]].
  assert (E1 : wrap32 (j + 4) = j + 4)
    by (apply wrap32_no_wrap; [lia | lia | apply Hlo1]).
  pose proof (wrap32_range (j + 4)) as Hj1.
  rewrite E1 in *.
  destruct (slice buf (j + 4) (wrap32 (j + 4 + 4))) as [b2 | |] eqn:H2;
    cbn [bindO] in H; [| discriminate | discriminate].
  apply slice_inside in H2. destruct H2 as [Hlo2 [Hhi2 [Hb2 Hl2]]].
  assert (E2 : wrap32 (j + 4 + 4) = j + 4 + 4)
    by (apply wrap32_no_wrap; [lia | lia | apply Hlo2]).
  pose proof (wrap32_range (j + 4 + 4)) as Hj2.
  rewrite E2 in *.
  destruct (slice buf (j + 4 + 4) (wrap32 (j + 4 + 4 + leU b1)))
    as [hb | |] eqn:H3; cbn [bindO] in H; [| discriminate | discriminate].
  apply slice_inside in H3. destruct H3 as [Hlo3 [Hhi3 [Hb3 Hl3]]].
  inversion H; subst handle. cbn [fst handle_bytes].
  assert (Hsz : leU (firstn 4 (skipn (Z.to_nat j) buf)) = leU b1).
  { rewrite Hb1. f_equal. f_equal. lia. }
  pose proof (leU_range b1) as Hr.
  assert (Hb1len : Z.of_nat (List.length b1) = 4) by lia.
  rewrite Hb1len in Hr.
  assert (E3 : wrap32 (j + 4 + 4 + leU b1) = j + 4 + 4 + leU b1).
  { change (256 ^ 4) with 4294967296 in Hr.
    apply wrap32_no_wrap; [lia | lia | apply Hlo3]. }
  rewrite E3 in *. rewrite Hsz.
  replace (j + 8) with (j + 4 + 4) by lia.
  repeat split; try lia.
  rewrite Hb3. f_equal. lia.
Qed.

Lemma getFileHandle_inside_buffer_witness :
  Z.of_nat (List.length (putLE 8 0x0807060504030201)) = 8
  /\ 36 + 8 + 8 <= Z.of_nat (List.length bufTwoUnnamed)
  /\ putLE 8 0x0807060504030201
     = firstn (Z.to_nat 8) (skipn (Z.to_nat (36 + 8)) bufTwoUnnamed).
Proof.
  exact (getFileHandle_inside_buffer 24 bufTwoUnnamed 0
           (mkFileHandle 1 (putLE 8 0x0807060504030201)) eq_refl).
Defined.

(** ** What the decoder changes *)

Lemma onlySent_refl : forall w, onlySent w w.
Proof.
  intros w. exists [], [], []. rewrite !app_nil_r. destruct w as
    [? ? ? ? ? ? ? [? ?] [? ?] [? ?] ? ? ? ? ?]. reflexivity.
Qed.

Lemma onlySent_trans : forall a b c,
  onlySent a b -> onlySent b c -> onlySent a c.
Proof.
  intros a b c [es1 [ps1 [er1 Hb]]] [es2 [ps2 [er2 Hc]]].
  exists (es1 ++ es2), (ps1 ++ ps2), (er1 ++ er2).
  rewrite Hc, Hb. cbn. rewrite !app_assoc. reflexivity.
Qed.

Lemma sentCount_onlySent : forall a b, onlySent a b -> sentCount a <= sentCount b.
Proof.
  intros a b [es [ps [er Hb]]]. rewrite Hb. unfold sentCount. cbn.
  rewrite !length_app. lia.
Qed.

Section SendersOnlySent.
Context {P : Peers}.

Lemma sendNotificationEvent_onlySent : forall w e ok w',
  sendNotificationEvent w e = Returned (ok, w') ->
  onlySent w w' /\ sentCount w' <= sentCount w + 1.
Proof.
  intros w e ok w' H. apply sendNotificationEvent_returned in H.
  destruct H as [[-> ->] | [-> [Hc ->]]].
  { split; [apply onlySent_refl | lia]. }
  split.
  - exists [e], [], []. unfold setEvents. rewrite !app_nil_r, Hc.
    destruct w as [? ? ? ? ? ? ? [? ?] [? ?] [? ?] ? ? ? ? ?]. reflexivity.
  - unfold sentCount, setEvents. cbn. rewrite length_app. cbn. lia.
Qed.

Lemma sendPermissionEvent_onlySent : forall w e ok w',
  sendPermissionEvent w e = Returned (ok, w') ->
  onlySent w w' /\ sentCount w' <= sentCount w + 1.
Proof.
  intros w e ok w' H. apply sendPermissionEvent_returned in H.
  destruct H as [[-> ->] | [-> [Hc ->]]].
  { split; [apply onlySent_refl | lia]. }
  split.
  - exists [], [e], []. unfold setPermissionEvents. rewrite !app_nil_r, Hc.
    destruct w as [? ? ? ? ? ? ? [? ?] [? ?] [? ?] ? ? ? ? ?]. reflexivity.
  - unfold sentCount, setPermissionEvents. cbn. rewrite length_app. cbn. lia.
Qed.

Lemma sendError_onlySent : forall w e ok w',
  sendError w e = Returned (ok, w') ->
  onlySent w w' /\ sentCount w' <= sentCount w + 1.
Proof.
  intros w e ok w' H. apply sendError_returned in H.
  destruct H as [[-> ->] | [-> [Hc ->]]].
  { split; [apply onlySent_refl | lia]. }
  split.
  - exists [], [], [e]. unfold setErrors. rewrite !app_nil_r, Hc.
    destruct w as [? ? ? ? ? ? ? [? ?] [? ?] [? ?] ? ? ? ? ?]. reflexivity.
  - unfold sentCount, setErrors. cbn. rewrite length_app. cbn. lia.
Qed.

End SendersOnlySent.

(** [Event_len] is read from four bytes. *)
Lemma readMetadata_Event_len_range : forall buf past i,
  0 <= Event_len (readMetadata buf past i) < 4294967296.
Proof.
  intros buf past i. unfold readMetadata. cbn [Event_len].
  set (bs := peek buf past i (Z.to_nat sizeOfFanotifyEventMetadata)).
  pose proof (leU_range (firstn 4 bs)) as Hr.
  pose proof (firstn_le_length 4 bs) as Hl.
  assert (Hp : 256 ^ Z.of_nat (List.length (firstn 4 bs)) <= 256 ^ 4)
    by (apply Z.pow_le_mono_r; lia).
  change (256 ^ 4) with 4294967296 in Hp. lia.
Qed.

Section DecoderInvariants.
Context `{O : OpConsts} `{D : DecoderHost} {P : Peers}.

Ltac advanced :=
  repeat match goal with
         | E : advance _ _ _ _ _ _ _ = Returned _ |- _ =>
             apply advance_next in E; subst
         end.

Ltac which_send :=
  repeat match goal with
         | E : (if ?c then _ else _) = Returned _ |- _ => destruct c
         end.

Ltac sent_facts :=
  repeat match goal with
         | E : sendError _ _ = Returned _ |- _ =>
             apply sendError_onlySent in E; destruct E as [? ?]
         | E : sendNotificationEvent _ _ = Returned _ |- _ =>
             apply sendNotificationEvent_onlySent in E; destruct E as [? ?]
         | E : sendPermissionEvent _ _ = Returned _ |- _ =>
             apply sendPermissionEvent_onlySent in E; destruct E as [? ?]
         end.

(** One pass through the loop body sends at most one value and changes
    nothing else of the watcher. *)
Lemma loopBody_onlySent : forall buf s md r,
  loopBody buf s md = Returned r ->
  onlySent (ds_w s) (resultWatcher r)
  /\ sentCount (resultWatcher r) <= sentCount (ds_w s) + 1.
Proof.
  intros buf s md r H. unfold loopBody, classicBranch, fidBranch in H.
  crack H; advanced; try (inversion H; subst); cbn [resultWatcher ds_w];
    which_send; sent_facts;
    first [ split; [assumption | assumption]
          | split; [apply onlySent_refl | lia] ].
Qed.

Lemma decodeLoop_onlySent : forall fuel buf s r w',
  decodeLoop fuel buf s = Returned r ->
  loopWatcher r = Some w' ->
  onlySent (ds_w s) w'.
Proof.
  induction fuel as [| fuel IH]; intros buf s r w' H Hw; cbn [decodeLoop] in H.
  - inversion H; subst. discriminate.
  - destruct (loopGuard buf s) as [md |] eqn:Hg.
    + destruct (loopBody buf s md) as [[s' | err w] | |] eqn:Hb;
        cbn [bindO] in H; [| | discriminate | discriminate].
      * apply loopBody_onlySent in Hb. cbn [resultWatcher] in Hb.
        destruct Hb as [Hs _].
        exact (onlySent_trans _ _ _ Hs (IH _ _ _ _ H Hw)).
      * inversion H; subst. cbn in Hw. inversion Hw; subst.
        apply loopBody_onlySent in Hb. cbn [resultWatcher] in Hb.
        exact (proj1 Hb).
    + inversion H; subst. cbn in Hw. inversion Hw; subst.
      apply onlySent_refl.
Qed.

(** With an [int] of 64 bits, a record that the guard lets through is at
    most as long as the bytes left, and handling it leaves fewer. *)
Lemma loopGuard_bounds_64 : forall buf s md,
  intSize = Int64 -> ds_n s < 2 ^ 63 ->
  loopGuard buf s = Some md ->
  sizeOfFanotifyEventMetadata <= Event_len md <= ds_n s
  /\ wrapInt intSize (ds_n s - wrapInt intSize (Event_len md))
     = ds_n s - Event_len md.
Proof.
  intros buf s md H64 Hn Hg. apply loopGuard_bounds in Hg.
  destruct Hg as [Hmd [Hn24 [He24 Hle]]].
  pose proof (readMetadata_Event_len_range buf memoryPast (ds_i s)) as Hr.
  rewrite <- Hmd in Hr. rewrite H64 in *.
  unfold sizeOfFanotifyEventMetadata in *.
  change (2 ^ 63) with 9223372036854775808 in Hn.
  assert (Hw : wrapInt Int64 (Event_len md) = Event_len md).
  { apply wrapInt_small. cbn [intBits].
    change (2 ^ (64 - 1)) with 9223372036854775808. lia. }
  rewrite Hw in *. split; [lia |].
  apply wrapInt_small. cbn [intBits].
  change (2 ^ (64 - 1)) with 9223372036854775808. lia.
Qed.

(** With an [int] of 64 bits the loop over one buffer does not go round
    for ever: run with more fuel than bytes left it never runs out of fuel
    (it ends by the guard, a return or a panic, or it waits in a send),
    because every record the guard lets through is at least 24 and at most
    [n] bytes long and every way back to the guard takes that length off
    [n]. *)
Lemma decodeLoop_enough_fuel : forall fuel buf s,
  intSize = Int64 -> ds_n s < 2 ^ 63 ->
  (Z.to_nat (ds_n s) < fuel)%nat ->
  ranOutOfFuel (decodeLoop fuel buf s) = false.
Proof.
  induction fuel as [| fuel IH]; intros buf s H64 Hn Hfuel; [lia |].
  cbn [decodeLoop].
  destruct (loopGuard buf s) as [md |] eqn:Hg; [| reflexivity].
  destruct (loopBody buf s md) as [[s' | err w] | |] eqn:Hb; cbn [bindO];
    try reflexivity.
  destruct (loopGuard_bounds_64 _ _ _ H64 Hn Hg) as [Hlen Hleft].
  apply loopBody_bytes_left in Hb. rewrite Hleft in Hb.
  unfold sizeOfFanotifyEventMetadata in Hlen.
  apply IH; [exact H64 | lia | lia].
Qed.

Lemma decodeLoop_sentCount : forall fuel buf s r w',
  intSize = Int64 -> ds_n s < 2 ^ 63 ->
  decodeLoop fuel buf s = Returned r ->
  loopWatcher r = Some w' ->
  24 * (sentCount w' - sentCount (ds_w s)) <= Z.max 0 (ds_n s).
Proof.
  induction fuel as [| fuel IH]; intros buf s r w' H64 Hn H Hw;
    cbn [decodeLoop] in H.
  - inversion H; subst. discriminate.
  - destruct (loopGuard buf s) as [md |] eqn:Hg.
    + destruct (loopGuard_bounds_64 _ _ _ H64 Hn Hg) as [Hlen Hleft].
      unfold sizeOfFanotifyEventMetadata in Hlen.
      destruct (loopBody buf s md) as [[s' | err w] | |] eqn:Hb;
        cbn [bindO] in H; [| | discriminate | discriminate].
      * pose proof (loopBody_bytes_left _ _ _ _ Hb) as Hn'.
        rewrite Hleft in Hn'.
        apply loopBody_onlySent in Hb. cbn [resultWatcher] in Hb.
        destruct Hb as [_ Hc].
        assert (Hn2 : ds_n s' < 2 ^ 63) by lia.
        pose proof (IH _ _ _ _ H64 Hn2 H Hw) as Hc'. lia.
      * inversion H; subst. cbn in Hw. inversion Hw; subst.
        apply loopBody_onlySent in Hb. cbn [resultWatcher] in Hb.
        destruct Hb as [_ Hc]. lia.
    + inversion H; subst. cbn in Hw. inversion Hw; subst. lia.
Qed.

(** X9. A run of the decode loop only ever sends: at its end the watcher is
    the one it started with, except that values were appended to its three
    streams; no stream is closed, nothing sent before is lost or moved, and
    no other field changes. *)
Theorem decodeLoop_only_sends : forall fuel buf s r w',
  decodeLoop fuel buf s = Returned r ->
  loopWatcher r = Some w' ->
  onlySent (ds_w s) w'.
Proof.
  intros fuel buf s r w' H Hw.
  exact (decodeLoop_onlySent fuel buf s r w' H Hw).
Qed.

(** X10. Where [int] has 64 bits, a read of [n] bytes yields at most
    [n / 24] values on the three streams together: 24 times the number of
    events and errors sent during the loop is at most the bytes read. *)
Theorem decodeLoop_sends_at_most : forall fuel buf s r w',
  intSize = Int64 ->
  ds_n s < 2 ^ 63 ->
  decodeLoop fuel buf s = Returned r ->
  loopWatcher r = Some w' ->
  24 * (sentCount w' - sentCount (ds_w s)) <= Z.max 0 (ds_n s).
Proof.
  intros fuel buf s r w' H64 Hn H Hw.
  exact (decodeLoop_sentCount fuel buf s r w' H64 Hn H Hw).
Qed.

Lemma send_closed : forall w e1 e2 e3,
  isClosed w = true ->
  sendNotificationEvent w e1 = Returned (false, w)
  /\ sendPermissionEvent w e2 = Returned (false, w)
  /\ sendError w e3 = Returned (false, w).
Proof.
  intros w e1 e2 e3 Hc.
  unfold sendNotificationEvent, sendPermissionEvent, sendError.
  rewrite Hc. repeat split.
Qed.

Ltac closed_sends Hc :=
  repeat match goal with
         | E : sendError ?w ?e = Returned _ |- _ =>
             rewrite (proj2 (proj2 (send_closed w
                        (mkFanotifyEvent (mkEvent "" 0) 0 0)
                        (mkFanotifyEvent (mkEvent "" 0) 0 0) e Hc))) in E;
             inversion E; subst; clear E
         | E : sendNotificationEvent ?w ?e = Returned _ |- _ =>
             rewrite (proj1 (send_closed w e e (Errno 0) Hc)) in E;
             inversion E; subst; clear E
         | E : sendPermissionEvent ?w ?e = Returned _ |- _ =>
             rewrite (proj1 (proj2 (send_closed w e e (Errno 0) Hc))) in E;
             inversion E; subst; clear E
         end.

Lemma loopBody_closed : forall buf s md r,
  isClosed (ds_w s) = true ->
  loopBody buf s md = Returned r ->
  resultWatcher r = ds_w s.
Proof.
  intros buf s md r Hc H. unfold loopBody, classicBranch, fidBranch in H.
  crack H; advanced; try (inversion H; subst); cbn [resultWatcher ds_w];
    which_send; closed_sends Hc; reflexivity.
Qed.

(** X11. On a closed watcher the decode loop delivers nothing: whatever the
    buffer holds, the watcher at the end of the run is the watcher it
    started with. *)
Theorem decodeLoop_closed_watcher : forall fuel buf s r w',
  isClosed (ds_w s) = true ->
  decodeLoop fuel buf s = Returned r ->
  loopWatcher r = Some w' ->
  w' = ds_w s.
Proof.
  induction fuel as [| fuel IH]; intros buf s r w' Hc H Hw;
    cbn [decodeLoop] in H.
  - inversion H; subst. discriminate.
  - destruct (loopGuard buf s) as [md |].
    + destruct (loopBody buf s md) as [[s' | err w] | |] eqn:Hb;
        cbn [bindO] in H; [| | discriminate | discriminate].
      * apply (loopBody_closed _ _ _ _ Hc) in Hb. cbn [resultWatcher] in Hb.
        rewrite <- Hb. apply (IH buf s' r w'); [rewrite Hb; exact Hc | | ];
          assumption.
      * apply (loopBody_closed _ _ _ _ Hc) in Hb. cbn [resultWatcher] in Hb.
        inversion H; subst. cbn in Hw. inversion Hw; subst. reflexivity.
    + inversion H; subst. cbn in Hw. inversion Hw; reflexivity.
Qed.

End DecoderInvariants.

(** ** Shutdown *)

Section Shutdown.
Context {P : Peers}.

(** X12. The first [closeFanotify] on a watcher whose channels are open
    returns when [unix.Close] succeeded, and when it failed and a receiver
    takes its error from Errors: the watcher is then closed, its four
    channels are closed, what had been sent on the event streams is still
    there, the error stream has gained the error of closing the descriptor
    if there was one, and the first two system calls are the write of
    "stop" on the stopper pipe and the close of the notification
    descriptor.  When [unix.Close] failed and no goroutine receives on
    Errors, the call does not return: it waits in the send. *)
Theorem closeFanotify_first_call : forall closeErr w,
  closeOnce w = false ->
  ch_closed (done w) = false ->
  ch_closed (Events w) = false ->
  ch_closed (PermissionEvents w) = false ->
  ch_closed (Errors w) = false ->
  (closeErr = None \/ takesError (ch_sent (Errors w)) = true ->
   exists w' t,
     closeFanotify closeErr w = Returned (w', t)
     /\ isClosed w' = true /\ closeOnce w' = true
     /\ ch_closed (done w') = true
     /\ ch_closed (Events w') = true
     /\ ch_closed (PermissionEvents w') = true
     /\ ch_closed (Errors w') = true
     /\ ch_sent (Events w') = ch_sent (Events w)
     /\ ch_sent (PermissionEvents w') = ch_sent (PermissionEvents w)
     /\ ch_sent (Errors w')
        = ch_sent (Errors w)
          ++ match closeErr with Some e => [Errno e] | None => [] end
     /\ firstn 2 t
        = [SysWrite (fileFd (stopper_w w)) "stop"; SysClose (w_fd w)])
  /\ (closeErr <> None -> takesError (ch_sent (Errors w)) = false ->
      closeFanotify closeErr w = Blocked).
Proof.
  intros closeErr w Hone Hd He Hp Hr.
  unfold closeFanotify, closeFanotifyBody. rewrite Hone.
  unfold closeChan, sendChan. rewrite Hd, He, Hp, Hr. cbn [bindO].
  split.
  - intros Hok.
    destruct (fileCloseNilable (mountPointFile w)) as [mp t3].
    destruct (fileClose (stopper_r w)) as [sr t4].
    destruct (fileClose (stopper_w w)) as [sw t5].
    destruct closeErr as [e |].
    + destruct Hok as [Hnone | Htakes]; [discriminate |].
      rewrite Htakes. cbn [bindO ch_closed ch_sent].
      eexists; eexists; (split; [reflexivity |]);
        cbn; rewrite ?app_nil_r; repeat split.
    + cbn [bindO ch_closed ch_sent]. rewrite Hr. cbn [bindO].
      eexists; eexists; (split; [reflexivity |]);
        cbn; rewrite ?app_nil_r; repeat split.
  - intros Hsome Hnone. destruct closeErr as [e |]; [| contradiction].
    rewrite Hnone. reflexivity.
Qed.

(** The body of the shutdown leaves the watcher marked closed. *)
Lemma closeFanotify_marks_closed : forall closeErr w w' t,
  closeOnce w = false ->
  closeFanotify closeErr w = Returned (w', t) ->
  isClosed w' = true.
Proof.
  intros closeErr w w' t Hone H. unfold closeFanotify in H. rewrite Hone in H.
  unfold closeFanotifyBody in H.
  destruct (closeChan (done w)); cbn [bindO] in H;
    [| discriminate | discriminate].
  destruct (match closeErr with
            | Some e => sendChan _ (Errors w) (Errno e)
            | None => Returned (Errors w)
            end); cbn [bindO] in H; [| discriminate | discriminate].
  destruct (fileCloseNilable (mountPointFile w)).
  destruct (fileClose (stopper_r w)).
  destruct (fileClose (stopper_w w)).
  destruct (closeChan (Events w)); cbn [bindO] in H;
    [| discriminate | discriminate].
  destruct (closeChan (PermissionEvents w)); cbn [bindO] in H;
    [| discriminate | discriminate].
  destruct (closeChan _); cbn [bindO] in H; [| discriminate | discriminate].
  inversion H; reflexivity.
Qed.

(** X13. After the shutdown nothing is sent any more: each of the three
    senders gives up with [false], leaves the watcher as it is and does not
    panic on the closed channels. *)
Theorem no_send_after_closeFanotify : forall closeErr w w' t event err,
  closeOnce w = false ->
  closeFanotify closeErr w = Returned (w', t) ->
  sendNotificationEvent w' event = Returned (false, w')
  /\ sendPermissionEvent w' event = Returned (false, w')
  /\ sendError w' err = Returned (false, w').
Proof.
  intros closeErr w w' t event err Hone H.
  apply (closeFanotify_marks_closed _ _ _ _ Hone) in H.
  unfold sendNotificationEvent, sendPermissionEvent, sendError.
  rewrite H. repeat split.
Qed.

End Shutdown.

Lemma closeFanotify_first_call_witness :
  (exists w' t,
     @closeFanotify readyPeers (Some 9) boundWatcher = Returned (w', t)
     /\ isClosed w' = true /\ closeOnce w' = true
     /\ ch_closed (done w') = true
     /\ ch_closed (Events w') = true
     /\ ch_closed (PermissionEvents w') = true
     /\ ch_closed (Errors w') = true
     /\ ch_sent (Events w') = ch_sent (Events boundWatcher)
     /\ ch_sent (PermissionEvents w')
        = ch_sent (PermissionEvents boundWatcher)
     /\ ch_sent (Errors w') = ch_sent (Errors boundWatcher) ++ [Errno 9]
     /\ firstn 2 t = [SysWrite 5 "stop"; SysClose 3])
  /\ @closeFanotify noPeers (Some 9) boundWatcher = Blocked.
Proof.
  split.
  - exact (proj1 (@closeFanotify_first_call readyPeers (Some 9) boundWatcher
                    eq_refl eq_refl eq_refl eq_refl eq_refl)
             (or_intror eq_refl)).
  - exact (proj2 (@closeFanotify_first_call noPeers (Some 9) boundWatcher
                    eq_refl eq_refl eq_refl eq_refl eq_refl)
             ltac:(discriminate) eq_refl).
Defined.

(** ** Kernel probe *)


(** ** Adding paths *)

Section AddPath.
Context `{M : MarkHost} {P : Peers}.

(** X14. Once the watcher has been shut down, adding a path fails with
    [ErrClosed]: no system call is issued and nothing changes, whether or
    not a mount had been bound. *)
Theorem fanotifyAddPath_after_closeFanotify :
  forall closeErr w w' t eventTypes once path,
  closeOnce w = false ->
  closeFanotify closeErr w = Returned (w', t) ->
  fanotifyAddPath eventTypes (mkMounted w' once) path
  = (Returned (Some ErrClosed, mkMounted w' once), []).
Proof.
  intros closeErr w w' t eventTypes once path Hone H.
  apply (closeFanotify_marks_closed _ _ _ _ Hone) in H.
  unfold fanotifyAddPath. cbn [mw_w]. rewrite H. reflexivity.
Qed.

Lemma fanotifyMark_trace : forall order markErr w path flags mask r t,
  fanotifyMark order markErr w path flags mask = (Returned r, t) ->
  (r = Some ErrInvalidFlagCombination /\ t = [])
  \/ (t = [SysFanotifyMark (w_fd w) flags mask (-1) path]
      /\ r = match markErr with Some e => Some (Errno e) | None => None end).
Proof.
  intros order markErr w path flags mask r t H. unfold fanotifyMark in H.
  destruct (fanotifyMarkFlagsKernelSupport _ _ _ _); cbn [negb] in H;
    [| discriminate].
  destruct (isFanotifyMarkMaskValid flags mask); cbn [negb] in H.
  - right. destruct markErr; inversion H; subst; split; reflexivity.
  - left. inversion H; subst; split; reflexivity.
Qed.

(** What the mount resolution of the first add leaves behind: the watcher
    as it was, after the calls on the mount table and perhaps a failed open
    of the mount point; or the watcher bound to the mount point that
    opened, after the open and the close of the table and that open. *)
Lemma bindMountPoint_returned : forall w path w' t,
  bindMountPoint w path = (Returned w', t) ->
  (w' = w
   /\ (t = resolverCalls \/ exists mp, t = resolverCalls ++ [SysOpen mp]))
  \/ (exists mp f devID,
        mh_Open mp = inr f /\ w' = setMount w f devID
        /\ t = [SysOpen "/etc/fstab"; SysClose mh_fstabFd; SysOpen mp]).
Proof.
  intros w path w' t H. unfold bindMountPoint in H.
  destruct (getMountPointForPath mh_Fields mh_Stat mh_fstab path)
    as [[[mp devID] [e |]] | |] eqn:Hg; try discriminate.
  - inversion H; subst. left. split; [reflexivity | left; reflexivity].
  - assert (Hcalls : resolverCalls
                     = [SysOpen "/etc/fstab"; SysClose mh_fstabFd]).
    { unfold resolverCalls. unfold getMountPointForPath in Hg.
      destruct mh_fstab; [discriminate | reflexivity]. }
    destruct (mh_Open mp) as [e | f] eqn:Ho; inversion H; subst.
    + left. split; [reflexivity | right; eexists; reflexivity].
    + right. exists mp, f, devID. rewrite Hcalls.
      repeat split; [exact Ho].
Qed.

Lemma bindMountPoint_keeps : forall w path w' t,
  bindMountPoint w path = (Returned w', t) ->
  w' = w \/ exists f devID, w' = setMount w f devID.
Proof.
  intros w path w' t H. apply bindMountPoint_returned in H.
  destruct H as [[-> _] | [mp [f [devID [_ [-> _]]]]]];
    [left; reflexivity | right; eexists; eexists; reflexivity].
Qed.

(** The system calls of the mount resolution are opens, and the close of
    the mount table. *)
Lemma resolverCalls_kinds : forall c,
  In c resolverCalls -> (exists p, c = SysOpen p) \/ c = SysClose mh_fstabFd.
Proof.
  intros c Hin. unfold resolverCalls in Hin.
  destruct mh_fstab; cbn in Hin.
  - destruct Hin as [<- | []]. left; eexists; reflexivity.
  - destruct Hin as [<- | [<- | []]];
      [left; eexists; reflexivity | right; reflexivity].
Qed.


(** X16. The mount is bound by the first add only: an add on a watcher
    whose mount binding has run leaves the watcher exactly as it was,
    whatever it returns, and after any add on an open watcher the binding
    counts as having run, also when it failed. *)
Theorem fanotifyAddPath_binds_once : forall eventTypes mw path err mw' t,
  fanotifyAddPath eventTypes mw path = (Returned (err, mw'), t) ->
  (findMountPoint mw = true -> mw' = mw)
  /\ (isClosed (mw_w mw) = false -> findMountPoint mw' = true)
  /\ (mw_w mw' = mw_w mw
      \/ exists f devID, mw_w mw' = setMount (mw_w mw) f devID).
Proof.
  intros eventTypes mw path err mw' t H. unfold fanotifyAddPath in H.
  destruct (isClosed (mw_w mw)) eqn:Hc.
  { inversion H; subst. repeat split; try discriminate; auto. }
  assert (Hres : forall w t0,
    (if findMountPoint mw then (Returned (mw_w mw), [])
     else bindMountPoint (mw_w mw) path) = (Returned w, t0) ->
    mw' = mkMounted w true ->
    (findMountPoint mw = true -> mw' = mw)
    /\ (false = false -> findMountPoint mw' = true)
    /\ (mw_w mw' = mw_w mw
        \/ exists f devID, mw_w mw' = setMount (mw_w mw) f devID)).
  { intros w t0 Hb ->. cbn [mw_w findMountPoint].
    destruct (findMountPoint mw) eqn:Hf.
    - inversion Hb; subst. repeat split; auto.
      intros _. destruct mw as [w0 f0]. cbn in *. subst. reflexivity.
    - repeat split; try discriminate; auto.
      apply bindMountPoint_keeps in Hb. exact Hb. }
  destruct (if findMountPoint mw then (Returned (mw_w mw), [])
            else bindMountPoint (mw_w mw) path) as [[w | |] t0] eqn:Hb;
    try discriminate.
  apply (Hres w t0 eq_refl).
  destruct (checkPathUnderMountPoint w path) as [inMount [e |]].
  { inversion H; reflexivity. }
  destruct inMount; cbn [negb] in H.
  - destruct (fanotifyMark mh_order mh_markErr w path FAN_MARK_ADD
                (Z.lor eventTypes FAN_EVENT_ON_CHILD)) as [[[e |] | |] t'];
      inversion H; reflexivity.
  - inversion H; reflexivity.
Qed.

(** X17. With the mount bound, a path on another device is turned down
    with [ErrMountPoint] before any mark: no system call is issued and the
    watcher stays as it is. *)
Theorem fanotifyAddPath_other_device : forall eventTypes mw path dev,
  isClosed (mw_w mw) = false ->
  findMountPoint mw = true ->
  mh_Stat path = inr dev ->
  dev <> mountDeviceID (mw_w mw) ->
  fanotifyAddPath eventTypes mw path
  = (Returned (Some ErrMountPoint, mw), []).
Proof.
  intros eventTypes mw path dev Hc Hf Hs Hd. unfold fanotifyAddPath.
  rewrite Hc, Hf. unfold checkPathUnderMountPoint. rewrite Hs.
  destruct (Z.eqb_spec dev (mountDeviceID (mw_w mw))); [contradiction |].
  cbn [negb]. destruct mw as [w f]. cbn in *. subst. reflexivity.
Qed.

End AddPath.

(** ** Mount resolver, whatever the table *)

Section ResolverSound.

Variable Fields : string -> list string.
Variable Stat : string -> Z + Z.

Lemma index_nth_error : forall (A : Type) (l : list A) i a,
  index l i = Returned a -> nth_error l (Z.to_nat i) = Some a.
Proof.
  intros A l i a H. unfold index in H.
  destruct (i <? 0); [discriminate |].
  destruct (nth_error l (Z.to_nat i)); inversion H; reflexivity.
Qed.

Lemma scanLine_found : forall text dev fsErr mp,
  scanLine Fields Stat text dev fsErr = Returned (inl mp) ->
  matchingRecord Fields Stat dev text mp.
Proof.
  intros text dev fsErr mp H. unfold scanLine in H.
  unfold matchingRecord, skippedLine.
  destruct (HasPrefixHash (TrimLeft text)); [discriminate |].
  destruct ((TrimLeft text =? "")%string); [discriminate |].
  destruct (index (Fields (TrimLeft text)) 2) as [f2 | |] eqn:H2;
    cbn [bindO] in H; [| discriminate | discriminate].
  destruct (String.eqb_spec f2 "swap") as [Hsw | Hsw]; [discriminate |].
  destruct (index (Fields (TrimLeft text)) 1) as [f1 | |] eqn:H1;
    cbn [bindO] in H; [| discriminate | discriminate].
  destruct (Stat f1) as [e | d] eqn:Hst; [discriminate |].
  destruct (Z.eqb_spec dev d) as [Hd | Hd]; [| discriminate].
  inversion H; subst.
  apply index_nth_error in H1, H2.
  split; [reflexivity |]. split; [exact H1 |].
  split; [exists f2; split; [exact H2 | exact Hsw] | exact Hst].
Qed.

Lemma scanLoop_found : forall lines dev fsErr mp,
  scanLoop Fields Stat lines dev fsErr = Returned (inl mp) ->
  exists text, In text lines /\ matchingRecord Fields Stat dev text mp.
Proof.
  induction lines as [| text rest IH]; intros dev fsErr mp H;
    cbn [scanLoop] in H.
  - discriminate.
  - destruct (scanLine Fields Stat text dev fsErr) as [[mp' | fsErr'] | |]
      eqn:Hl; cbn [bindO] in H; [| | discriminate | discriminate].
    + inversion H; subst. exists text. split; [left; reflexivity |].
      exact (scanLine_found _ _ _ _ Hl).
    + destruct (IH _ _ _ H) as [t [Hin Hm]].
      exists t. split; [right; exact Hin | exact Hm].
Qed.

(** X19. Whatever the mount table holds, a mount point that the resolver
    returns without an error is on the device of the path: it is the
    second field of a line of the table that is neither empty nor a
    comment, whose third field is not swap, and its stat gives the device
    id that is returned, which is the one of the path. *)
Theorem getMountPointForPath_sound : forall fstab path mp dev,
  getMountPointForPath Fields Stat fstab path = Returned (mp, dev, None) ->
  Stat path = inr dev
  /\ exists sc text,
       fstab = inr sc /\ In text (scan_lines sc)
       /\ matchingRecord Fields Stat dev text mp.
Proof.
  intros fstab path mp dev H. unfold getMountPointForPath in H.
  destruct fstab as [e | sc]; [discriminate |].
  destruct (Stat path) as [e | d] eqn:Hs; [discriminate |].
  destruct (scanLoop Fields Stat (scan_lines sc) d None) as [[m | fsErr] | |]
    eqn:Hl; cbn [bindO] in H; [| | discriminate | discriminate].
  - inversion H; subst. split; [reflexivity |].
    destruct (scanLoop_found _ _ _ _ Hl) as [text [Hin Hm]].
    exists sc, text. split; [reflexivity | split; assumption].
  - destruct (scan_err sc); [discriminate |].
    destruct fsErr; discriminate.
Qed.

Lemma scanLine_skipped : forall text dev fsErr,
  skippedLine text = true ->
  scanLine Fields Stat text dev fsErr = Returned (inr fsErr).
Proof.
  intros text dev fsErr H. unfold scanLine, skippedLine in *.
  destruct (HasPrefixHash (TrimLeft text)); [reflexivity |].
  cbn [orb] in H. rewrite H. reflexivity.
Qed.

Lemma scanLoop_without_skipped : forall lines dev fsErr,
  scanLoop Fields Stat (filter (fun t => negb (skippedLine t)) lines)
    dev fsErr
  = scanLoop Fields Stat lines dev fsErr.
Proof.
  induction lines as [| text rest IH]; intros dev fsErr; cbn [filter scanLoop].
  - reflexivity.
  - destruct (skippedLine text) eqn:Hsk; cbn [negb].
    + rewrite (scanLine_skipped _ _ _ Hsk). cbn [bindO]. apply IH.
    + cbn [scanLoop].
      destruct (scanLine Fields Stat text dev fsErr) as [[mp | fsErr'] | |];
        cbn [bindO]; try reflexivity. apply IH.
Qed.

(** X20. Comments and blank lines play no part in the resolution: with the
    lines that are empty or begin with [#] (leading blanks and tabs aside)
    taken out of the table, the resolver gives the same result, be it a
    mount point, an error or a panic. *)
Theorem getMountPointForPath_without_comments : forall lines scanErr path,
  getMountPointForPath Fields Stat
    (inr (mkScan (filter (fun t => negb (skippedLine t)) lines) scanErr))
    path
  = getMountPointForPath Fields Stat (inr (mkScan lines scanErr)) path.
Proof.
  intros lines scanErr path. unfold getMountPointForPath.
  cbn [scan_lines scan_err].
  destruct (Stat path); [reflexivity |].
  rewrite scanLoop_without_skipped. reflexivity.
Qed.

End ResolverSound.

Lemma getMountPointForPath_sound_witness :
  statRootOnly "/home" = inr 1
  /\ exists sc text,
       inr fstabOrdinary = @inr Z fstabScan sc /\ In text (scan_lines sc)
       /\ matchingRecord asciiFields statRootOnly 1 text "/".
Proof.
  exact (getMountPointForPath_sound asciiFields statRootOnly
           (inr fstabOrdinary) "/home" "/" 1 eq_refl).
Defined.

(** ** Permission responses *)

Lemma byteZ_byteOfZ : forall z, byteZ (byteOfZ z) = z mod 256.
Proof.
  intros z. unfold byteZ, byteOfZ.
  pose proof (Z.mod_pos_bound z 256 ltac:(lia)) as Hr.
  destruct (Byte.of_N (Z.to_N (z mod 256))) as [b |] eqn:Hb.
  - apply Byte.to_of_N in Hb. rewrite Hb. apply Z2N.id. lia.
  - apply Byte.of_N_None_iff in Hb. lia.
Qed.

Lemma leU_putLE : forall width v,
  leU (putLE width v) = v mod 256 ^ Z.of_nat width.
Proof.
  induction width as [| width IH]; intros v; cbn [putLE leU].
  - cbn. symmetry. apply Z.mod_1_r.
  - rewrite byteZ_byteOfZ, IH, Nat2Z.inj_succ, Z.pow_succ_r by lia.
    symmetry. apply Z.rem_mul_r; [lia |]. apply Z.pow_pos_nonneg; lia.
Qed.

Lemma length_putLE : forall width v, List.length (putLE width v) = width.
Proof.
  induction width as [| width IH]; intros v; cbn [putLE List.length];
    [reflexivity | rewrite IH; reflexivity].
Qed.

Lemma signed32_wrap32 : forall z,
  -2147483648 <= z < 2147483648 -> signed32 (wrap32 z) = z.
Proof.
  intros z Hz. unfold signed32, wrap32.
  change (2 ^ 32) with 4294967296. change (2 ^ 31) with 2147483648.
  destruct (Z_lt_ge_dec z 0) as [Hneg | Hpos].
  - assert (Hm : z mod 4294967296 = z + 4294967296).
    { symmetry. apply (Z.mod_unique _ _ (-1)); lia. }
    rewrite Hm. destruct (Z.ltb_spec (z + 4294967296) 2147483648); lia.
  - rewrite Z.mod_small by lia.
    destruct (Z.ltb_spec z 2147483648); lia.
Qed.

(** X21. The response that [Allow] and [Deny] write goes to the
    notification descriptor and is eight bytes long; read back as the
    kernel reads it, little-endian, its first four bytes are the descriptor
    of the event (for every descriptor that fits an int32) and its last
    four are FAN_ALLOW for [Allow] and FAN_DENY for [Deny]. *)
Theorem Allow_Deny_response : forall w e,
  -2147483648 <= Fd e < 2147483648 ->
  Allow w e
  = [SysWrite (fw_fd w)
       (string_of_list_byte (responseBytes (Fd e) FAN_ALLOW))]
  /\ Deny w e
     = [SysWrite (fw_fd w)
          (string_of_list_byte (responseBytes (Fd e) FAN_DENY))]
  /\ List.length (responseBytes (Fd e) FAN_ALLOW) = 8%nat
  /\ List.length (responseBytes (Fd e) FAN_DENY) = 8%nat
  /\ signed32 (leU (firstn 4 (responseBytes (Fd e) FAN_ALLOW))) = Fd e
  /\ signed32 (leU (firstn 4 (responseBytes (Fd e) FAN_DENY))) = Fd e
  /\ leU (skipn 4 (responseBytes (Fd e) FAN_ALLOW)) = FAN_ALLOW
  /\ leU (skipn 4 (responseBytes (Fd e) FAN_DENY)) = FAN_DENY.
Proof.
  intros w e Hfd. unfold Allow, Deny, responseBytes.
  assert (Hw : leU (putLE 4 (wrap32 (Fd e))) = wrap32 (Fd e)).
  { rewrite leU_putLE. change (256 ^ Z.of_nat 4) with 4294967296.
    apply Z.mod_small. pose proof (wrap32_range (Fd e)). lia. }
  split; [reflexivity |]. split; [reflexivity |].
  split; [rewrite length_app, !length_putLE; reflexivity |].
  split; [rewrite length_app, !length_putLE; reflexivity |].
  split; [| split; [| split]].
  - rewrite firstn_app, length_putLE, Nat.sub_diag, firstn_O, app_nil_r.
    rewrite firstn_all2 by (rewrite length_putLE; lia).
    rewrite Hw. apply signed32_wrap32, Hfd.
  - rewrite firstn_app, length_putLE, Nat.sub_diag, firstn_O, app_nil_r.
    rewrite firstn_all2 by (rewrite length_putLE; lia).
    rewrite Hw. apply signed32_wrap32, Hfd.
  - rewrite skipn_app, length_putLE, Nat.sub_diag, skipn_O.
    rewrite skipn_all2 by (rewrite length_putLE; lia). reflexivity.
  - rewrite skipn_app, length_putLE, Nat.sub_diag, skipn_O.
    rewrite skipn_all2 by (rewrite length_putLE; lia). reflexivity.
Qed.

Lemma Allow_Deny_response_witness :
  signed32
    (leU (firstn 4 (responseBytes
                      (Fd (mkFanotifyEvent (mkEvent "/mnt/data/bar" 0x200)
                             7 100)) FAN_ALLOW))) = 7.
Proof.
  exact (proj1 (proj2 (proj2 (proj2 (proj2
           (Allow_Deny_response freshFanotifyWatcher
              (mkFanotifyEvent (mkEvent "/mnt/data/bar" 0x200) 7 100)
              ltac:(cbn; lia))))))).
Defined.

(** ** The further properties at concrete inputs *)

Lemma decodeLoop_only_sends_witness : onlySent boundWatcher afterTwoUnnamed.
Proof.
  apply (@decodeLoop_only_sends iotaOps dataHost readyPeers 3 bufTwoUnnamed
           (mkDecState 0 112 "" boundWatcher)
           (LoopDone (mkDecState 112 0 "" afterTwoUnnamed))
           afterTwoUnnamed).
  - vm_compute. reflexivity.
  - reflexivity.
Defined.

Lemma decodeLoop_sends_at_most_witness :
  24 * (sentCount afterTwoUnnamed - sentCount boundWatcher) <= Z.max 0 112.
Proof.
  apply (@decodeLoop_sends_at_most iotaOps dataHost readyPeers 3
           bufTwoUnnamed (mkDecState 0 112 "" boundWatcher)
           (LoopDone (mkDecState 112 0 "" afterTwoUnnamed))
           afterTwoUnnamed).
  - reflexivity.
  - reflexivity.
  - vm_compute. reflexivity.
  - reflexivity.
Defined.

Lemma decodeLoop_closed_watcher_witness :
  closedWatcher = ds_w (mkDecState 0 112 "" closedWatcher).
Proof.
  apply (@decodeLoop_closed_watcher iotaOps dataHost readyPeers 3 bufTwoUnnamed
           (mkDecState 0 112 "" closedWatcher)
           (LoopReturn None closedWatcher) closedWatcher).
  - reflexivity.
  - vm_compute. reflexivity.
  - reflexivity.
Defined.

Lemma no_send_after_closeFanotify_witness :
  @sendNotificationEvent readyPeers closedWatcher
    (mkFanotifyEvent (mkEvent "/mnt/data/bar" 0x80) 7 100)
  = Returned (false, closedWatcher)
  /\ @sendPermissionEvent readyPeers closedWatcher
       (mkFanotifyEvent (mkEvent "/mnt/data/bar" 0x80) 7 100)
     = Returned (false, closedWatcher)
  /\ @sendError readyPeers closedWatcher (Errno 9)
     = Returned (false, closedWatcher).
Proof.
  apply (@no_send_after_closeFanotify readyPeers None boundWatcher
           closedWatcher
           [SysWrite 5 "stop"; SysClose 3; SysClose 6; SysClose 4;
            SysClose 5]).
  - reflexivity.
  - vm_compute. reflexivity.
Defined.

Lemma fanotifyAddPath_after_closeFanotify_witness :
  @fanotifyAddPath homeHost FAN_CREATE (mkMounted closedWatcher true) "/home"
  = (Returned (Some ErrClosed, mkMounted closedWatcher true), []).
Proof.
  apply (@fanotifyAddPath_after_closeFanotify homeHost readyPeers None
           boundWatcher closedWatcher
           [SysWrite 5 "stop"; SysClose 3; SysClose 6; SysClose 4;
            SysClose 5]).
  - reflexivity.
  - vm_compute. reflexivity.
Defined.


Lemma fanotifyAddPath_binds_once_witness :
  (true = true ->
   mkMounted boundWatcher true = mkMounted boundWatcher true)
  /\ (isClosed boundWatcher = false -> true = true)
  /\ (boundWatcher = boundWatcher
      \/ exists f devID, boundWatcher = setMount boundWatcher f devID).
Proof.
  exact (@fanotifyAddPath_binds_once homeHost FAN_CREATE
           (mkMounted boundWatcher true) "/home" None
           (mkMounted boundWatcher true)
           [SysFanotifyMark 3 FAN_MARK_ADD
              (Z.lor FAN_CREATE FAN_EVENT_ON_CHILD) (-1) "/home"]
           eq_refl).
Defined.

Lemma fanotifyAddPath_other_device_witness :
  @fanotifyAddPath otherDeviceHost FAN_CREATE (mkMounted boundWatcher true)
    "/p"
  = (Returned (Some ErrMountPoint, mkMounted boundWatcher true), []).
Proof.
  apply (@fanotifyAddPath_other_device otherDeviceHost FAN_CREATE
           (mkMounted boundWatcher true) "/p" 7).
  - reflexivity.
  - reflexivity.
  - reflexivity.
  - discriminate.
Defined.

(** ** Marks *)

(** X22. [fanotifyMark] reports success only after the kernel has taken
    the mark: a [nil] result means that the support check and the mask
    validation passed and that exactly one fanotify_mark call was issued,
    for the watcher's descriptor with the flags, mask and path given, and
    answered without an error. *)
Theorem fanotifyMark_success : forall order markErr w path flags mask t,
  fanotifyMark order markErr w path flags mask = (Returned None, t) ->
  markErr = None
  /\ t = [SysFanotifyMark (w_fd w) flags mask (-1) path]
  /\ fanotifyMarkFlagsKernelSupport order mask
       (kernelMajorVersion w) (kernelMinorVersion w) = true
  /\ isFanotifyMarkMaskValid flags mask = true.
Proof.
  intros order markErr w path flags mask t H. unfold fanotifyMark in H.
  destruct (fanotifyMarkFlagsKernelSupport order mask
              (kernelMajorVersion w) (kernelMinorVersion w));
    cbn [negb] in H; [| discriminate].
  destruct (isFanotifyMarkMaskValid flags mask); cbn [negb] in H;
    [| discriminate].
  destruct markErr; inversion H; subst. repeat split.
Qed.

Lemma fanotifyMark_success_witness :
  @None Z = None
  /\ [SysFanotifyMark 3 FAN_MARK_ADD FAN_CREATE (-1) "/home"]
     = [SysFanotifyMark (w_fd (freshWatcher 5 15)) FAN_MARK_ADD FAN_CREATE
          (-1) "/home"]
  /\ fanotifyMarkFlagsKernelSupport fanotifyMarkFlags FAN_CREATE
       (kernelMajorVersion (freshWatcher 5 15))
       (kernelMinorVersion (freshWatcher 5 15)) = true
  /\ isFanotifyMarkMaskValid FAN_MARK_ADD FAN_CREATE = true.
Proof.
  exact (fanotifyMark_success fanotifyMarkFlags None (freshWatcher 5 15)
           "/home" FAN_MARK_ADD FAN_CREATE
           [SysFanotifyMark 3 FAN_MARK_ADD FAN_CREATE (-1) "/home"]
           eq_refl).
Defined.

(** X23. [fanotifyRemove] looks at nothing of the watcher but its
    descriptor and its kernel version: it does not ask whether the watcher
    is closed or a mount is bound, so on a closed watcher it does what it
    does on an open one with the same descriptor. *)
Theorem fanotifyRemove_ignores_state :
  forall (M : MarkHost) eventTypes w1 w2 path,
  w_fd w1 = w_fd w2 ->
  kernelMajorVersion w1 = kernelMajorVersion w2 ->
  kernelMinorVersion w1 = kernelMinorVersion w2 ->
  fanotifyRemove eventTypes w1 path = fanotifyRemove eventTypes w2 path.
Proof.
  intros M eventTypes w1 w2 path Hfd Hmaj Hmin.
  unfold fanotifyRemove, fanotifyMark. rewrite Hfd, Hmaj, Hmin. reflexivity.
Qed.

Lemma fanotifyRemove_ignores_state_witness :
  @fanotifyRemove homeHost FAN_CREATE closedWatcher "/home"
  = @fanotifyRemove homeHost FAN_CREATE boundWatcher "/home".
Proof.
  exact (fanotifyRemove_ignores_state homeHost FAN_CREATE closedWatcher
           boundWatcher "/home" eq_refl eq_refl eq_refl).
Defined.

(** ** Shutdown of the public watcher *)

(** X24. The first [Close] of a public watcher whose channels are open
    returns: both event channels are then closed with what had been sent on
    them still there, the first system call is the write of "stop" on the
    stopper pipe and the last one the close of the notification
    descriptor. *)
Theorem FanotifyWatcher_Close_first_call : forall w,
  ch_closed (fw_Events w) = false ->
  ch_closed (fw_PermissionEvents w) = false ->
  exists w' t,
    FanotifyWatcher_Close (Some w) = Returned (Some w', t)
    /\ ch_closed (fw_Events w') = true
    /\ ch_closed (fw_PermissionEvents w') = true
    /\ ch_sent (fw_Events w') = ch_sent (fw_Events w)
    /\ ch_sent (fw_PermissionEvents w') = ch_sent (fw_PermissionEvents w)
    /\ hd_error t = Some (SysWrite (fileFd (fw_stopper_w w)) "stop")
    /\ last t (SysClose (fw_fd w)) = SysClose (fw_fd w)
    /\ In (SysClose (fw_fd w)) t.
Proof.
  intros w He Hp. unfold FanotifyWatcher_Close, closeChan.
  rewrite He, Hp. cbn [bindO].
  destruct (fileCloseNilable (fw_mountpoint w)) as [mp t2].
  destruct (fileClose (fw_stopper_r w)) as [sr t3].
  destruct (fileClose (fw_stopper_w w)) as [sw t4].
  eexists; eexists. split; [reflexivity |].
  cbn [fw_Events fw_PermissionEvents ch_closed ch_sent].
  repeat (split; [reflexivity |]).
  split.
  - rewrite !app_assoc. apply last_last.
  - apply in_or_app. right. apply in_or_app. right.
    apply in_or_app. right. apply in_or_app. right. left. reflexivity.
Qed.

Lemma FanotifyWatcher_Close_first_call_witness :
  exists w' t,
    FanotifyWatcher_Close (Some freshFanotifyWatcher) = Returned (Some w', t)
    /\ ch_closed (fw_Events w') = true
    /\ ch_closed (fw_PermissionEvents w') = true
    /\ ch_sent (fw_Events w') = ch_sent (fw_Events freshFanotifyWatcher)
    /\ ch_sent (fw_PermissionEvents w')
       = ch_sent (fw_PermissionEvents freshFanotifyWatcher)
    /\ hd_error t = Some (SysWrite 5 "stop")
    /\ last t (SysClose 3) = SysClose 3
    /\ In (SysClose 3) t.
Proof.
  exact (FanotifyWatcher_Close_first_call freshFanotifyWatcher eq_refl
           eq_refl).
Defined.

(** ** Layout of the metadata *)

Lemma skipn_cons_nth : forall (A : Type) (l : list A) n x,
  nth_error l n = Some x -> skipn n l = x :: skipn (S n) l.
Proof.
  intros A l. induction l as [| a l IH]; intros n x H.
  - destruct n; discriminate.
  - destruct n as [| n]; cbn in *.
    + inversion H; reflexivity.
    + apply IH. exact H.
Qed.

Lemma map_seq_firstn : forall (A : Type) (g : nat -> A) (l : list A) len a,
  (forall k x, nth_error l k = Some x -> g k = x) ->
  (a + len <= List.length l)%nat ->
  map g (seq a len) = firstn len (skipn a l).
Proof.
  intros A g l len. induction len as [| len IH]; intros a Hg Hlen.
  - reflexivity.
  - cbn [seq map].
    destruct (nth_error l a) as [x |] eqn:Hx.
    + rewrite (skipn_cons_nth _ _ _ _ Hx). cbn [firstn].
      rewrite (Hg a x Hx). f_equal. apply IH; [exact Hg | lia].
    + apply nth_error_None in Hx. lia.
Qed.

(** Inside the buffer a read through the struct pointer gives the bytes of
    the buffer. *)
Lemma peek_inside : forall buf (past : Z -> Byte.byte) off len,
  0 <= off ->
  off + Z.of_nat len <= Z.of_nat (List.length buf) ->
  peek buf past off len = firstn len (skipn (Z.to_nat off) buf).
Proof.
  intros buf past off len Hoff Hlen. unfold peek.
  rewrite (map_seq_firstn _ _ (skipn (Z.to_nat off) buf) len 0).
  - reflexivity.
  - intros k x Hk. cbv zeta.
    destruct (Z.ltb_spec (off + Z.of_nat k) 0) as [Hneg | _]; [lia |].
    replace (Z.to_nat (off + Z.of_nat k)) with (Z.to_nat off + k)%nat by lia.
    rewrite nth_error_skipn in Hk. rewrite Hk. reflexivity.
  - rewrite length_skipn. lia.
Qed.

Lemma leU_putLE_small : forall width v,
  0 <= v < 256 ^ Z.of_nat width -> leU (putLE width v) = v.
Proof.
  intros width v Hv. rewrite leU_putLE. apply Z.mod_small. exact Hv.
Qed.

Lemma signed32_putLE : forall z,
  -2147483648 <= z < 2147483648 ->
  signed32 (leU (putLE 4 (wrap32 z))) = z.
Proof.
  intros z Hz. rewrite leU_putLE_small.
  - apply signed32_wrap32, Hz.
  - change (256 ^ Z.of_nat 4) with 4294967296. apply wrap32_range.
Qed.

(** X25. The decoder reads the metadata at the offsets of the kernel's
    struct: for a record that starts at offset [i] of the buffer with the
    24 little-endian bytes of event_len (u32), vers (u8), reserved (u8),
    metadata_len (u16), mask (u64), fd (i32) and pid (i32), the metadata
    read at [i] has exactly these values, negative descriptors such as
    FAN_NOFD included, whatever comes before and after the record. *)
Theorem readMetadata_layout : forall pre m rest past,
  0 <= Event_len m < 4294967296 ->
  0 <= Vers m < 256 ->
  0 <= Reserved m < 256 ->
  0 <= Metadata_len m < 65536 ->
  0 <= Mask m < 18446744073709551616 ->
  -2147483648 <= md_Fd m < 2147483648 ->
  -2147483648 <= md_Pid m < 2147483648 ->
  readMetadata (pre ++ metadataBytes m ++ rest) past
    (Z.of_nat (List.length pre)) = m.
Proof.
  intros pre m rest past Hlen Hv Hr Hml Hmask Hfd Hpid.
  assert (Hmb : List.length (metadataBytes m) = 24%nat).
  { unfold metadataBytes. rewrite !length_app, !length_putLE. reflexivity. }
  unfold readMetadata.
  rewrite peek_inside.
  2: lia.
  2: { rewrite !length_app, Hmb. unfold sizeOfFanotifyEventMetadata. lia. }
  rewrite Nat2Z.id, skipn_app, skipn_all, Nat.sub_diag, skipn_O.
  cbn [app]. change (Z.to_nat sizeOfFanotifyEventMetadata) with 24%nat.
  rewrite firstn_app, Hmb, Nat.sub_diag, firstn_O, app_nil_r.
  replace (firstn 24 (metadataBytes m)) with (metadataBytes m)
    by (symmetry; apply firstn_all2; rewrite Hmb; lia).
  destruct m as [el vs rs ml mk fd pid]. cbn [Event_len Vers Reserved
    Metadata_len Mask md_Fd md_Pid] in *.
  unfold metadataBytes. cbn [Event_len Vers Reserved Metadata_len Mask
    md_Fd md_Pid putLE app firstn skipn].
  f_equal.
  - exact (leU_putLE_small 4 el Hlen).
  - exact (leU_putLE_small 1 vs Hv).
  - exact (leU_putLE_small 1 rs Hr).
  - exact (leU_putLE_small 2 ml Hml).
  - exact (leU_putLE_small 8 mk Hmask).
  - exact (signed32_putLE fd Hfd).
  - exact (signed32_putLE pid Hpid).
Qed.

Lemma readMetadata_layout_witness :
  readMetadata
    (classicRecord FAN_OPEN
     ++ metadataBytes (mkMetadata 56 3 0 24 FAN_CREATE FAN_NOFD 100)
     ++ repeat Byte.x00 32)
    (fun _ => Byte.x00) (Z.of_nat (List.length (classicRecord FAN_OPEN)))
  = mkMetadata 56 3 0 24 FAN_CREATE FAN_NOFD 100.
Proof.
  apply (readMetadata_layout (classicRecord FAN_OPEN)
           (mkMetadata 56 3 0 24 FAN_CREATE FAN_NOFD 100)
           (repeat Byte.x00 32) (fun _ => Byte.x00));
    cbv; (split; [discriminate | reflexivity]).
Defined.

(** ** Flag checks *)

(** X26. In whatever order the support table is visited, each of the two
    kernel-support checks answers with the verdict of the first visited
    flag that the set contains, and with [true] when the set contains none;
    so a set whose listed flags are all supported by the kernel is accepted
    in every order. *)
Theorem kernelSupport_first_visited_flag : forall table order flags maj min,
  Permutation order table ->
  fanotifyInitFlagsKernelSupport order flags maj min
  = fanotifyMarkFlagsKernelSupport order flags maj min
  /\ fanotifyMarkFlagsKernelSupport order flags maj min
     = match find (fun e => isSet flags (fst e)) order with
       | Some e => versionSatisfied maj min (snd e)
       | None => true
       end
  /\ (allPresentFlagsSupported table flags maj min = true ->
      fanotifyMarkFlagsKernelSupport order flags maj min = true).
Proof.
  intros table order flags maj min Hp.
  unfold fanotifyInitFlagsKernelSupport, fanotifyMarkFlagsKernelSupport.
  split; [reflexivity |]. split.
  - apply kernelSupportLoop_first.
  - intro Hall.
    exact (kernelSupportLoop_accepts_supported table order flags maj min
             Hp Hall).
Qed.

Lemma kernelSupport_first_visited_flag_witness :
  fanotifyInitFlagsKernelSupport fanotifyMarkFlags FAN_OPEN_EXEC 5 0
  = fanotifyMarkFlagsKernelSupport fanotifyMarkFlags FAN_OPEN_EXEC 5 0
  /\ fanotifyMarkFlagsKernelSupport fanotifyMarkFlags FAN_OPEN_EXEC 5 0
     = match find (fun e => isSet FAN_OPEN_EXEC (fst e)) fanotifyMarkFlags
       with
       | Some e => versionSatisfied 5 0 (snd e)
       | None => true
       end
  /\ (allPresentFlagsSupported fanotifyMarkFlags FAN_OPEN_EXEC 5 0 = true ->
      fanotifyMarkFlagsKernelSupport fanotifyMarkFlags FAN_OPEN_EXEC 5 0
      = true).
Proof.
  exact (kernelSupport_first_visited_flag fanotifyMarkFlags fanotifyMarkFlags
           FAN_OPEN_EXEC 5 0 (Permutation_refl _)).
Defined.

(** A set holds a union of two types exactly when it holds both. *)
Lemma isSet_lor : forall n a b,
  isSet n (Z.lor a b) = isSet n a && isSet n b.
Proof.
  intros n a b. unfold isSet.
  destruct (Z.eqb_spec (Z.land n a) a) as [Ha | Ha];
    destruct (Z.eqb_spec (Z.land n b) b) as [Hb | Hb]; cbn [andb].
  - apply Z.eqb_eq. rewrite Z.land_lor_distr_r, Ha, Hb. reflexivity.
  - apply Z.eqb_neq. intro H. apply Hb. apply Z.bits_inj'. intros k _.
    assert (Hk : Z.testbit (Z.land n (Z.lor a b)) k
                 = Z.testbit (Z.lor a b) k) by (rewrite H; reflexivity).
    rewrite (Z.land_spec n (Z.lor a b) k), (Z.lor_spec a b k) in Hk.
    rewrite (Z.land_spec n b k).
    destruct (Z.testbit n k), (Z.testbit a k), (Z.testbit b k);
      cbn [andb orb] in *; try reflexivity; discriminate.
  - apply Z.eqb_neq. intro H. apply Ha. apply Z.bits_inj'. intros k _.
    assert (Hk : Z.testbit (Z.land n (Z.lor a b)) k
                 = Z.testbit (Z.lor a b) k) by (rewrite H; reflexivity).
    rewrite (Z.land_spec n (Z.lor a b) k), (Z.lor_spec a b k) in Hk.
    rewrite (Z.land_spec n a k).
    destruct (Z.testbit n k), (Z.testbit a k), (Z.testbit b k);
      cbn [andb orb] in *; try reflexivity; discriminate.
  - apply Z.eqb_neq. intro H. apply Ha. apply Z.bits_inj'. intros k _.
    assert (Hk : Z.testbit (Z.land n (Z.lor a b)) k
                 = Z.testbit (Z.lor a b) k) by (rewrite H; reflexivity).
    rewrite (Z.land_spec n (Z.lor a b) k), (Z.lor_spec a b k) in Hk.
    rewrite (Z.land_spec n a k).
    destruct (Z.testbit n k), (Z.testbit a k), (Z.testbit b k);
      cbn [andb orb] in *; try reflexivity; discriminate.
Qed.

(** X27. [flagsValid] turns down exactly three kinds of flag sets:
    REPORT_FID together with CLASS_CONTENT, REPORT_FID together with
    CLASS_PRE_CONTENT, and REPORT_NAME without REPORT_DIR_FID; every other
    set is valid. *)
Theorem flagsValid_rules : forall flags,
  flagsValid flags = None
  <-> (isSet flags FAN_REPORT_FID && isSet flags FAN_CLASS_CONTENT = false
       /\ isSet flags FAN_REPORT_FID && isSet flags FAN_CLASS_PRE_CONTENT
          = false
       /\ (isSet flags FAN_REPORT_NAME = true ->
           isSet flags FAN_REPORT_DIR_FID = true)).
Proof.
  intros flags. unfold flagsValid.
  rewrite (isSet_lor flags FAN_REPORT_FID FAN_CLASS_CONTENT),
    (isSet_lor flags FAN_REPORT_FID FAN_CLASS_PRE_CONTENT).
  destruct (isSet flags FAN_REPORT_FID), (isSet flags FAN_CLASS_CONTENT),
    (isSet flags FAN_CLASS_PRE_CONTENT), (isSet flags FAN_REPORT_NAME),
    (isSet flags FAN_REPORT_DIR_FID); cbn [andb negb];
    split; intro H; try discriminate; try reflexivity;
    try (repeat split; try reflexivity; intros; try reflexivity;
         discriminate);
    try (destruct H as [H1 [H2 H3]]; try discriminate;
         specialize (H3 eq_refl); discriminate).
Qed.

(** X28. [isFanotifyMarkMaskValid] accepts every mask of a mark that is not
    mount-wide; a mount-wide mark is turned down exactly when its mask has
    CREATE, ATTRIB, DELETE_SELF or DELETE, or both MOVED_FROM and MOVED_TO:
    one of the two move bits alone passes. *)
Theorem isFanotifyMarkMaskValid_rules : forall flags mask,
  isFanotifyMarkMaskValid flags mask
  = negb (isSet flags FAN_MARK_MOUNT
          && (isSet mask FAN_CREATE || isSet mask FAN_ATTRIB
              || (isSet mask FAN_MOVED_FROM && isSet mask FAN_MOVED_TO)
              || isSet mask FAN_DELETE_SELF || isSet mask FAN_DELETE)).
Proof.
  intros flags mask. unfold isFanotifyMarkMaskValid.
  change FAN_MOVE with (Z.lor FAN_MOVED_FROM FAN_MOVED_TO).
  rewrite (isSet_lor mask FAN_MOVED_FROM FAN_MOVED_TO).
  destruct (isSet flags FAN_MARK_MOUNT); [| reflexivity].
  destruct (isSet mask FAN_CREATE || isSet mask FAN_ATTRIB
            || isSet mask FAN_MOVED_FROM && isSet mask FAN_MOVED_TO
            || isSet mask FAN_DELETE_SELF || isSet mask FAN_DELETE);
    reflexivity.
Qed.
